(** * esp.terraform: the reconciliation core of the Terraform Enterprise modules

    A shallow embedding of [plugins/module_utils/tfe_helper.py] (class
    [TFEHelper]) and of the [main] functions of
    [plugins/modules/tfe_workspace.py], [plugins/modules/tfe_vcs_connection.py]
    and the parameter parsing of [plugins/modules/tfe_run_info.py].

    Python values are an inductive type, dictionaries keep their insertion
    order (iteration order and short-circuit evaluation decide where a
    [TypeError] is raised), remote calls are steps of a state-and-error monad
    whose state is the log of everything sent to the remote API. *)

From Stdlib Require Import List String Ascii ZArith QArith Qpower SpecFloat Bool Lia Arith.
Import ListNotations.
Local Open Scope string_scope.
Local Open Scope Z_scope.

Set Implicit Arguments.

(** ** Python values *)

(** The values an Ansible parameter of type [dict] or a decoded JSON document
    can hold: [None], booleans, integers, floats, strings, lists and dicts
    with string keys.  Neither holds a set, a tuple or a byte string.  A
    float is a [spec_float] of the Standard Library: a signed zero, a signed
    infinity, NaN, or a sign, a mantissa and an exponent.  Strings are
    sequences of ASCII characters. *)
Unset Elimination Schemes.
Inductive value : Type :=
| VNone
| VBool (b : bool)
| VInt (z : Z)
| VFloat (f : spec_float)
| VStr (s : string)
| VList (l : list value)
| VDict (d : list (string * value)).
Set Elimination Schemes.

(** A Python exception object: its class and its message, [str(e)]. *)
Record exn : Type := Exn { exn_class : string; exn_msg : string }.

Definition TypeError (m : string) : exn := Exn "TypeError" m.
Definition KeyError (m : string) : exn := Exn "KeyError" m.
Definition ValueError (m : string) : exn := Exn "ValueError" m.
Definition AttributeError (m : string) : exn := Exn "AttributeError" m.
Definition IndexError (m : string) : exn := Exn "IndexError" m.

(** A pure Python expression either raises or yields a value. *)
Definition res (A : Type) : Type := (exn + A)%type.

Definition is_scalar (v : value) : bool :=
  match v with
  | VList _ | VDict _ => false
  | _ => true
  end.

Definition type_name (v : value) : string :=
  match v with
  | VNone => "NoneType"
  | VBool _ => "bool"
  | VInt _ => "int"
  | VFloat _ => "float"
  | VStr _ => "str"
  | VList _ => "list"
  | VDict _ => "dict"
  end.

(** [bool] is a subclass of [int]: [True] is the integer 1. *)
Definition int_of_bool (b : bool) : Z := if b then 1 else 0.

(** The number a float denotes, as [(m, e)] for [m * 2^e]; the infinities
    and NaN denote none. *)
Definition float_num (f : spec_float) : option (Z * Z) :=
  match f with
  | S754_zero _ => Some (0, 0)
  | S754_finite s m e => Some (if s then Z.neg m else Z.pos m, e)
  | S754_infinity _ | S754_nan => None
  end.

(** Whether [m * 2^e] and [n * 2^d] are the same number: both are scaled to
    the smaller exponent and compared as integers. *)
Definition dyadic_eqb (x y : Z * Z) : bool :=
  let k := Z.min (snd x) (snd y) in
  fst x * 2 ^ (snd x - k) =? fst y * 2 ^ (snd y - k).

(** [f == g] for two floats: the comparison of IEEE 754.  The two zeros are
    equal, an infinity equals itself only, NaN equals nothing. *)
Definition float_eqb (f g : spec_float) : bool :=
  match f, g with
  | S754_infinity s, S754_infinity t => Bool.eqb s t
  | _, _ =>
      match float_num f, float_num g with
      | Some x, Some y => dyadic_eqb x y
      | _, _ => false
      end
  end.

(** [f == z] for a float and an integer: Python compares the two numbers
    exactly, without rounding the integer. *)
Definition float_eq_int (f : spec_float) (z : Z) : bool :=
  match float_num f with
  | Some x => dyadic_eqb x (z, 0)
  | None => false
  end.

(** [a == b].  Booleans are integers, and integers and floats are compared
    as numbers; other scalars of different types are unequal; lists are
    equal pointwise; dicts (whose keys are distinct) are equal when they
    have the same size and agree on every key. *)
Fixpoint py_eq (a b : value) {struct a} : bool :=
  match a, b with
  | VNone, VNone => true
  | VBool x, VBool y => Bool.eqb x y
  | VBool x, VInt y => int_of_bool x =? y
  | VInt x, VBool y => x =? int_of_bool y
  | VInt x, VInt y => x =? y
  | VBool x, VFloat g => float_eq_int g (int_of_bool x)
  | VInt x, VFloat g => float_eq_int g x
  | VFloat f, VBool y => float_eq_int f (int_of_bool y)
  | VFloat f, VInt y => float_eq_int f y
  | VFloat f, VFloat g => float_eqb f g
  | VStr x, VStr y => String.eqb x y
  | VList xs, VList ys =>
      (fix eq_items (l : list value) (r : list value) : bool :=
         match l, r with
         | [], [] => true
         | x :: l', y :: r' => py_eq x y && eq_items l' r'
         | _, _ => false
         end) xs ys
  | VDict xs, VDict ys =>
      Nat.eqb (List.length xs) (List.length ys) &&
      (fix eq_entries (l : list (string * value)) : bool :=
         match l with
         | [] => true
         | (k, x) :: l' =>
             match (fix get (d : list (string * value)) : option value :=
                      match d with
                      | [] => None
                      | (k', y) :: d' => if String.eqb k' k then Some y else get d'
                      end) ys with
             | Some y => py_eq x y && eq_entries l'
             | None => false
             end
         end) xs
  | _, _ => false
  end.

(** Exact equality of type and value, the comparison the specification
    describes ("no type coercion"). *)
Definition strict_eq (a b : value) : bool :=
  match a, b with
  | VNone, VNone => true
  | VBool x, VBool y => Bool.eqb x y
  | VInt x, VInt y => x =? y
  | VFloat x, VFloat y => float_eqb x y
  | VStr x, VStr y => String.eqb x y
  | _, _ => false
  end.

(** ** Dictionaries, containment, indexing, iteration *)

Fixpoint dict_get (d : list (string * value)) (k : string) : option value :=
  match d with
  | [] => None
  | (k', v) :: d' => if String.eqb k' k then Some v else dict_get d' k
  end.

Definition dict_has (d : list (string * value)) (k : string) : bool :=
  match dict_get d k with Some _ => true | None => false end.

(** [needle in hay] for two strings: substring test. *)
Fixpoint is_substring (needle hay : string) : bool :=
  if String.prefix needle hay then true
  else match hay with
       | EmptyString => false
       | String _ hay' => is_substring needle hay'
       end.

(** [key in container] for a string key. *)
Definition py_contains (container : value) (key : string) : res bool :=
  match container with
  | VDict d => inr (dict_has d key)
  | VList l => inr (existsb (py_eq (VStr key)) l)
  | VStr s => inr (is_substring key s)
  | v => inl (TypeError ("argument of type '" ++ type_name v ++ "' is not iterable"))
  end.

(** [container[key]] for a string key. *)
Definition py_getitem (container : value) (key : string) : res value :=
  match container with
  | VDict d =>
      match dict_get d key with
      | Some v => inr v
      | None => inl (KeyError key)
      end
  | VList _ => inl (TypeError "list indices must be integers or slices, not str")
  | VStr _ => inl (TypeError "string indices must be integers")
  | v => inl (TypeError ("'" ++ type_name v ++ "' object is not subscriptable"))
  end.

Fixpoint chars (s : string) : list value :=
  match s with
  | EmptyString => []
  | String c s' => VStr (String c EmptyString) :: chars s'
  end.

(** [for x in container]: the elements of a list, the keys of a dict, the
    characters of a string. *)
Definition py_iter (container : value) : res (list value) :=
  match container with
  | VList l => inr l
  | VDict d => inr (map (fun kv => VStr (fst kv)) d)
  | VStr s => inr (chars s)
  | v => inl (TypeError ("'" ++ type_name v ++ "' object is not iterable"))
  end.

(** ** The subset comparator

    [TFEHelper.is_subset] (tfe_helper.py, lines 121-133).  [all] and [any]
    consume their generator from left to right and stop at the first [False]
    (resp. [True]); an exception raised on the way propagates. *)
Fixpoint is_subset (subset superset : value) {struct subset} : res bool :=
  match subset with
  | VDict items =>
      (fix all_items (its : list (string * value)) : res bool :=
         match its with
         | [] => inr true
         | (key, val) :: rest =>
             match py_contains superset key with
             | inl e => inl e
             | inr false => inr false
             | inr true =>
                 match py_getitem superset key with
                 | inl e => inl e
                 | inr sup =>
                     match is_subset val sup with
                     | inl e => inl e
                     | inr false => inr false
                     | inr true => all_items rest
                     end
                 end
             end
         end) items
  | VList subitems =>
      (fix all_subitems (l : list value) : res bool :=
         match l with
         | [] => inr true
         | subitem :: rest =>
             match py_iter superset with
             | inl e => inl e
             | inr superitems =>
                 match
                   (fix any_superitem (ss : list value) : res bool :=
                      match ss with
                      | [] => inr false
                      | superitem :: ss' =>
                          match is_subset subitem superitem with
                          | inl e => inl e
                          | inr true => inr true
                          | inr false => any_superitem ss'
                          end
                      end) superitems
                 with
                 | inl e => inl e
                 | inr false => inr false
                 | inr true => all_subitems rest
                 end
             end
         end) subitems
  | _ => inr (py_eq subset superset)
  end.


(** Truth value of an object, as [if v:] and [not v] see it. *)
Definition py_truthy (v : value) : bool :=
  match v with
  | VNone => false
  | VBool b => b
  | VInt z => negb (z =? 0)
  | VFloat f => match float_num f with Some (m, _) => negb (m =? 0) | None => true end
  | VStr s => negb (String.eqb s "")
  | VList l => match l with [] => false | _ => true end
  | VDict d => match d with [] => false | _ => true end
  end.

(** [v.get(key, default)]: only a dict has the method. *)
Definition py_get (v : value) (key : string) (default : value) : res value :=
  match v with
  | VDict d =>
      match dict_get d key with
      | Some x => inr x
      | None => inr default
      end
  | _ => inl (AttributeError ("'" ++ type_name v ++ "' object has no attribute 'get'"))
  end.

(** [str(x)] for a parameter of type [str] that may be [None]. *)
Definition py_str (x : option string) : string :=
  match x with
  | Some s => s
  | None => "None"
  end.

Definition value_of (x : option string) : value :=
  match x with
  | Some s => VStr s
  | None => VNone
  end.

(** The double quote character, and a string between double quotes. *)
Definition dq : string := String (ascii_of_nat 34) EmptyString.
Definition quoted (s : string) : string := dq ++ s ++ dq.

(** ** Generators over fallible conditions *)

Section Generators.
Context {A : Type}.
Variable cond : A -> res bool.

(** [any(cond(x) for x in l)] *)
Fixpoint any_res (l : list A) : res bool :=
  match l with
  | [] => inr false
  | x :: l' =>
      match cond x with
      | inl e => inl e
      | inr true => inr true
      | inr false => any_res l'
      end
  end.

(** [[x for x in l if cond(x)]] *)
Fixpoint filter_res (l : list A) : res (list A) :=
  match l with
  | [] => inr []
  | x :: l' =>
      match cond x with
      | inl e => inl e
      | inr b =>
          match filter_res l' with
          | inl e => inl e
          | inr r => inr (if b then x :: r else r)
          end
      end
  end.

(** [l[0]] *)
Definition first_res (l : list A) : res A :=
  match l with
  | [] => inl (IndexError "list index out of range")
  | x :: _ => inr x
  end.
End Generators.

(** ** Remote resources and the API client *)

(** A resource of the remote API: [{'id': ..., 'attributes': {...},
    'relationships': {...}}]. *)
Record resource : Type := Resource {
  r_id : string;
  r_attributes : list (string * value);
  r_relationships : list (string * value)
}.

(** The methods of the [terrasnek] client the modelled modules call. *)
Inductive endpoint : Type :=
| orgs_list
| set_org
| workspaces_list_all
| workspaces_destroy
| workspaces_update
| workspaces_lock
| workspaces_unlock
| workspaces_assign_ssh_key
| workspaces_unassign_ssh_key
| workspaces_create
| ssh_keys_list
| oauth_clients_list
| oauth_clients_destroy
| oauth_clients_update
| oauth_clients_show
| oauth_clients_create.

(** One call of a client method with its keyword arguments. *)
Record request : Type := Req { req_endpoint : endpoint; req_kwargs : list (string * value) }.

(** What the process does to the outside world, in program order. *)
Inductive event : Type :=
| EvCall (r : request)
| EvSleep (seconds : Z).

Definition log : Type := list event.

(** Endpoints that change remote state. *)
Definition is_mutating (e : endpoint) : bool :=
  match e with
  | workspaces_destroy | workspaces_update | workspaces_lock | workspaces_unlock
  | workspaces_assign_ssh_key | workspaces_unassign_ssh_key | workspaces_create
  | oauth_clients_destroy | oauth_clients_update | oauth_clients_create => true
  | _ => false
  end.

(** The create, update and destroy endpoints of a resource type. *)
Definition is_crud (e : endpoint) : bool :=
  match e with
  | workspaces_destroy | workspaces_update | workspaces_create
  | oauth_clients_destroy | oauth_clients_update | oauth_clients_create => true
  | _ => false
  end.

(** The lock and unlock actions, and the two SSH key actions. *)
Definition is_lock_call (e : endpoint) : bool :=
  match e with
  | workspaces_lock | workspaces_unlock => true
  | _ => false
  end.

Definition is_ssh_key_call (e : endpoint) : bool :=
  match e with
  | workspaces_assign_ssh_key | workspaces_unassign_ssh_key => true
  | _ => false
  end.

Definition event_endpoint_is (f : endpoint -> bool) (ev : event) : bool :=
  match ev with
  | EvCall r => f (req_endpoint r)
  | EvSleep _ => false
  end.

Definition mutating_calls (l : log) : log := filter (event_endpoint_is is_mutating) l.
Definition crud_calls (l : log) : log := filter (event_endpoint_is is_crud) l.
Definition lock_calls (l : log) : log := filter (event_endpoint_is is_lock_call) l.
Definition ssh_key_calls (l : log) : log := filter (event_endpoint_is is_ssh_key_call) l.

Definition is_sleep (ev : event) : bool :=
  match ev with EvSleep _ => true | EvCall _ => false end.

Definition sleeps (l : log) : log := filter is_sleep l.

Fixpoint slept_seconds (l : log) : Z :=
  match l with
  | [] => 0
  | EvSleep s :: l' => s + slept_seconds l'
  | EvCall _ :: l' => slept_seconds l'
  end.

(** ** The monad of a module run

    A computation reads and extends the log.  It returns, raises a Python
    exception, or leaves through [module.fail_json] ([SystemExit], which
    [except Exception] does not catch). *)
Inductive outcome (A : Type) : Type :=
| Ret (a : A)
| Raise (e : exn)
| FailJson (msg : string).
Arguments Ret {A} a.
Arguments Raise {A} e.
Arguments FailJson {A} msg.

Definition M (A : Type) : Type := log -> outcome A * log.

Definition ret {A} (a : A) : M A := fun h => (Ret a, h).
Definition raise {A} (e : exn) : M A := fun h => (Raise e, h).
Definition fail_json {A} (msg : string) : M A := fun h => (FailJson msg, h).

Definition bind {A B} (m : M A) (k : A -> M B) : M B :=
  fun h =>
    match m h with
    | (Ret a, h') => k a h'
    | (Raise e, h') => (Raise e, h')
    | (FailJson msg, h') => (FailJson msg, h')
    end.

Notation "x <- m ;; k" := (bind m (fun x => k))
  (at level 61, m at next level, right associativity).
Notation "m ;;; k" := (bind m (fun _ => k))
  (at level 61, right associativity).

(** A pure expression inside a run. *)
Definition lift {A} (r : res A) : M A :=
  match r with
  | inl e => raise e
  | inr a => ret a
  end.

(** [try: x = m  except Exception as e: handler(e)], then [k x]: the
    handler's result is the result of the whole. *)
Definition try_except {A B} (m : M A) (handler : exn -> M B) (k : A -> M B) : M B :=
  fun h =>
    match m h with
    | (Ret a, h') => k a h'
    | (Raise e, h') => handler e h'
    | (FailJson msg, h') => (FailJson msg, h')
    end.

(** [time.sleep(seconds)] *)
Definition time_sleep (seconds : Z) : M unit :=
  fun h =>
    if seconds <? 0 then (Raise (ValueError "sleep length must be non-negative"), h)
    else (Ret tt, (h ++ [EvSleep seconds])%list).

(** ** TFEHelper *)

(** The helper object: the retry parameters of the module and the client
    [self.api], whose answer to a request may depend on everything that
    happened before.  List methods answer with the [data] collection, the
    other methods with a JSON document. *)
Record TFEHelper : Type := {
  retries : Z;
  sleep : Z;
  api_list : log -> request -> res (list resource);
  api : log -> request -> res value
}.

(** Calling a client method once. *)
Definition endpoint_list (tfe : TFEHelper) (r : request) : M (list resource) :=
  fun h =>
    (match api_list tfe h r with inl e => Raise e | inr d => Ret d end, (h ++ [EvCall r])%list).

Definition endpoint_json (tfe : TFEHelper) (r : request) : M value :=
  fun h =>
    (match api tfe h r with inl e => Raise e | inr v => Ret v end, (h ++ [EvCall r])%list).

(** The loop of [call_endpoint] with [remaining] iterations to go: the
    counter [retries] runs from 1 to [params['retries']].  After the loop
    [raise exception] raises the last exception, or a [TypeError] when
    [exception] is still [None]. *)
Fixpoint call_endpoint_loop {A} (tfe : TFEHelper) (endpoint : M A)
    (remaining : nat) (exception : option exn) : M A :=
  match remaining with
  | O =>
      match exception with
      | Some e => raise e
      | None => raise (TypeError "exceptions must derive from BaseException")
      end
  | S remaining' =>
      try_except endpoint
        (fun e => time_sleep (sleep tfe) ;;;
                  call_endpoint_loop tfe endpoint remaining' (Some e))
        ret
  end.

(** [TFEHelper.call_endpoint] (tfe_helper.py, lines 45-65). *)
Definition call_endpoint {A} (tfe : TFEHelper) (endpoint : M A) : M A :=
  call_endpoint_loop tfe endpoint (Z.to_nat (retries tfe)) None.

(** ** The list normalizer *)

(** The characters [str.strip()] removes. *)
Definition is_space (c : ascii) : bool :=
  let n := nat_of_ascii c in
  ((9 <=? n) && (n <=? 13) || (28 <=? n) && (n <=? 32))%nat.

Fixpoint lstrip (s : string) : string :=
  match s with
  | EmptyString => EmptyString
  | String c s' => if is_space c then lstrip s' else s
  end.

Fixpoint rstrip (s : string) : string :=
  match s with
  | EmptyString => EmptyString
  | String c s' =>
      match rstrip s' with
      | EmptyString => if is_space c then EmptyString else String c EmptyString
      | r => String c r
      end
  end.

(** [s.strip()] *)
Definition strip (s : string) : string := rstrip (lstrip s).

(** [s.split(',')] *)
Fixpoint split_comma (s : string) : list string :=
  match s with
  | EmptyString => [EmptyString]
  | String c s' =>
      if Ascii.eqb c ","%char then EmptyString :: split_comma s'
      else match split_comma s' with
           | [] => [String c EmptyString]
           | piece :: pieces => String c piece :: pieces
           end
  end.

(** [l.remove(x)]: drops the first element equal to [x]. *)
Fixpoint list_remove (x : string) (l : list string) : res (list string) :=
  match l with
  | [] => inl (ValueError "list.remove(x): x not in list")
  | y :: l' =>
      if String.eqb y x then inr l'
      else match list_remove x l' with
           | inl e => inl e
           | inr r => inr (y :: r)
           end
  end.

(** The first loop of the normalizer: the pieces of the comma separated
    elements, and those elements themselves. *)
Fixpoint collect_comma_sep (some_list : list string) (new_list remove_from_original_list : list string)
  : list string * list string :=
  match some_list with
  | [] => (new_list, remove_from_original_list)
  | element :: rest =>
      if is_substring "," element then
        collect_comma_sep rest
          (new_list ++ map strip (split_comma element))%list
          (remove_from_original_list ++ [element])%list
      else collect_comma_sep rest new_list remove_from_original_list
  end.

(** The second loop: [some_list.remove(element)] for each of them. *)
Fixpoint remove_each (remove_from_original_list some_list : list string) : res (list string) :=
  match remove_from_original_list with
  | [] => inr some_list
  | element :: rest =>
      match list_remove element some_list with
      | inl e => inl e
      | inr some_list' => remove_each rest some_list'
      end
  end.

(** [TFEHelper.listify_comma_sep_strings_in_list] (tfe_helper.py, lines
    68-89). *)
Definition listify_comma_sep_strings_in_list (some_list : list string) : res (list string) :=
  let '(new_list, remove_from_original_list) := collect_comma_sep some_list [] [] in
  match remove_each remove_from_original_list some_list with
  | inl e => inl e
  | inr some_list1 =>
      let some_list2 := (some_list1 ++ new_list)%list in
      if list_eq_dec string_dec some_list2 [EmptyString] then inr []
      else inr some_list2
  end.

(** The parsing of the [run] parameter in [tfe_run_info.main]
    (tfe_run_info.py, lines 331-335). *)
Definition tfe_run_info_runs (run : list string) : res (list string) :=
  let runs := map strip run in
  match listify_comma_sep_strings_in_list runs with
  | inl e => inl e
  | inr runs =>
      match runs with
      | [] => inr ["*"]
      | _ => inr runs
      end
  end.

(** ** Looking up the organization *)

(** [o['attributes'][key] == v] *)
Definition attribute_is (key : string) (v : value) (o : resource) : res bool :=
  match dict_get (r_attributes o) key with
  | Some x => inr (py_eq x v)
  | None => inl (KeyError key)
  end.

(** [o['id'] == i] *)
Definition id_is (i : string) (o : resource) : bool := String.eqb (r_id o) i.

(** [TFEHelper.get_org_name_when_exists] (tfe_helper.py, lines 92-118). *)
Definition get_org_name_when_exists (tfe : TFEHelper) (organization : string)
    (return_org_name_on_unauthorized : bool) : M (option string) :=
  try_except (call_endpoint tfe (endpoint_list tfe (Req orgs_list [])))
    (fun e =>
       if return_org_name_on_unauthorized then ret (Some organization)
       else fail_json ("Unable to list organizations. Error: " ++ exn_msg e ++ "."))
    (fun all_organizations =>
       found <- lift (any_res (attribute_is "external-id" (VStr organization)) all_organizations) ;;
       org_name <-
         (if found : bool then
            l <- lift (filter_res (attribute_is "external-id" (VStr organization)) all_organizations) ;;
            o <- lift (first_res l) ;;
            ret (Some (r_id o))
          else ret None) ;;
       match org_name with
       | None =>
           if existsb (id_is organization) all_organizations then
             o <- lift (first_res (filter (id_is organization) all_organizations)) ;;
             ret (Some (r_id o))
           else ret None
       | Some _ => ret org_name
       end).

(** The [state] parameter of a reconciliation module. *)
Inductive state_choice : Type := present | absent.

Definition state_eqb (a b : state_choice) : bool :=
  match a, b with
  | present, present | absent, absent => true
  | _, _ => false
  end.

(** [attributes] as it is sent in a payload: a dict or [None]. *)
Definition attributes_value (attributes : option (list (string * value))) : value :=
  match attributes with
  | Some d => VDict d
  | None => VNone
  end.

(** ['name' not in attributes] with [attributes] possibly [None]. *)
Definition name_not_in (attributes : option (list (string * value))) : res bool :=
  match attributes with
  | Some d => inr (negb (dict_has d "name"))
  | None => inl (TypeError "argument of type 'NoneType' is not iterable")
  end.

(** [attributes['name']] *)
Definition attributes_name (attributes : option (list (string * value))) : res value :=
  match attributes with
  | Some d => py_getitem (VDict d) "name"
  | None => inl (TypeError "'NoneType' object is not subscriptable")
  end.

(** [o['attributes']['name'] == attributes['name']] *)
Definition name_is_attributes_name (attributes : option (list (string * value)))
    (o : resource) : res bool :=
  match dict_get (r_attributes o) "name" with
  | None => inl (KeyError "name")
  | Some x =>
      match attributes_name attributes with
      | inl e => inl e
      | inr n => inr (py_eq x n)
      end
  end.

(** ** The workspace module, [plugins/modules/tfe_workspace.py] *)

Module tfe_workspace.

(** [module.params] and [module.check_mode]. *)
Record params : Type := {
  organization : string;
  workspace : option string;
  state : state_choice;
  locked : option bool;
  lock_reason : option string;
  ssh_key : option string;
  attributes : option (list (string * value));
  check_mode : bool
}.

(** The [required_if] rules [AnsibleModule] enforces before [main] goes on
    (line 429): each rule asks for one of the listed parameters. *)
Definition required_if (p : params) : bool :=
  match state p with
  | absent => match workspace p with Some _ => true | None => false end
  | present =>
      match attributes p, locked p, ssh_key p with
      | None, None, None => false
      | _, _, _ => true
      end
  end
  && match locked p with
     | Some true => match lock_reason p with Some _ => true | None => false end
     | _ => true
     end.

(** The [result] dict handed to [module.exit_json]. *)
Record result : Type := {
  changed : bool;
  result_state : state_choice;
  result_organization : option string;
  json : value;
  result_workspace : option string;
  result_attributes : option (list (string * value))
}.

Definition set_json (r : result) (v : value) : result :=
  {| changed := changed r; result_state := result_state r;
     result_organization := result_organization r; json := v;
     result_workspace := result_workspace r;
     result_attributes := result_attributes r |}.

Definition set_changed (r : result) : result :=
  {| changed := true; result_state := result_state r;
     result_organization := result_organization r; json := json r;
     result_workspace := result_workspace r;
     result_attributes := result_attributes r |}.

(** [if not module.check_mode: try: result['json'] = call_endpoint(...)
    except Exception as e: fail_json(msg)], then [result['changed'] = True]. *)
Definition act (tfe : TFEHelper) (p : params) (r : request)
    (msg : exn -> string) (result0 : result) : M result :=
  result1 <-
    (if negb (check_mode p) then
       try_except (call_endpoint tfe (endpoint_json tfe r))
         (fun e => fail_json (msg e))
         (fun v => ret (set_json result0 v))
     else ret result0) ;;
  ret (set_changed result1).

(** [[w for w in all_workspaces['data'] if w['id'] == workspace_id][0]] *)
Definition workspace_with_id (all_workspaces : list resource) (workspace_id : string)
  : res resource :=
  first_res (filter (id_is workspace_id) all_workspaces).

(** Lines 465-482: the ID of the existing workspace. *)
Definition get_workspace_id (p : params) (organization : option string)
    (all_workspaces : list resource) : M (option string) :=
  match workspace p with
  | Some workspace =>
      by_name <- lift (any_res (attribute_is "name" (VStr workspace)) all_workspaces) ;;
      if by_name : bool then
        l <- lift (filter_res (attribute_is "name" (VStr workspace)) all_workspaces) ;;
        w <- lift (first_res l) ;;
        ret (Some (r_id w))
      else if existsb (id_is workspace) all_workspaces then ret (Some workspace)
      else
        match state p with
        | present =>
            fail_json ("The supplied " ++ quoted workspace ++ " workspace does not exist in "
                       ++ quoted (py_str organization) ++ " organization.")
        | absent => ret None
        end
  | None =>
      missing <- lift (name_not_in (attributes p)) ;;
      (if missing : bool then fail_json "`name` is required when creating a new workspace"
       else ret tt) ;;;
      found <- lift (any_res (name_is_attributes_name (attributes p)) all_workspaces) ;;
      if found : bool then
        l <- lift (filter_res (name_is_attributes_name (attributes p)) all_workspaces) ;;
        w <- lift (first_res l) ;;
        ret (Some (r_id w))
      else ret None
  end.

(** Lines 484-493: destroy the workspace. *)
Definition destroy_step (tfe : TFEHelper) (p : params) (organization : option string)
    (workspace_id : option string) (result0 : result) : M result :=
  match state p, workspace_id with
  | absent, Some workspace_id =>
      act tfe p (Req workspaces_destroy [("workspace_id", VStr workspace_id)])
        (fun e => "Unable to destroy " ++ quoted (py_str (workspace p)) ++ " workspace in "
                  ++ quoted (py_str organization) ++ " organization. Error: "
                  ++ exn_msg e ++ ".")
        result0
  | _, _ => ret result0
  end.

(** Lines 498-516: update the attributes when they are not a subset of the
    current ones. *)
Definition update_attributes (tfe : TFEHelper) (p : params) (organization : option string)
    (all_workspaces : list resource) (workspace_id : string) (result0 : result) : M result :=
  match attributes p with
  | Some attributes =>
      let w_payload :=
        VDict [("data", VDict [("type", VStr "workspaces");
                               ("attributes", VDict attributes)])] in
      w <- lift (workspace_with_id all_workspaces workspace_id) ;;
      let current_attributes := r_attributes w in
      unchanged <- lift (is_subset (VDict attributes) (VDict current_attributes)) ;;
      if negb unchanged then
        act tfe p (Req workspaces_update [("workspace_id", VStr workspace_id);
                                          ("payload", w_payload)])
          (fun e => "Unable to update " ++ quoted (py_str (workspace p)) ++ " workspace in "
                    ++ quoted (py_str organization) ++ " organization. Error: "
                    ++ exn_msg e ++ ".")
          result0
      else ret result0
  | None => ret result0
  end.

(** Lines 518-545: lock or unlock the workspace. *)
Definition process_locked (tfe : TFEHelper) (p : params) (organization : option string)
    (all_workspaces : list resource) (workspace_id : string) (result0 : result) : M result :=
  match locked p with
  | Some locked =>
      w <- lift (workspace_with_id all_workspaces workspace_id) ;;
      currently_locked <- lift (py_getitem (VDict (r_attributes w)) "locked") ;;
      result1 <-
        (if locked && negb (py_truthy currently_locked) then
           let reason :=
             match lock_reason p with
             | Some s => s
             | None => ""
             end in
           act tfe p (Req workspaces_lock [("workspace_id", VStr workspace_id);
                                           ("payload", VDict [("reason", VStr reason)])])
             (fun e => "Unable to lock " ++ quoted (py_str (workspace p)) ++ " workspace in "
                       ++ quoted (py_str organization) ++ " organization. Error: "
                       ++ exn_msg e ++ ".")
             result0
         else ret result0) ;;
      if negb locked && py_truthy currently_locked then
        act tfe p (Req workspaces_unlock [("workspace_id", VStr workspace_id)])
          (fun e => "Unable to unlock " ++ quoted (py_str (workspace p)) ++ " workspace in "
                    ++ quoted (py_str organization) ++ " organization. Error: "
                    ++ exn_msg e ++ ".")
          result1
      else ret result1
  | None => ret result0
  end.

(** Lines 555-564: the ID of the SSH key named by [ssh_key]. *)
Definition get_ssh_key_id (ssh_key : string) (organization : option string)
    (all_ssh_keys : list resource) : M (option string) :=
  if negb (String.eqb ssh_key "") then
    by_name <- lift (any_res (attribute_is "name" (VStr ssh_key)) all_ssh_keys) ;;
    if by_name : bool then
      l <- lift (filter_res (attribute_is "name" (VStr ssh_key)) all_ssh_keys) ;;
      k <- lift (first_res l) ;;
      ret (Some (r_id k))
    else if existsb (id_is ssh_key) all_ssh_keys then ret (Some ssh_key)
    else fail_json ("The supplied " ++ quoted ssh_key ++ " SSH key does not exist in "
                    ++ quoted (py_str organization) ++ " organization.")
  else ret None.

(** Line 566: [w['relationships'].get('ssh-key', {}).get('data', {}).get('id', None)] *)
Definition currently_assigned (w : resource) : res value :=
  match py_get (VDict (r_relationships w)) "ssh-key" (VDict []) with
  | inl e => inl e
  | inr k =>
      match py_get k "data" (VDict []) with
      | inl e => inl e
      | inr d => py_get d "id" VNone
      end
  end.

Definition is_none (v : value) : bool :=
  match v with VNone => true | _ => false end.

(** Lines 547-605: assign or unassign the SSH key. *)
Definition process_ssh_key (tfe : TFEHelper) (p : params) (organization : option string)
    (all_workspaces : list resource) (workspace_id : string) (result0 : result) : M result :=
  match ssh_key p with
  | Some ssh_key =>
      try_except (call_endpoint tfe (endpoint_list tfe (Req ssh_keys_list [])))
        (fun e => fail_json ("Unable to list SSH keys in " ++ quoted (py_str organization)
                             ++ " organization. Error: " ++ exn_msg e ++ "."))
        (fun all_ssh_keys =>
           ssh_key_id <- get_ssh_key_id ssh_key organization all_ssh_keys ;;
           w <- lift (workspace_with_id all_workspaces workspace_id) ;;
           currently_assigned_ssh_key <- lift (currently_assigned w) ;;
           result1 <-
             match ssh_key_id with
             | Some ssh_key_id =>
                 if is_none currently_assigned_ssh_key
                    || negb (py_eq currently_assigned_ssh_key (VStr ssh_key_id)) then
                   act tfe p
                     (Req workspaces_assign_ssh_key
                        [("workspace_id", VStr workspace_id);
                         ("payload",
                          VDict [("data", VDict [("attributes", VDict [("id", VStr ssh_key_id)]);
                                                 ("type", VStr "workspaces")])])])
                     (fun e => "Unable to assign " ++ quoted ssh_key ++ " SSH key to "
                               ++ quoted (py_str (workspace p)) ++ " workspace. Error: "
                               ++ exn_msg e ++ ".")
                     result0
                 else ret result0
             | None => ret result0
             end ;;
           match ssh_key_id with
           | None =>
               if negb (is_none currently_assigned_ssh_key) then
                 act tfe p
                   (Req workspaces_unassign_ssh_key
                      [("workspace_id", VStr workspace_id);
                       ("payload",
                        VDict [("data", VDict [("attributes", VDict [("id", VNone)]);
                                               ("type", VStr "workspaces")])])])
                   (fun e => "Unable to unassign " ++ quoted ssh_key ++ " SSH key from "
                             ++ quoted (py_str (workspace p)) ++ " workspace. Error: "
                             ++ exn_msg e ++ ".")
                   result1
               else ret result1
           | Some _ => ret result1
           end)
  | None => ret result0
  end.

(** Lines 495-605: update the workspace if it exists and [state] is
    [present]. *)
Definition update_step (tfe : TFEHelper) (p : params) (organization : option string)
    (all_workspaces : list resource) (workspace_id : option string) (result0 : result)
  : M result :=
  match state p, workspace_id with
  | present, Some workspace_id =>
      result1 <- update_attributes tfe p organization all_workspaces workspace_id result0 ;;
      result2 <- process_locked tfe p organization all_workspaces workspace_id result1 ;;
      process_ssh_key tfe p organization all_workspaces workspace_id result2
  | _, _ => ret result0
  end.

(** Lines 607-626: create the workspace if it does not exist and [state]
    is [present]. *)
Definition create_step (tfe : TFEHelper) (p : params) (organization : option string)
    (workspace_id : option string) (result0 : result) : M result :=
  match state p, workspace_id with
  | present, None =>
      missing <- lift (name_not_in (attributes p)) ;;
      (if missing : bool then fail_json "`name` is required when creating a new workspace"
       else ret tt) ;;;
      let w_payload :=
        VDict [("data", VDict [("type", VStr "workspaces");
                               ("attributes", attributes_value (attributes p))])] in
      act tfe p (Req workspaces_create [("payload", w_payload)])
        (fun e => "Unable to create " ++ quoted (py_str (workspace p)) ++ " workspace in "
                  ++ quoted (py_str organization) ++ " organization. Error: "
                  ++ exn_msg e ++ ".")
        result0
  | _, _ => ret result0
  end.

(** Lines 465-628, after the collection of workspaces is fetched. *)
Definition reconcile (tfe : TFEHelper) (p : params) (organization : option string)
    (all_workspaces : list resource) (result0 : result) : M result :=
  workspace_id <- get_workspace_id p organization all_workspaces ;;
  result1 <- destroy_step tfe p organization workspace_id result0 ;;
  result2 <- update_step tfe p organization all_workspaces workspace_id result1 ;;
  create_step tfe p organization workspace_id result2.

(** [main] from line 434 on: what runs once [AnsibleModule] (lines 426-430)
    has accepted the parameters, that is when [required_if p] holds; the
    statements about what a run of the module ends in assume it.
    [Ret result] is the call of [module.exit_json] on [result]. *)
Definition main (tfe : TFEHelper) (p : params) : M result :=
  organization <- get_org_name_when_exists tfe (organization p) true ;;
  let result0 :=
    {| changed := false; result_state := state p; result_organization := organization;
       json := VDict []; result_workspace := workspace p;
       result_attributes := attributes p |} in
  try_except
    (call_endpoint tfe (endpoint_json tfe (Req set_org [("org_name", value_of organization)])))
    (fun e => fail_json ("Unable to set " ++ quoted (py_str organization)
                         ++ " organization to use for org specific endpoints: " ++ exn_msg e))
    (fun _ =>
       try_except
         (call_endpoint tfe (endpoint_list tfe (Req workspaces_list_all [("include", VNone)])))
         (fun e => fail_json ("Unable to list workspaces in " ++ quoted (py_str organization)
                              ++ " organization. Error: " ++ exn_msg e ++ "."))
         (fun all_workspaces => reconcile tfe p organization all_workspaces result0)).

End tfe_workspace.

(** ** The VCS connection module, [plugins/modules/tfe_vcs_connection.py] *)

Module tfe_vcs_connection.

(** [module.params] and [module.check_mode]. *)
Record params : Type := {
  organization : string;
  state : state_choice;
  client : option string;
  attributes : option (list (string * value));
  check_mode : bool
}.

(** The [required_if] rules of line 237. *)
Definition required_if (p : params) : bool :=
  match state p with
  | absent => match client p with Some _ => true | None => false end
  | present => match attributes p with Some _ => true | None => false end
  end.

(** The [result] dict handed to [module.exit_json]. *)
Record result : Type := {
  changed : bool;
  result_organization : option string;
  result_state : state_choice;
  json : value;
  result_client : option string;
  result_attributes : option (list (string * value))
}.

Definition set_json (r : result) (v : value) : result :=
  {| changed := changed r; result_organization := result_organization r;
     result_state := result_state r; json := v;
     result_client := result_client r;
     result_attributes := result_attributes r |}.

Definition set_changed (r : result) : result :=
  {| changed := true; result_organization := result_organization r;
     result_state := result_state r; json := json r;
     result_client := result_client r;
     result_attributes := result_attributes r |}.

(** [if not module.check_mode: try: result['json'] = call_endpoint(...)
    except Exception as e: fail_json(msg)], then [result['changed'] = True]. *)
Definition act (tfe : TFEHelper) (p : params) (r : request)
    (msg : exn -> string) (result0 : result) : M result :=
  result1 <-
    (if negb (check_mode p) then
       try_except (call_endpoint tfe (endpoint_json tfe r))
         (fun e => fail_json (msg e))
         (fun v => ret (set_json result0 v))
     else ret result0) ;;
  ret (set_changed result1).

Definition multiple_matches_msg (client : string) (organization : option string) : string :=
  "Found multiple OAuth Clients with " ++ quoted client ++ " name in "
  ++ quoted (py_str organization) ++ " organization. Refer to OAuth Client by its ID.".

Definition does_not_exist_msg (client : string) (organization : option string) : string :=
  "The supplied " ++ quoted client ++ " OAuth Client does not exist in "
  ++ quoted (py_str organization) ++ " organization.".

(** Lines 271-292: the ID of the existing OAuth client.  A resource is a
    non-empty dict, so [any] of a list of resources tells whether the list
    is non-empty. *)
Definition get_client_id (p : params) (organization : option string)
    (all_oauth_clients : list resource) : M (option string) :=
  match client p with
  | Some client =>
      client_id <-
        match filter (id_is client) all_oauth_clients with
        | _ :: _ =>
            oc <- lift (first_res (filter (id_is client) all_oauth_clients)) ;;
            ret (Some (r_id oc))
        | [] =>
            named <- lift (filter_res (attribute_is "name" (VStr client)) all_oauth_clients) ;;
            let number_of_oauth_clients := List.length named in
            (if (1 <? number_of_oauth_clients)%nat
             then fail_json (multiple_matches_msg client organization)
             else ret tt) ;;;
            if (number_of_oauth_clients =? 1)%nat then
              l <- lift (filter_res (attribute_is "name" (VStr client)) all_oauth_clients) ;;
              oc <- lift (first_res l) ;;
              ret (Some (r_id oc))
            else ret None
        end ;;
      match client_id, state p with
      | None, present => fail_json (does_not_exist_msg client organization)
      | _, _ => ret client_id
      end
  | None =>
      missing <- lift (name_not_in (attributes p)) ;;
      (if missing : bool then fail_json "`name` is required when creating a new OAuth Client"
       else ret tt) ;;;
      found <- lift (any_res (name_is_attributes_name (attributes p)) all_oauth_clients) ;;
      if found : bool then
        l <- lift (filter_res (name_is_attributes_name (attributes p)) all_oauth_clients) ;;
        oc <- lift (first_res l) ;;
        ret (Some (r_id oc))
      else ret None
  end.

(** Lines 294-303: remove the OAuth client. *)
Definition destroy_step (tfe : TFEHelper) (p : params) (organization : option string)
    (client_id : option string) (result0 : result) : M result :=
  match state p, client_id with
  | absent, Some client_id =>
      act tfe p (Req oauth_clients_destroy [("client_id", VStr client_id)])
        (fun e => "Unable to remove " ++ quoted (py_str (client p)) ++ " OAuth Client in "
                  ++ quoted (py_str organization) ++ " organization. Error: "
                  ++ exn_msg e ++ ".")
        result0
  | _, _ => ret result0
  end.

(** Lines 305-329: update the OAuth client, then show it. *)
Definition update_step (tfe : TFEHelper) (p : params) (organization : option string)
    (all_oauth_clients : list resource) (client_id : option string) (result0 : result)
  : M result :=
  match state p, client_id with
  | present, Some client_id =>
      let oc_payload :=
        VDict [("data", VDict [("id", VStr client_id);
                               ("type", VStr "oauth-clients");
                               ("attributes", attributes_value (attributes p))])] in
      oc <- lift (first_res (filter (id_is client_id) all_oauth_clients)) ;;
      let current_attributes := r_attributes oc in
      unchanged <- lift (is_subset (attributes_value (attributes p)) (VDict current_attributes)) ;;
      result1 <-
        (if negb unchanged then
           act tfe p (Req oauth_clients_update [("client_id", VStr client_id);
                                                ("payload", oc_payload)])
             (fun e => "Unable to update " ++ quoted (py_str (client p)) ++ " OAuth Client in "
                       ++ quoted (py_str organization) ++ " organization. Error: "
                       ++ exn_msg e ++ ".")
             result0
         else ret result0) ;;
      shown <- call_endpoint tfe
                 (endpoint_json tfe (Req oauth_clients_show [("client_id", VStr client_id)])) ;;
      ret (set_json result1 shown)
  | _, _ => ret result0
  end.

(** Lines 331-347: create the OAuth client. *)
Definition create_step (tfe : TFEHelper) (p : params) (organization : option string)
    (client_id : option string) (result0 : result) : M result :=
  match state p, client_id with
  | present, None =>
      let create_oc_payload :=
        VDict [("data", VDict [("type", VStr "oauth-clients");
                               ("attributes", attributes_value (attributes p))])] in
      act tfe p (Req oauth_clients_create [("payload", create_oc_payload)])
        (fun e => "Unable to create OAuth Client in " ++ quoted (py_str organization)
                  ++ " organization. Error: " ++ exn_msg e ++ ".")
        result0
  | _, _ => ret result0
  end.

(** Lines 271-349, after the collection of OAuth clients is fetched. *)
Definition reconcile (tfe : TFEHelper) (p : params) (organization : option string)
    (all_oauth_clients : list resource) (result0 : result) : M result :=
  client_id <- get_client_id p organization all_oauth_clients ;;
  result1 <- destroy_step tfe p organization client_id result0 ;;
  result2 <- update_step tfe p organization all_oauth_clients client_id result1 ;;
  create_step tfe p organization client_id result2.

(** [main] from line 242 on: what runs once [AnsibleModule] (lines 234-238)
    has accepted the parameters, that is when [required_if p] holds; the
    statements about what a run of the module ends in assume it.
    [Ret result] is the call of [module.exit_json] on [result]. *)
Definition main (tfe : TFEHelper) (p : params) : M result :=
  organization <- get_org_name_when_exists tfe (organization p) true ;;
  let result0 :=
    {| changed := false; result_organization := organization; result_state := state p;
       json := VDict []; result_client := client p;
       result_attributes := attributes p |} in
  try_except
    (call_endpoint tfe (endpoint_json tfe (Req set_org [("org_name", value_of organization)])))
    (fun e => fail_json ("Unable to set " ++ quoted (py_str organization)
                         ++ " organization to use for org specific endpoints: " ++ exn_msg e))
    (fun _ =>
       try_except
         (call_endpoint tfe (endpoint_list tfe (Req oauth_clients_list [])))
         (fun e => fail_json ("Unable to list OAuth Clients in " ++ quoted (py_str organization)
                              ++ " organization. Error: " ++ exn_msg e ++ "."))
         (fun all_oauth_clients => reconcile tfe p organization all_oauth_clients result0)).

End tfe_vcs_connection.

(** ** Shapes and numbers, for the statements about the comparator *)

(** The rational number [m * 2^e]. *)
Definition dyadic_Q (x : Z * Z) : Q := (inject_Z (fst x) * 2 ^ snd x)%Q.

(** The number a value stands for in a comparison, as [(m, e)] for
    [m * 2^e]: an [int], a [bool] read as 0 or 1, or a float that is neither
    an infinity nor NaN. *)
Definition dyadic_of (v : value) : option (Z * Z) :=
  match v with
  | VBool b => Some (int_of_bool b, 0)
  | VInt z => Some (z, 0)
  | VFloat f => float_num f
  | _ => None
  end.

(** The same number as a rational. *)
Definition as_number (v : value) : option Q := option_map dyadic_Q (dyadic_of v).

(** The float [1.0], and a float NaN. *)
Definition float_one : value := VFloat (S754_finite false 4503599627370496 (-52)).
Definition float_nan : value := VFloat S754_nan.

(** An infinity, with its sign. *)
Definition as_infinity (v : value) : option bool :=
  match v with
  | VFloat (S754_infinity s) => Some s
  | _ => None
  end.

Definition is_nan (v : value) : bool :=
  match v with
  | VFloat S754_nan => true
  | _ => false
  end.

(** Values without a [__contains__] and without [__iter__]. *)
Definition is_atom (v : value) : bool :=
  match v with
  | VNone | VBool _ | VInt _ | VFloat _ => true
  | _ => false
  end.

(** [superset] is a dict wherever [subset] is a dict and a list wherever
    [subset] is a list, at every position the comparator visits. *)
Fixpoint shaped (subset superset : value) {struct subset} : bool :=
  match subset with
  | VDict items =>
      match superset with
      | VDict d =>
          (fix all_items (its : list (string * value)) : bool :=
             match its with
             | [] => true
             | (key, val) :: rest =>
                 match dict_get d key with
                 | Some sup => shaped val sup
                 | None => true
                 end && all_items rest
             end) items
      | _ => false
      end
  | VList subitems =>
      match superset with
      | VList superitems =>
          (fix all_subitems (l : list value) : bool :=
             match l with
             | [] => true
             | subitem :: rest =>
                 forallb (shaped subitem) superitems && all_subitems rest
             end) subitems
      | _ => false
      end
  | _ => true
  end.

(** The events [call_endpoint] leaves behind when each of [n] attempts of
    the request [r] fails: a call and a sleep per attempt. *)
Fixpoint retry_trace (r : request) (seconds : Z) (n : nat) : log :=
  match n with
  | O => []
  | S n' => EvCall r :: EvSleep seconds :: retry_trace r seconds n'
  end.

Definition is_call (ev : event) : bool :=
  match ev with EvCall _ => true | EvSleep _ => false end.

Definition calls (l : log) : log := filter is_call l.

(** ** Notions used in the statements *)

Definition has_comma (s : string) : bool := is_substring "," s.

(** The stripped pieces of the comma separated elements of a list. *)
Definition pieces (l : list string) : list string :=
  flat_map (fun element => map strip (split_comma element)) (filter has_comma l).

(** [adds m P]: whatever the log before, [m] only appends to it, and what it
    appends satisfies [P]. *)
Definition adds {A} (m : M A) (P : log -> Prop) : Prop :=
  forall h, exists a, snd (m h) = (h ++ a)%list /\ P a.

(** An operation that sends the request [r] once, whatever comes back. *)
Definition sends {A} (endpoint : M A) (r : request) : Prop :=
  forall h, snd (endpoint h) = (h ++ [EvCall r])%list.

(** What [call_endpoint] may append for the request [r]: at most [n] calls
    of [r], and sleeps. *)
Definition attempts_of (r : request) (n : nat) (a : log) : Prop :=
  exists k, (k <= n)%nat /\
    forall g, filter (event_endpoint_is g) a
              = if g (req_endpoint r) then repeat (EvCall r) k else [].

(** An operation that sends [r] and raises [err h] when the log is [h]. *)
Definition always_raises {A} (endpoint : M A) (r : request) (err : log -> exn) : Prop :=
  forall h, endpoint h = (Raise (err h), (h ++ [EvCall r])%list).

Definition raised_after (exception : option exn) : exn :=
  match exception with
  | Some e => e
  | None => TypeError "exceptions must derive from BaseException"
  end.

(** An error that tells how many calls were made before. *)
Definition nth_error_exn (h : log) : exn :=
  Exn "TFCHTTPInternalServerError"
      (match List.length (calls h) with
       | O => "first attempt failed"
       | S O => "second attempt failed"
       | S (S O) => "third attempt failed"
       | _ => "a later attempt failed"
       end).

(** A client that fails every call, with the default retry parameters. *)
Definition failing_tfe : TFEHelper :=
  {| retries := 3; sleep := 5;
     api_list := fun h _ => inl (nth_error_exn h);
     api := fun h _ => inl (nth_error_exn h) |}.

(** [silent f m]: [m] calls no endpoint selected by [f]. *)
Definition silent {A} (f : endpoint -> bool) (m : M A) : Prop :=
  adds m (fun a => filter (event_endpoint_is f) a = []).

(** [one_call f n m]: the calls [m] makes to endpoints selected by [f] are
    at most [n] attempts of one and the same request. *)
Definition one_call {A} (f : endpoint -> bool) (n : nat) (m : M A) : Prop :=
  adds m (fun a => exists r k, (k <= n)%nat /\ filter (event_endpoint_is f) a = repeat (EvCall r) k).

(** [bounded f n m]: [m] makes at most [n] calls to endpoints selected by [f]. *)
Definition bounded {A} (f : endpoint -> bool) (n : nat) (m : M A) : Prop :=
  adds m (fun a => (List.length (filter (event_endpoint_is f) a) <= n)%nat).

(** The run of [tfe_workspace.main] reached line 465 with the organization
    [org] and the collection [all_workspaces], the log being [h]. *)
Definition workspaces_fetched (tfe : TFEHelper) (p : tfe_workspace.params)
    (org : option string) (all_workspaces : list resource) (h : log) : Prop :=
  exists v h1 h2,
    get_org_name_when_exists tfe (tfe_workspace.organization p) true [] = (Ret org, h1)
    /\ call_endpoint tfe (endpoint_json tfe (Req set_org [("org_name", value_of org)])) h1
       = (Ret v, h2)
    /\ call_endpoint tfe
         (endpoint_list tfe (Req workspaces_list_all [("include", VNone)])) h2
       = (Ret all_workspaces, h).

(** The [result] dict as [main] seeds it. *)
Definition workspace_result0 (p : tfe_workspace.params) (org : option string)
  : tfe_workspace.result :=
  {| tfe_workspace.changed := false;
     tfe_workspace.result_state := tfe_workspace.state p;
     tfe_workspace.result_organization := org;
     tfe_workspace.json := VDict [];
     tfe_workspace.result_workspace := tfe_workspace.workspace p;
     tfe_workspace.result_attributes := tfe_workspace.attributes p |}.

(** The workspace [alpha] of the organization [foo]. *)
Definition workspace_alpha : resource :=
  Resource "ws-u6asykQpV8EKthKw"
    [("name", VStr "alpha"); ("locked", VBool false); ("description", VStr "old")] [].

(** A client that answers every call: the organization [foo] has one
    workspace, one SSH key and two OAuth clients of the same name. *)
Definition answering_tfe : TFEHelper :=
  {| retries := 3; sleep := 5;
     api_list := fun _ r =>
       match req_endpoint r with
       | orgs_list => inr [Resource "foo" [("external-id", VStr "org-XYZ")] []]
       | workspaces_list_all => inr [workspace_alpha]
       | ssh_keys_list => inr [Resource "sshkey-1" [("name", VStr "deploy")] []]
       | oauth_clients_list =>
           inr [Resource "oc-1" [("name", VStr "github")] [];
                Resource "oc-2" [("name", VStr "github")] []]
       | _ => inr []
       end;
     api := fun _ _ => inr (VDict []) |}.

Definition absent_unknown_workspace : tfe_workspace.params :=
  {| tfe_workspace.organization := "foo";
     tfe_workspace.workspace := Some "no-such-workspace";
     tfe_workspace.state := absent;
     tfe_workspace.locked := None;
     tfe_workspace.lock_reason := None;
     tfe_workspace.ssh_key := None;
     tfe_workspace.attributes := None;
     tfe_workspace.check_mode := false |}.

(** The run of [tfe_vcs_connection.main] reached line 271 with the
    organization [org] and the collection [all_oauth_clients], the log being
    [h]. *)
Definition oauth_clients_fetched (tfe : TFEHelper) (p : tfe_vcs_connection.params)
    (org : option string) (all_oauth_clients : list resource) (h : log) : Prop :=
  exists v h1 h2,
    get_org_name_when_exists tfe (tfe_vcs_connection.organization p) true [] = (Ret org, h1)
    /\ call_endpoint tfe (endpoint_json tfe (Req set_org [("org_name", value_of org)])) h1
       = (Ret v, h2)
    /\ call_endpoint tfe (endpoint_list tfe (Req oauth_clients_list [])) h2
       = (Ret all_oauth_clients, h).

Definition vcs_result0 (p : tfe_vcs_connection.params) (org : option string)
  : tfe_vcs_connection.result :=
  {| tfe_vcs_connection.changed := false;
     tfe_vcs_connection.result_organization := org;
     tfe_vcs_connection.result_state := tfe_vcs_connection.state p;
     tfe_vcs_connection.json := VDict [];
     tfe_vcs_connection.result_client := tfe_vcs_connection.client p;
     tfe_vcs_connection.result_attributes := tfe_vcs_connection.attributes p |}.

Definition github_twice : tfe_vcs_connection.params :=
  {| tfe_vcs_connection.organization := "foo";
     tfe_vcs_connection.state := absent;
     tfe_vcs_connection.client := Some "github";
     tfe_vcs_connection.attributes := None;
     tfe_vcs_connection.check_mode := false |}.

Definition update_lock_and_key : tfe_workspace.params :=
  {| tfe_workspace.organization := "foo";
     tfe_workspace.workspace := Some "alpha";
     tfe_workspace.state := present;
     tfe_workspace.locked := Some true;
     tfe_workspace.lock_reason := Some "maintenance";
     tfe_workspace.ssh_key := Some "deploy";
     tfe_workspace.attributes := Some [("description", VStr "new")];
     tfe_workspace.check_mode := false |}.

(** The client answers a request the same way whatever happened before:
    the two runs that are compared observe the same remote state. *)
Definition history_independent (tfe : TFEHelper) : Prop :=
  (forall h h' r, api tfe h r = api tfe h' r)
  /\ (forall h h' r, api_list tfe h r = api_list tfe h' r).

(** [steady m]: the outcome of [m] does not depend on the log, and [m] makes
    no mutating call. *)
Definition steady {A} (m : M A) : Prop :=
  (forall h h', fst (m h) = fst (m h')) /\ silent is_mutating m.

(** [mirrors changed c0 mc mr]: [mc] is a piece of the check-mode run and
    [mr] the same piece of the real run.  If [mc] returns a result, that
    result says [changed] as soon as [mr] made a mutating call, or [c0]
    (a change was noticed before). *)
Definition mirrors {R} (changed : R -> bool) (c0 : bool) (mc mr : M R) : Prop :=
  forall hc hr,
  exists a, snd (mr hr) = (hr ++ a)%list
            /\ forall rc hc', mc hc = (Ret rc, hc') ->
                              c0 = true \/ mutating_calls a <> [] -> changed rc = true.

(** The same invocation without check mode. *)
Definition workspace_real_run (p : tfe_workspace.params) : tfe_workspace.params :=
  {| tfe_workspace.organization := tfe_workspace.organization p;
     tfe_workspace.workspace := tfe_workspace.workspace p;
     tfe_workspace.state := tfe_workspace.state p;
     tfe_workspace.locked := tfe_workspace.locked p;
     tfe_workspace.lock_reason := tfe_workspace.lock_reason p;
     tfe_workspace.ssh_key := tfe_workspace.ssh_key p;
     tfe_workspace.attributes := tfe_workspace.attributes p;
     tfe_workspace.check_mode := false |}.

Definition vcs_real_run (p : tfe_vcs_connection.params) : tfe_vcs_connection.params :=
  {| tfe_vcs_connection.organization := tfe_vcs_connection.organization p;
     tfe_vcs_connection.state := tfe_vcs_connection.state p;
     tfe_vcs_connection.client := tfe_vcs_connection.client p;
     tfe_vcs_connection.attributes := tfe_vcs_connection.attributes p;
     tfe_vcs_connection.check_mode := false |}.

Definition check_update_lock_and_key : tfe_workspace.params :=
  {| tfe_workspace.organization := "foo";
     tfe_workspace.workspace := Some "alpha";
     tfe_workspace.state := present;
     tfe_workspace.locked := Some true;
     tfe_workspace.lock_reason := Some "maintenance";
     tfe_workspace.ssh_key := Some "deploy";
     tfe_workspace.attributes := Some [("description", VStr "new")];
     tfe_workspace.check_mode := true |}.

Definition check_remove_client : tfe_vcs_connection.params :=
  {| tfe_vcs_connection.organization := "foo";
     tfe_vcs_connection.state := absent;
     tfe_vcs_connection.client := Some "oc-1";
     tfe_vcs_connection.attributes := None;
     tfe_vcs_connection.check_mode := true |}.

(** [quiet m]: [m] leaves the log as it is. *)
Definition quiet {A} (m : M A) : Prop := forall h, snd (m h) = h.

(** The guards under which the update block of [tfe_workspace.main] sets
    [result['changed']] for the workspace [w] (tfe_workspace.py, lines 508,
    523 and 537, 569 and 588): the requested attributes are not a subset of
    the current ones; [locked] is asked for and differs from the current
    lock; the SSH key asked for, looked up in the keys listed when the log
    is [h], is not the one assigned. *)
Definition attributes_differ (p : tfe_workspace.params) (w : resource) : Prop :=
  exists attrs,
    tfe_workspace.attributes p = Some attrs
    /\ is_subset (VDict attrs) (VDict (r_attributes w)) = inr false.

Definition lock_differs (p : tfe_workspace.params) (w : resource) : Prop :=
  exists locked currently_locked,
    tfe_workspace.locked p = Some locked
    /\ dict_get (r_attributes w) "locked" = Some currently_locked
    /\ py_truthy currently_locked = negb locked.

Definition ssh_key_differs (tfe : TFEHelper) (p : tfe_workspace.params)
    (org : option string) (w : resource) (h : log) : Prop :=
  exists ssh_key all_ssh_keys h' ssh_key_id currently_assigned_ssh_key,
    tfe_workspace.ssh_key p = Some ssh_key
    /\ call_endpoint tfe (endpoint_list tfe (Req ssh_keys_list [])) h = (Ret all_ssh_keys, h')
    /\ tfe_workspace.get_ssh_key_id ssh_key org all_ssh_keys h' = (Ret ssh_key_id, h')
    /\ tfe_workspace.currently_assigned w = inr currently_assigned_ssh_key
    /\ match ssh_key_id with
       | Some k =>
           tfe_workspace.is_none currently_assigned_ssh_key
           || negb (py_eq currently_assigned_ssh_key (VStr k))
       | None => negb (tfe_workspace.is_none currently_assigned_ssh_key)
       end = true.

(** A run of [tfe_workspace.main] that resolved [workspace_id] with the log
    at [h] detects a change: there is a workspace to destroy (line 485), none
    and one to create (line 608), or one to update under one of the guards
    above. *)
Definition workspace_change_detected (tfe : TFEHelper) (p : tfe_workspace.params)
    (org : option string) (all_workspaces : list resource) (h : log)
    (workspace_id : option string) : Prop :=
  match tfe_workspace.state p, workspace_id with
  | absent, Some _ => True
  | absent, None => False
  | present, None => True
  | present, Some workspace_id =>
      exists w,
        tfe_workspace.workspace_with_id all_workspaces workspace_id = inr w
        /\ (attributes_differ p w \/ lock_differs p w \/ ssh_key_differs tfe p org w h)
  end.

(** The same for [tfe_vcs_connection.main] (lines 295, 318 and 332). *)
Definition vcs_change_detected (p : tfe_vcs_connection.params)
    (all_oauth_clients : list resource) (client_id : option string) : Prop :=
  match tfe_vcs_connection.state p, client_id with
  | absent, Some _ => True
  | absent, None => False
  | present, None => True
  | present, Some client_id =>
      exists oc,
        first_res (filter (id_is client_id) all_oauth_clients) = inr oc
        /\ is_subset (attributes_value (tfe_vcs_connection.attributes p))
                     (VDict (r_attributes oc)) = inr false
  end.

(** ** The run information module: removing duplicates *)

(** [d[k] = v] on a dict in insertion order: a known key keeps its place and
    takes the new value, a new key goes to the end. *)
Fixpoint assoc_set {V : Type} (d : list (string * V)) (k : string) (v : V)
  : list (string * V) :=
  match d with
  | [] => [(k, v)]
  | (k', v') :: d' =>
      if String.eqb k' k then (k', v) :: d' else (k', v') :: assoc_set d' k v
  end.

(** [{v['id']: v for v in items}] *)
Definition by_id (items : list resource) : list (string * resource) :=
  fold_left (fun d v => assoc_set d (r_id v) v) items [].

(** [list({v['id']: v for v in items}.values())], the last step of
    [tfe_run_info.main] (tfe_run_info.py, lines 435-440) on [data] and on
    [included]. *)
Definition remove_duplicates (items : list resource) : list resource :=
  map snd (by_id items).

(** The dict under construction: distinct keys, each the [id] of its value. *)
Definition keyed_by_id (d : list (string * resource)) : Prop :=
  NoDup (map fst d) /\ Forall (fun kv => r_id (snd kv) = fst kv) d.

(** ** More notions used in the statements *)

(** The keys of an association list are pairwise distinct, as those of a
    Python dict are. *)
Fixpoint distinct_keys {V : Type} (d : list (string * V)) : bool :=
  match d with
  | [] => true
  | (k, _) :: rest =>
      negb (existsb (fun kv => String.eqb (fst kv) k) rest) && distinct_keys rest
  end.

(** Values whose lists hold scalars only and whose dicts have distinct keys,
    at every depth, and that hold no NaN. *)
Fixpoint plain (v : value) : bool :=
  match v with
  | VList l => forallb (fun x => is_scalar x && negb (is_nan x)) l
  | VDict d =>
      distinct_keys d
      && (fix all_plain (its : list (string * value)) : bool :=
            match its with
            | [] => true
            | (_, x) :: rest => plain x && all_plain rest
            end) d
  | _ => negb (is_nan v)
  end.

(** Every resource of a collection carries the attribute [key]. *)
Definition all_have (key : string) (collection : list resource) : Prop :=
  Forall (fun o => dict_has (r_attributes o) key = true) collection.

(** [o['attributes'][key] == v], where the attribute is known to be there. *)
Definition attribute_eqb (key : string) (v : value) (o : resource) : bool :=
  match dict_get (r_attributes o) key with
  | Some x => py_eq x v
  | None => false
  end.

(** [returns m P]: every result [m] returns satisfies [P]. *)
Definition returns {A} (m : M A) (P : A -> Prop) : Prop :=
  forall h x h', m h = (Ret x, h') -> P x.

(** [tracks changed c0 m]: a result [m] returns says [changed] exactly when
    [m] made a mutating call, or [c0] (a change was made before). *)
Definition tracks {R} (changed : R -> bool) (c0 : bool) (m : M R) : Prop :=
  forall h,
  exists a, snd (m h) = (h ++ a)%list
            /\ forall r h', m h = (Ret r, h') ->
                            (changed r = true <-> c0 = true \/ mutating_calls a <> []).

(** A client that fails the first call and answers the later ones. *)
Definition flaky_tfe : TFEHelper :=
  {| retries := 3; sleep := 5;
     api_list := fun h _ =>
       match calls h with
       | [] => inl (Exn "TFCHTTPInternalServerError" "try again")
       | _ => inr []
       end;
     api := fun h _ =>
       match calls h with
       | [] => inl (Exn "TFCHTTPInternalServerError" "try again")
       | _ => inr (VDict [("data", VStr "ok")])
       end |}.

(** The failing client with [retries=0], and with a negative [sleep]. *)
Definition no_attempt_tfe : TFEHelper :=
  {| retries := 0; sleep := 5; api_list := api_list failing_tfe; api := api failing_tfe |}.

Definition negative_sleep_tfe : TFEHelper :=
  {| retries := 3; sleep := -1; api_list := api_list failing_tfe; api := api failing_tfe |}.

(** Invocations of the workspace module against the answering client: one
    that asks for what is there, one that creates a workspace, one that
    names no workspace and gives no attributes. *)
Definition keep_alpha : tfe_workspace.params :=
  {| tfe_workspace.organization := "foo";
     tfe_workspace.workspace := Some "alpha";
     tfe_workspace.state := present;
     tfe_workspace.locked := None;
     tfe_workspace.lock_reason := None;
     tfe_workspace.ssh_key := None;
     tfe_workspace.attributes := Some [("description", VStr "old")];
     tfe_workspace.check_mode := false |}.

Definition create_beta : tfe_workspace.params :=
  {| tfe_workspace.organization := "foo";
     tfe_workspace.workspace := None;
     tfe_workspace.state := present;
     tfe_workspace.locked := None;
     tfe_workspace.lock_reason := None;
     tfe_workspace.ssh_key := None;
     tfe_workspace.attributes := Some [("name", VStr "beta")];
     tfe_workspace.check_mode := false |}.

Definition lock_nothing : tfe_workspace.params :=
  {| tfe_workspace.organization := "foo";
     tfe_workspace.workspace := None;
     tfe_workspace.state := present;
     tfe_workspace.locked := Some false;
     tfe_workspace.lock_reason := None;
     tfe_workspace.ssh_key := None;
     tfe_workspace.attributes := None;
     tfe_workspace.check_mode := false |}.

(** An invocation of the VCS connection module for a client that is not
    there, and one for a client that is. *)
Definition remove_unknown_client : tfe_vcs_connection.params :=
  {| tfe_vcs_connection.organization := "foo";
     tfe_vcs_connection.state := absent;
     tfe_vcs_connection.client := Some "bitbucket";
     tfe_vcs_connection.attributes := None;
     tfe_vcs_connection.check_mode := false |}.

Definition keep_client : tfe_vcs_connection.params :=
  {| tfe_vcs_connection.organization := "foo";
     tfe_vcs_connection.state := present;
     tfe_vcs_connection.client := Some "oc-1";
     tfe_vcs_connection.attributes := Some [("name", VStr "github")];
     tfe_vcs_connection.check_mode := false |}.

(** The answering client, except that the calls of the endpoints [bad]
    selects fail. *)
Definition failing_on (bad : endpoint -> bool) : TFEHelper :=
  {| retries := 3; sleep := 5;
     api_list := api_list answering_tfe;
     api := fun h r =>
       if bad (req_endpoint r) then inl (nth_error_exn h) else api answering_tfe h r |}.

(** The answering client with a negative [sleep], whose mutating calls
    fail; and the removal of the workspace [alpha], named by its ID. *)
Definition impatient_tfe : TFEHelper :=
  {| retries := 3; sleep := -1;
     api_list := api_list answering_tfe; api := api (failing_on is_mutating) |}.

Definition remove_alpha_by_id : tfe_workspace.params :=
  {| tfe_workspace.organization := "foo";
     tfe_workspace.workspace := Some "ws-u6asykQpV8EKthKw";
     tfe_workspace.state := absent;
     tfe_workspace.locked := None;
     tfe_workspace.lock_reason := None;
     tfe_workspace.ssh_key := None;
     tfe_workspace.attributes := None;
     tfe_workspace.check_mode := false |}.

(** The removal of the workspace [alpha] in check mode. *)
Definition check_remove_alpha : tfe_workspace.params :=
  {| tfe_workspace.organization := "foo";
     tfe_workspace.workspace := Some "alpha";
     tfe_workspace.state := absent;
     tfe_workspace.locked := None;
     tfe_workspace.lock_reason := None;
     tfe_workspace.ssh_key := None;
     tfe_workspace.attributes := None;
     tfe_workspace.check_mode := true |}.

(** * Properties *)

(** ** Induction over nested values *)

Section ValueInd.
Variable P : value -> Prop.
Hypothesis HNone : P VNone.
Hypothesis HBool : forall b, P (VBool b).
Hypothesis HInt : forall z, P (VInt z).
Hypothesis HFloat : forall f, P (VFloat f).
Hypothesis HStr : forall s, P (VStr s).
Hypothesis HList : forall l, Forall P l -> P (VList l).
Hypothesis HDict : forall d, Forall (fun kv => P (snd kv)) d -> P (VDict d).

Lemma value_ind (v : value) : P v.
Proof.
  revert v. fix IH 1. intros [| b | z | f | s | l | d].
  - exact HNone.
  - apply HBool.
  - apply HInt.
  - apply HFloat.
  - apply HStr.
  - apply HList. induction l as [|x l IHl]; constructor; [apply IH | exact IHl].
  - apply HDict. induction d as [|kv d IHd]; constructor; [apply IH | exact IHd].
Qed.
End ValueInd.

(** ** The comparator on scalars *)

Lemma is_subset_scalar (a b : value) :
  is_scalar a = true -> is_subset a b = inr (py_eq a b).
Proof. destruct a; simpl; intros H; try reflexivity; discriminate. Qed.

Lemma two_not_0 : ~ Qeq 2 0.
Proof. intros H. discriminate H. Qed.

Lemma dyadic_Q_scaled (a e k : Z) :
  k <= e -> Qeq (dyadic_Q (a, e)) (inject_Z (a * 2 ^ (e - k)) * 2 ^ k)%Q.
Proof.
  intros Hk. unfold dyadic_Q. simpl fst. simpl snd.
  rewrite inject_Z_mult, Zpower_Qpower by lia.
  replace e with ((e - k) + k) at 1 by lia.
  rewrite Qpower_plus by exact two_not_0.
  change (inject_Z 2) with 2%Q. ring.
Qed.

(** The comparison of two scaled integers is the equality of the rationals
    they denote. *)
Lemma dyadic_eqb_Qeq (x y : Z * Z) :
  dyadic_eqb x y = true <-> Qeq (dyadic_Q x) (dyadic_Q y).
Proof.
  destruct x as [a e], y as [b d]. unfold dyadic_eqb. simpl fst. simpl snd.
  set (k := Z.min e d).
  rewrite (@dyadic_Q_scaled a e k), (@dyadic_Q_scaled b d k) by (unfold k; lia).
  rewrite Qmult_inj_r by (apply Qpower_not_0, two_not_0).
  rewrite inject_Z_injective. apply Z.eqb_eq.
Qed.

Lemma dyadic_eqb_int (a b : Z) : dyadic_eqb (a, 0) (b, 0) = (a =? b).
Proof. unfold dyadic_eqb. simpl. rewrite !Z.mul_1_r. reflexivity. Qed.

Lemma dyadic_eqb_sym (x y : Z * Z) : dyadic_eqb x y = dyadic_eqb y x.
Proof. unfold dyadic_eqb. rewrite Z.min_comm. apply Z.eqb_sym. Qed.

(** On numbers, [==] compares what they denote. *)
Lemma py_eq_numbers (a b : value) (x y : Z * Z) :
  dyadic_of a = Some x -> dyadic_of b = Some y -> py_eq a b = dyadic_eqb x y.
Proof.
  intros Ha Hb.
  destruct a as [| p | m | f | | |], b as [| q | n | g | | |];
    simpl in Ha, Hb; try discriminate; simpl.
  - injection Ha as <-. injection Hb as <-. rewrite dyadic_eqb_int.
    destruct p, q; reflexivity.
  - injection Ha as <-. injection Hb as <-. rewrite dyadic_eqb_int. reflexivity.
  - injection Ha as <-. unfold float_eq_int. rewrite Hb. apply dyadic_eqb_sym.
  - injection Ha as <-. injection Hb as <-. rewrite dyadic_eqb_int. reflexivity.
  - injection Ha as <-. injection Hb as <-. rewrite dyadic_eqb_int. reflexivity.
  - injection Ha as <-. unfold float_eq_int. rewrite Hb. apply dyadic_eqb_sym.
  - injection Hb as <-. unfold float_eq_int. rewrite Ha. reflexivity.
  - injection Hb as <-. unfold float_eq_int. rewrite Ha. reflexivity.
  - unfold float_eqb. rewrite Ha, Hb.
    destruct f; try discriminate Ha; destruct g; try discriminate Hb; reflexivity.
Qed.

Lemma dyadic_of_infinity (a : value) (s : bool) :
  as_infinity a = Some s -> dyadic_of a = None.
Proof.
  destruct a as [| | | f | | |]; try discriminate. destruct f; try discriminate. reflexivity.
Qed.

Lemma py_eq_scalar_iff (a b : value) :
  is_scalar a = true -> is_scalar b = true ->
  (py_eq a b = true <->
   (a = VNone /\ b = VNone)
   \/ (exists s, a = VStr s /\ b = VStr s)
   \/ (exists x y, as_number a = Some x /\ as_number b = Some y /\ Qeq x y)
   \/ (exists s, as_infinity a = Some s /\ as_infinity b = Some s)).
Proof.
  intros Ha Hb. unfold as_number.
  destruct (dyadic_of a) as [x|] eqn:Ea; [destruct (dyadic_of b) as [y|] eqn:Eb|].
  - rewrite (py_eq_numbers a b Ea Eb), dyadic_eqb_Qeq. split.
    + intros H. right; right; left. exists (dyadic_Q x), (dyadic_Q y). auto.
    + intros [[-> _] | [[s [-> _]] | [[x' [y' [H1 [H2 H]]]] | [s [H1 _]]]]];
        try discriminate Ea.
      * injection H1 as <-. injection H2 as <-. exact H.
      * rewrite (dyadic_of_infinity a H1) in Ea. discriminate Ea.
  - split.
    + intros H. exfalso.
      destruct a as [| p | m | f | | |], b as [| q | n | g | | |];
        simpl in Ea, Eb, H; try discriminate;
        unfold float_eq_int in H; try rewrite Eb in H; try discriminate H.
      unfold float_eqb in H. rewrite Ea, Eb in H.
      destruct f; try discriminate Ea; destruct g; discriminate.
    + intros [[-> _] | [[s [-> _]] | [[x' [y' [_ [H2 _]]]] | [s [H1 _]]]]];
        try discriminate Ea; try discriminate H2.
      rewrite (dyadic_of_infinity a H1) in Ea. discriminate Ea.
  - split.
    + intros H.
      destruct a as [| p | m | f | sa | |]; simpl in Ea, Ha; try discriminate.
      * destruct b; try discriminate H. left. auto.
      * destruct b as [| q | n | g | | |]; simpl in H, Hb;
          unfold float_eq_int in H; try rewrite Ea in H; try discriminate H.
        unfold float_eqb in H. rewrite Ea in H.
        destruct f; try discriminate Ea; try discriminate H.
        destruct g; try discriminate H.
        apply Bool.eqb_prop in H. subst. right; right; right. exists s0. auto.
      * destruct b; try discriminate H. apply String.eqb_eq in H. subst.
        right; left. exists s. auto.
    + intros [[-> ->] | [[s [-> ->]] | [[x' [y' [H1 _]]] | [s [H1 H2]]]]].
      * reflexivity.
      * simpl. apply String.eqb_refl.
      * discriminate H1.
      * destruct a as [| | | f | | |]; try discriminate H1.
        destruct f; try discriminate H1.
        destruct b as [| | | g | | |]; try discriminate H2.
        destruct g; try discriminate H2.
        simpl in H1, H2. injection H1 as <-. injection H2 as <-.
        simpl. apply Bool.eqb_reflx.
Qed.

(** C3, as stated, fails: a boolean desired value is satisfied by an integer
    observed value of the same magnitude, because Python's [True == 1]. *)
Lemma bool_satisfied_by_equal_int :
  is_subset (VDict [("x", VBool true)]) (VDict [("x", VInt 1)]) = inr true
  /\ is_subset (VBool true) (VInt 1) = inr true
  /\ strict_eq (VBool true) (VInt 1) = false
  /\ VBool true <> VInt 1.
Proof. repeat split; try reflexivity. discriminate. Qed.

(** C3 (amended): on a pair of scalars ([None], a boolean, an integer, a
    float or a string) [is_subset] is Python's [==]: it returns true iff
    both are [None], or both are the same string, or both are numbers (a
    boolean, an integer or a finite float, in any combination) that denote
    the same number, or both are the same infinity.  NaN equals nothing;
    strings and [None] are never coerced, and
    [is_subset({"x": 1}, {"x": "1"})] is false. *)
Theorem is_subset_scalar_is_python_eq :
  forall a b : value,
    is_scalar a = true -> is_scalar b = true ->
    is_subset a b = inr (py_eq a b)
    /\ (is_subset a b = inr true <->
        (a = VNone /\ b = VNone)
        \/ (exists s, a = VStr s /\ b = VStr s)
        \/ (exists x y, as_number a = Some x /\ as_number b = Some y /\ Qeq x y)
        \/ (exists s, as_infinity a = Some s /\ as_infinity b = Some s))
    /\ is_subset (VDict [("x", VInt 1)]) (VDict [("x", VStr "1")]) = inr false
    /\ is_subset (VStr "true") (VBool true) = inr false
    /\ is_subset (VDict [("x", float_one)]) (VDict [("x", VInt 1)]) = inr true
    /\ is_subset float_nan float_nan = inr false.
Proof.
  intros a b Ha Hb. split; [|split; [|repeat split; reflexivity]].
  - apply is_subset_scalar; assumption.
  - rewrite is_subset_scalar by assumption.
    rewrite <- py_eq_scalar_iff by assumption.
    split; intros H; [inversion H; reflexivity | rewrite H; reflexivity].
Qed.

Lemma is_subset_scalar_is_python_eq_witness :
  is_subset float_one (VBool true) = inr (py_eq float_one (VBool true))
  /\ (is_subset float_one (VBool true) = inr true <->
      (float_one = VNone /\ VBool true = VNone)
      \/ (exists s, float_one = VStr s /\ VBool true = VStr s)
      \/ (exists x y, as_number float_one = Some x /\ as_number (VBool true) = Some y
                      /\ Qeq x y)
      \/ (exists s, as_infinity float_one = Some s /\ as_infinity (VBool true) = Some s))
  /\ is_subset (VDict [("x", VInt 1)]) (VDict [("x", VStr "1")]) = inr false
  /\ is_subset (VStr "true") (VBool true) = inr false
  /\ is_subset (VDict [("x", float_one)]) (VDict [("x", VInt 1)]) = inr true
  /\ is_subset float_nan float_nan = inr false.
Proof.
  apply (@is_subset_scalar_is_python_eq float_one (VBool true)); reflexivity.
Defined.

(** ** The comparator is partial *)

Lemma is_subset_dict_cons (key : string) (val : value) (rest : list (string * value))
    (superset : value) :
  is_subset (VDict ((key, val) :: rest)) superset =
  match py_contains superset key with
  | inl e => inl e
  | inr false => inr false
  | inr true =>
      match py_getitem superset key with
      | inl e => inl e
      | inr sup =>
          match is_subset val sup with
          | inl e => inl e
          | inr false => inr false
          | inr true => is_subset (VDict rest) superset
          end
      end
  end.
Proof. reflexivity. Qed.

Lemma is_subset_list_cons (subitem : value) (rest : list value) (superset : value) :
  is_subset (VList (subitem :: rest)) superset =
  match py_iter superset with
  | inl e => inl e
  | inr superitems =>
      match any_res (is_subset subitem) superitems with
      | inl e => inl e
      | inr false => inr false
      | inr true => is_subset (VList rest) superset
      end
  end.
Proof. reflexivity. Qed.

Lemma shaped_dict_cons (key : string) (val : value) (rest : list (string * value))
    (d : list (string * value)) :
  shaped (VDict ((key, val) :: rest)) (VDict d) =
  match dict_get d key with
  | Some sup => shaped val sup
  | None => true
  end && shaped (VDict rest) (VDict d).
Proof. reflexivity. Qed.

Lemma shaped_list_cons (subitem : value) (rest superitems : list value) :
  shaped (VList (subitem :: rest)) (VList superitems) =
  forallb (shaped subitem) superitems && shaped (VList rest) (VList superitems).
Proof. reflexivity. Qed.

Lemma is_subset_dict_atom (key : string) (val : value) (rest : list (string * value))
    (superset : value) :
  is_atom superset = true ->
  is_subset (VDict ((key, val) :: rest)) superset =
  inl (TypeError ("argument of type '" ++ type_name superset ++ "' is not iterable")).
Proof.
  intros H. rewrite is_subset_dict_cons.
  destruct superset; simpl in *; try discriminate; reflexivity.
Qed.

Lemma is_subset_list_atom (subitem : value) (rest : list value) (superset : value) :
  is_atom superset = true ->
  is_subset (VList (subitem :: rest)) superset =
  inl (TypeError ("'" ++ type_name superset ++ "' object is not iterable")).
Proof.
  intros H. rewrite is_subset_list_cons.
  destruct superset; simpl in *; try discriminate; reflexivity.
Qed.

Lemma any_res_total {A} (cond : A -> res bool) (l : list A) :
  Forall (fun x => exists b, cond x = inr b) l ->
  exists b, any_res cond l = inr b.
Proof.
  induction 1 as [|x l [b Hb] _ IH]; simpl.
  - exists false; reflexivity.
  - rewrite Hb. destruct b; [exists true; reflexivity | exact IH].
Qed.

Lemma is_subset_shaped_total (subset : value) :
  forall superset, shaped subset superset = true ->
                   exists b, is_subset subset superset = inr b.
Proof.
  induction subset as [| b | z | f | s | l IH | d IH] using value_ind; intros superset Hs;
    try (eexists; reflexivity).
  - destruct superset as [| | | | | superitems |]; try discriminate.
    induction IH as [|subitem rest Hsub _ IHrest].
    + exists true; reflexivity.
    + rewrite shaped_list_cons in Hs. apply andb_true_iff in Hs as [H1 H2].
      rewrite is_subset_list_cons. simpl py_iter.
      destruct (@any_res_total _ (is_subset subitem) superitems) as [b Hb].
      { rewrite forallb_forall in H1. apply Forall_forall.
        intros x Hx. apply Hsub, H1, Hx. }
      rewrite Hb. destruct b; [apply IHrest, H2 | exists false; reflexivity].
  - destruct superset as [| | | | | | d']; try discriminate.
    induction IH as [|[key val] rest Hval _ IHrest].
    + exists true; reflexivity.
    + rewrite shaped_dict_cons in Hs. apply andb_true_iff in Hs as [H1 H2].
      rewrite is_subset_dict_cons. simpl py_contains. simpl py_getitem.
      unfold dict_has. simpl in Hval.
      destruct (dict_get d' key) as [sup|]; [|exists false; reflexivity].
      destruct (Hval sup H1) as [b Hb]. rewrite Hb.
      destruct b; [apply IHrest, H2 | exists false; reflexivity].
Qed.

(** C10: [is_subset] is partial.  A non-empty mapping or sequence proposed
    against an observed [None], boolean or integer raises a [TypeError]
    (so do [is_subset({"a": 1}, 5)] and [is_subset([1], 5)]) instead of
    returning false; a boolean is guaranteed when the observed value is a
    mapping wherever the proposed one is and a sequence wherever the
    proposed one is. *)
Theorem is_subset_partial :
  is_subset (VDict [("a", VInt 1)]) (VInt 5)
  = inl (TypeError "argument of type 'int' is not iterable")
  /\ is_subset (VList [VInt 1]) (VInt 5)
     = inl (TypeError "'int' object is not iterable")
  /\ (forall key val rest superset,
        is_atom superset = true ->
        exists e, is_subset (VDict ((key, val) :: rest)) superset = inl e
                  /\ exn_class e = "TypeError")
  /\ (forall subitem rest superset,
        is_atom superset = true ->
        exists e, is_subset (VList (subitem :: rest)) superset = inl e
                  /\ exn_class e = "TypeError")
  /\ (forall subset superset,
        shaped subset superset = true ->
        exists b, is_subset subset superset = inr b).
Proof.
  split; [reflexivity|]. split; [reflexivity|]. split; [|split].
  - intros key val rest superset H. eexists. split.
    + apply is_subset_dict_atom, H.
    + reflexivity.
  - intros subitem rest superset H. eexists. split.
    + apply is_subset_list_atom, H.
    + reflexivity.
  - intros subset superset. apply is_subset_shaped_total.
Qed.

Lemma is_subset_partial_witness :
  (exists e, is_subset (VDict [("a", VInt 1); ("b", VNone)]) (VBool true) = inl e
             /\ exn_class e = "TypeError")
  /\ (exists e, is_subset (VList [VStr "x"]) VNone = inl e /\ exn_class e = "TypeError")
  /\ (exists b, is_subset (VDict [("a", VList [VInt 1])])
                          (VDict [("a", VList [VInt 2; VInt 1])]) = inr b).
Proof.
  destruct is_subset_partial as [_ [_ [Hd [Hl Hs]]]].
  split; [|split].
  - apply Hd. reflexivity.
  - apply Hl. reflexivity.
  - apply Hs. reflexivity.
Defined.

(** ** The list normalizer *)

Lemma collect_comma_sep_spec (some_list new_list remove_list : list string) :
  collect_comma_sep some_list new_list remove_list =
  ((new_list ++ pieces some_list)%list, (remove_list ++ filter has_comma some_list)%list).
Proof.
  revert new_list remove_list.
  induction some_list as [|element rest IH]; intros new_list remove_list.
  - unfold pieces. simpl. rewrite !app_nil_r. reflexivity.
  - simpl. unfold pieces, has_comma in *.
    destruct (is_substring "," element) eqn:E; rewrite IH; simpl.
    + rewrite E. simpl. rewrite <- !app_assoc. reflexivity.
    + rewrite E. reflexivity.
Qed.

Lemma list_remove_first (x : string) (before after : list string) :
  (forall y, In y before -> y <> x) ->
  list_remove x (before ++ x :: after) = inr (before ++ after)%list.
Proof.
  induction before as [|y before IH]; intros H; simpl.
  - rewrite String.eqb_refl. reflexivity.
  - destruct (String.eqb y x) eqn:E.
    + apply String.eqb_eq in E. exfalso. apply (H y); [left; reflexivity | exact E].
    + rewrite IH; [reflexivity|]. intros z Hz. apply H. right. exact Hz.
Qed.

Lemma remove_each_spec (some_list kept : list string) :
  (forall y, In y kept -> has_comma y = false) ->
  remove_each (filter has_comma some_list) (kept ++ some_list) =
  inr (kept ++ filter (fun s => negb (has_comma s)) some_list)%list.
Proof.
  revert kept. induction some_list as [|element rest IH]; intros kept Hkept.
  - reflexivity.
  - simpl. destruct (has_comma element) eqn:E; simpl.
    + rewrite list_remove_first.
      * apply IH, Hkept.
      * intros y Hy Heq. subst y. rewrite (Hkept _ Hy) in E. discriminate.
    + replace (kept ++ element :: rest)%list with ((kept ++ [element]) ++ rest)%list
        by (rewrite <- app_assoc; reflexivity).
      rewrite IH.
      * rewrite <- app_assoc. reflexivity.
      * intros y Hy. apply in_app_or in Hy as [Hy | [Hy | []]].
        -- apply Hkept, Hy.
        -- subst y. exact E.
Qed.

(** The normalizer never raises: it keeps the elements without a comma, in
    order, and appends the pieces of the others. *)
Lemma listify_spec (some_list : list string) :
  listify_comma_sep_strings_in_list some_list =
  inr (let merged := (filter (fun s => negb (has_comma s)) some_list ++ pieces some_list)%list in
       if list_eq_dec string_dec merged [EmptyString] then [] else merged).
Proof.
  unfold listify_comma_sep_strings_in_list.
  rewrite collect_comma_sep_spec. simpl.
  assert (H : forall y : string, In y [] -> has_comma y = false) by (intros y []).
  apply (remove_each_spec some_list) in H. simpl in H. rewrite H.
  destruct (list_eq_dec string_dec _ _); reflexivity.
Qed.

Lemma in_pieces (x : string) (l : list string) :
  In x (pieces l) -> exists element, In element l /\ In x (map strip (split_comma element)).
Proof.
  unfold pieces. intros H. apply in_flat_map in H as [element [H1 H2]].
  apply filter_In in H1 as [H1 _]. exists element. split; assumption.
Qed.

(** C8: the normalizer maps [[""]] to [[]]; it always returns, and every
    element of its result is an element of its input or a stripped piece of
    one, so it never adds the wildcard; [tfe_run_info.main] is what replaces
    an empty result by [["*"]]. *)
Theorem normalizer_leaves_wildcard_to_caller :
  listify_comma_sep_strings_in_list [""] = inr []
  /\ listify_comma_sep_strings_in_list [] = inr []
  /\ (forall some_list,
        exists normalized,
          listify_comma_sep_strings_in_list some_list = inr normalized
          /\ forall x, In x normalized ->
                       In x some_list
                       \/ exists element,
                            In element some_list /\ In x (map strip (split_comma element)))
  /\ (forall run,
        listify_comma_sep_strings_in_list (map strip run) = inr [] ->
        tfe_run_info_runs run = inr ["*"])
  /\ tfe_run_info_runs [""] = inr ["*"].
Proof.
  split; [reflexivity|]. split; [reflexivity|]. split; [|split; [|reflexivity]].
  - intros some_list. rewrite listify_spec. eexists. split; [reflexivity|].
    cbv zeta. intros x Hx.
    destruct (list_eq_dec string_dec _ _); [destruct Hx|].
    apply in_app_or in Hx as [Hx | Hx].
    + left. apply filter_In in Hx as [Hx _]. exact Hx.
    + right. apply in_pieces, Hx.
  - intros run H. unfold tfe_run_info_runs. rewrite H. reflexivity.
Qed.

Lemma normalizer_leaves_wildcard_to_caller_witness :
  tfe_run_info_runs [" "] = inr ["*"].
Proof.
  destruct normalizer_leaves_wildcard_to_caller as [_ [_ [_ [H _]]]].
  apply H. reflexivity.
Defined.

(** ** What a computation adds to the log *)

Lemma adds_weaken {A} (m : M A) (P Q : log -> Prop) :
  adds m P -> (forall a, P a -> Q a) -> adds m Q.
Proof.
  intros Hm HPQ h. destruct (Hm h) as [a [E Pa]]. exists a. split; auto.
Qed.

Lemma adds_ret {A} (x : A) (P : log -> Prop) : P [] -> adds (ret x) P.
Proof. intros H h. exists []. simpl. rewrite app_nil_r. auto. Qed.

Lemma adds_raise {A} (e : exn) (P : log -> Prop) : P [] -> adds (@raise A e) P.
Proof. intros H h. exists []. simpl. rewrite app_nil_r. auto. Qed.

Lemma adds_fail_json {A} (msg : string) (P : log -> Prop) : P [] -> adds (@fail_json A msg) P.
Proof. intros H h. exists []. simpl. rewrite app_nil_r. auto. Qed.

Lemma adds_lift {A} (r : res A) (P : log -> Prop) : P [] -> adds (lift r) P.
Proof. intros H. destruct r; [apply adds_raise | apply adds_ret]; exact H. Qed.

Lemma adds_try_except {A B} (m : M A) (handler : exn -> M B) (k : A -> M B)
    (P Q R : log -> Prop) :
  adds m P ->
  (forall e, adds (handler e) Q) ->
  (forall x, adds (k x) Q) ->
  Q [] ->
  (forall a1 a2, P a1 -> Q a2 -> R (a1 ++ a2)%list) ->
  adds (try_except m handler k) R.
Proof.
  intros Hm Hh Hk Hnil HR h. unfold try_except.
  destruct (Hm h) as [a1 [E1 P1]].
  destruct (m h) as [o h1]. simpl in E1. subst h1.
  destruct o as [x | e | msg].
  - destruct (Hk x (h ++ a1)%list) as [a2 [E2 Q2]].
    exists (a1 ++ a2)%list. rewrite E2, app_assoc. auto.
  - destruct (Hh e (h ++ a1)%list) as [a2 [E2 Q2]].
    exists (a1 ++ a2)%list. rewrite E2, app_assoc. auto.
  - exists a1. split; [reflexivity|].
    rewrite <- (app_nil_r a1). auto.
Qed.

Lemma adds_bind {A B} (m : M A) (k : A -> M B) (P Q R : log -> Prop) :
  adds m P ->
  (forall x, adds (k x) Q) ->
  Q [] ->
  (forall a1 a2, P a1 -> Q a2 -> R (a1 ++ a2)%list) ->
  adds (bind m k) R.
Proof.
  intros Hm Hk Hnil HR h. unfold bind.
  destruct (Hm h) as [a1 [E1 P1]].
  destruct (m h) as [o h1]. simpl in E1. subst h1.
  destruct o as [x | e | msg].
  - destruct (Hk x (h ++ a1)%list) as [a2 [E2 Q2]].
    exists (a1 ++ a2)%list. rewrite E2, app_assoc. auto.
  - exists a1. split; [reflexivity|]. rewrite <- (app_nil_r a1). auto.
  - exists a1. split; [reflexivity|]. rewrite <- (app_nil_r a1). auto.
Qed.

Lemma endpoint_json_sends (tfe : TFEHelper) (r : request) : sends (endpoint_json tfe r) r.
Proof. intros h. reflexivity. Qed.

Lemma endpoint_list_sends (tfe : TFEHelper) (r : request) : sends (endpoint_list tfe r) r.
Proof. intros h. reflexivity. Qed.

Lemma call_endpoint_loop_adds {A} (tfe : TFEHelper) (endpoint : M A) (r : request) :
  sends endpoint r ->
  forall n exception, adds (call_endpoint_loop tfe endpoint n exception) (attempts_of r n).
Proof.
  intros Hs n. induction n as [|n IH]; intros exception h.
  - exists []. split.
    + simpl. destruct exception; simpl; rewrite app_nil_r; reflexivity.
    + exists O. split; [lia|]. intros g. destruct (g _); reflexivity.
  - simpl. unfold try_except. specialize (Hs h).
    destruct (endpoint h) as [o h1]. simpl in Hs. subst h1.
    assert (Hone : attempts_of r (S n) [EvCall r]).
    { exists 1%nat. split; [lia|]. intros g. simpl. destruct (g _); reflexivity. }
    destruct o as [x | e | msg]; try (exists [EvCall r]; split; [reflexivity | exact Hone]).
    unfold bind, time_sleep. destruct (sleep tfe <? 0).
    + exists [EvCall r]; split; [reflexivity | exact Hone].
    + destruct (IH (Some e) ((h ++ [EvCall r]) ++ [EvSleep (sleep tfe)])%list)
        as [a [E [k [Hk Hf]]]].
      exists (EvCall r :: EvSleep (sleep tfe) :: a). split.
      * rewrite E. rewrite <- !app_assoc. reflexivity.
      * exists (S k). split; [lia|]. intros g. simpl. rewrite Hf.
        destruct (g _); reflexivity.
Qed.

Lemma call_endpoint_adds {A} (tfe : TFEHelper) (endpoint : M A) (r : request) :
  sends endpoint r ->
  adds (call_endpoint tfe endpoint) (attempts_of r (Z.to_nat (retries tfe))).
Proof. intros Hs. apply call_endpoint_loop_adds, Hs. Qed.

(** ** Retry exhaustion *)

Lemma call_endpoint_loop_exhausted {A} (tfe : TFEHelper) (endpoint : M A) (r : request)
    (err : log -> exn) :
  0 <= sleep tfe ->
  always_raises endpoint r err ->
  forall n exception h,
    call_endpoint_loop tfe endpoint n exception h =
    (Raise match n with
           | O => raised_after exception
           | S n' => err (h ++ retry_trace r (sleep tfe) n')%list
           end,
     (h ++ retry_trace r (sleep tfe) n)%list).
Proof.
  intros Hsleep Hraise n. induction n as [|n IH]; intros exception h.
  - simpl. rewrite app_nil_r. destruct exception; reflexivity.
  - simpl. unfold try_except. rewrite Hraise.
    unfold bind, time_sleep.
    replace (sleep tfe <? 0) with false by (symmetry; apply Z.ltb_ge; exact Hsleep).
    rewrite IH. destruct n as [|n']; rewrite <- !app_assoc; simpl.
    + rewrite app_nil_r. reflexivity.
    + reflexivity.
Qed.

Lemma endpoint_json_always_raises (tfe : TFEHelper) (r : request) (err : log -> exn) :
  (forall h, api tfe h r = inl (err h)) -> always_raises (endpoint_json tfe r) r err.
Proof. intros H h. unfold endpoint_json. rewrite H. reflexivity. Qed.

Lemma endpoint_list_always_raises (tfe : TFEHelper) (r : request) (err : log -> exn) :
  (forall h, api_list tfe h r = inl (err h)) -> always_raises (endpoint_list tfe r) r err.
Proof. intros H h. unfold endpoint_list. rewrite H. reflexivity. Qed.

Lemma calls_retry_trace (r : request) (seconds : Z) (n : nat) :
  calls (retry_trace r seconds n) = repeat (EvCall r) n.
Proof. induction n as [|n IH]; simpl; [reflexivity | rewrite IH; reflexivity]. Qed.

Lemma sleeps_retry_trace (r : request) (seconds : Z) (n : nat) :
  sleeps (retry_trace r seconds n) = repeat (EvSleep seconds) n.
Proof. induction n as [|n IH]; simpl; [reflexivity | rewrite IH; reflexivity]. Qed.

Lemma slept_seconds_retry_trace (r : request) (seconds : Z) (n : nat) :
  slept_seconds (retry_trace r seconds n) = Z.of_nat n * seconds.
Proof.
  induction n as [|n IH]; [reflexivity|].
  cbn [retry_trace slept_seconds]. rewrite IH. lia.
Qed.

(** C4, as stated, fails: with [retries=3] and an operation that always
    fails there are three sleeps, 15 seconds for [sleep=5], not two. *)
Lemma three_failures_three_sleeps :
  let l := snd (call_endpoint failing_tfe
                  (endpoint_json failing_tfe (Req workspaces_update [])) []) in
  List.length (sleeps l) = 3%nat
  /\ slept_seconds l = 15
  /\ List.length (sleeps l) <> (3 - 1)%nat
  /\ slept_seconds l <> (3 - 1) * 5.
Proof. cbv. repeat split; discriminate. Qed.

(** C4 (amended): when the wrapped operation fails on every attempt,
    [call_endpoint] sleeps after every failed attempt, the last one
    included: with [retries=n] it makes [n] attempts and [n] sleeps of
    [sleep] seconds before raising, a delay of [retries * sleep]. *)
Theorem call_endpoint_sleeps_after_each_failure :
  forall (tfe : TFEHelper) (r : request) (err : log -> exn) (h : log),
    0 <= sleep tfe ->
    (forall h', api tfe h' r = inl (err h')) ->
    exists e added,
      call_endpoint tfe (endpoint_json tfe r) h = (Raise e, (h ++ added)%list)
      /\ sleeps added = repeat (EvSleep (sleep tfe)) (Z.to_nat (retries tfe))
      /\ List.length (sleeps added) = List.length (calls added)
      /\ slept_seconds added = Z.of_nat (Z.to_nat (retries tfe)) * sleep tfe.
Proof.
  intros tfe r err h Hsleep Hfail.
  unfold call_endpoint.
  rewrite (call_endpoint_loop_exhausted tfe Hsleep (endpoint_json_always_raises tfe r err Hfail)).
  eexists. eexists. split; [reflexivity|].
  rewrite sleeps_retry_trace, calls_retry_trace, slept_seconds_retry_trace, !repeat_length.
  auto.
Qed.

Lemma call_endpoint_sleeps_after_each_failure_witness :
  exists e added,
    call_endpoint failing_tfe (endpoint_json failing_tfe (Req workspaces_update [])) []
    = (Raise e, ([] ++ added)%list)
    /\ sleeps added = repeat (EvSleep (sleep failing_tfe)) (Z.to_nat (retries failing_tfe))
    /\ List.length (sleeps added) = List.length (calls added)
    /\ slept_seconds added = Z.of_nat (Z.to_nat (retries failing_tfe)) * sleep failing_tfe.
Proof.
  apply (@call_endpoint_sleeps_after_each_failure failing_tfe (Req workspaces_update [])
           nth_error_exn []).
  - simpl. lia.
  - intros h'. reflexivity.
Defined.

(** C5, as stated, fails: with [retries=3] and a negative [sleep] an
    operation that raises on every attempt is invoked once, and what
    [call_endpoint] raises is the [ValueError] of [time.sleep], not an
    exception of the operation; with [retries=0] the operation is not invoked
    and a [TypeError] is raised. *)
Lemma one_attempt_with_negative_sleep :
  retries negative_sleep_tfe = 3
  /\ (forall h, api negative_sleep_tfe h (Req workspaces_create []) = inl (nth_error_exn h))
  /\ call_endpoint negative_sleep_tfe
       (endpoint_json negative_sleep_tfe (Req workspaces_create [])) []
     = (Raise (ValueError "sleep length must be non-negative"),
        [EvCall (Req workspaces_create [])])
  /\ retries no_attempt_tfe = 0
  /\ call_endpoint no_attempt_tfe
       (endpoint_json no_attempt_tfe (Req workspaces_create [])) []
     = (Raise (TypeError "exceptions must derive from BaseException"), []).
Proof. repeat split; reflexivity. Qed.

(** C5 (amended): with [retries=n], [n >= 1], and a sleep time [time.sleep]
    accepts ([sleep >= 0]), an operation that raises on every attempt is
    invoked exactly [n] times, and [call_endpoint] then raises the exception
    of the last attempt itself. *)
Theorem call_endpoint_raises_last_exception :
  forall (tfe : TFEHelper) (r : request) (err : log -> exn) (h : log),
    1 <= retries tfe ->
    0 <= sleep tfe ->
    (forall h', api tfe h' r = inl (err h')) ->
    let n := Z.to_nat (retries tfe) in
    let before_last := (h ++ retry_trace r (sleep tfe) (Nat.pred n))%list in
    let added := retry_trace r (sleep tfe) n in
    call_endpoint tfe (endpoint_json tfe r) h = (Raise (err before_last), (h ++ added)%list)
    /\ api tfe before_last r = inl (err before_last)
    /\ calls added = repeat (EvCall r) n
    /\ List.length (calls added) = n.
Proof.
  intros tfe r err h Hretries Hsleep Hfail n before_last added.
  unfold call_endpoint.
  rewrite (call_endpoint_loop_exhausted tfe Hsleep (endpoint_json_always_raises tfe r err Hfail)).
  subst before_last added. fold n.
  assert (Hn : exists n', n = S n').
  { exists (Nat.pred n). subst n. lia. }
  destruct Hn as [n' Hn]. rewrite Hn. simpl Nat.pred.
  split; [reflexivity|]. split; [apply Hfail|].
  rewrite calls_retry_trace, repeat_length. auto.
Qed.

Lemma call_endpoint_raises_last_exception_witness :
  call_endpoint failing_tfe (endpoint_json failing_tfe (Req workspaces_create [])) []
  = (Raise (Exn "TFCHTTPInternalServerError" "third attempt failed"),
     retry_trace (Req workspaces_create []) 5 3)
  /\ List.length (calls (retry_trace (Req workspaces_create []) 5 3)) = 3%nat.
Proof.
  destruct (@call_endpoint_raises_last_exception failing_tfe (Req workspaces_create [])
              nth_error_exn []) as [H1 [_ [_ H2]]].
  - simpl. lia.
  - simpl. lia.
  - intros h'. reflexivity.
  - split; [exact H1 | exact H2].
Defined.

(** Without any attempt ([retries <= 0]) the final [raise exception] raises a
    [TypeError], [exception] being [None]. *)
Lemma call_endpoint_no_attempt {A} (tfe : TFEHelper) (endpoint : M A) (h : log) :
  retries tfe <= 0 ->
  call_endpoint tfe endpoint h
  = (Raise (TypeError "exceptions must derive from BaseException"), h).
Proof.
  intros H. unfold call_endpoint.
  replace (Z.to_nat (retries tfe)) with O by lia. reflexivity.
Qed.

(** ** Listing organizations fails *)

Lemma call_endpoint_loop_raises {A} (tfe : TFEHelper) (endpoint : M A) :
  (forall h, exists e h', endpoint h = (Raise e, h')) ->
  forall n exception h,
  exists e h', call_endpoint_loop tfe endpoint n exception h = (Raise e, h').
Proof.
  intros Hraise n. induction n as [|n IH]; intros exception h.
  - simpl. destruct exception; eexists; eexists; reflexivity.
  - simpl. unfold try_except. destruct (Hraise h) as [e [h1 E]]. rewrite E.
    unfold bind, time_sleep. destruct (sleep tfe <? 0).
    + eexists; eexists; reflexivity.
    + apply IH.
Qed.


(** ** Counting the calls of a run *)

Lemma silent_ret {A} (f : endpoint -> bool) (x : A) : silent f (ret x).
Proof. apply adds_ret. reflexivity. Qed.

Lemma silent_raise {A} (f : endpoint -> bool) (e : exn) : silent f (@raise A e).
Proof. apply adds_raise. reflexivity. Qed.

Lemma silent_fail_json {A} (f : endpoint -> bool) (msg : string) : silent f (@fail_json A msg).
Proof. apply adds_fail_json. reflexivity. Qed.

Lemma silent_lift {A} (f : endpoint -> bool) (r : res A) : silent f (lift r).
Proof. apply adds_lift. reflexivity. Qed.

Lemma silent_bind {A B} (f : endpoint -> bool) (m : M A) (k : A -> M B) :
  silent f m -> (forall x, silent f (k x)) -> silent f (bind m k).
Proof.
  intros Hm Hk. eapply adds_bind; [exact Hm | exact Hk | reflexivity |].
  intros a1 a2 H1 H2. rewrite filter_app, H1, H2. reflexivity.
Qed.

Lemma silent_try_except {A B} (f : endpoint -> bool) (m : M A) (handler : exn -> M B)
    (k : A -> M B) :
  silent f m -> (forall e, silent f (handler e)) -> (forall x, silent f (k x)) ->
  silent f (try_except m handler k).
Proof.
  intros Hm Hh Hk. eapply adds_try_except; [exact Hm | exact Hh | exact Hk | reflexivity |].
  intros a1 a2 H1 H2. rewrite filter_app, H1, H2. reflexivity.
Qed.

Lemma silent_call_endpoint {A} (f : endpoint -> bool) (tfe : TFEHelper) (endpoint : M A)
    (r : request) :
  sends endpoint r -> f (req_endpoint r) = false -> silent f (call_endpoint tfe endpoint).
Proof.
  intros Hs Hf. eapply adds_weaken; [apply (call_endpoint_adds tfe Hs)|].
  intros a [k [_ H]]. rewrite H, Hf. reflexivity.
Qed.

Lemma one_call_call_endpoint {A} (f : endpoint -> bool) (tfe : TFEHelper) (endpoint : M A)
    (r : request) :
  sends endpoint r -> one_call f (Z.to_nat (retries tfe)) (call_endpoint tfe endpoint).
Proof.
  intros Hs. eapply adds_weaken; [apply (call_endpoint_adds tfe Hs)|].
  intros a [k [Hk H]]. rewrite H. destruct (f _).
  - exists r, k. auto.
  - exists r, O. split; [lia | reflexivity].
Qed.

Lemma silent_one_call {A} (f : endpoint -> bool) (n : nat) (m : M A) :
  silent f m -> one_call f n m.
Proof.
  intros H. eapply adds_weaken; [exact H|].
  intros a Ha. exists (Req orgs_list []), O. split; [lia | exact Ha].
Qed.

Lemma one_call_then_silent {A B} (f : endpoint -> bool) (n : nat) (m : M A) (k : A -> M B) :
  one_call f n m -> (forall x, silent f (k x)) -> one_call f n (bind m k).
Proof.
  intros Hm Hk. eapply adds_bind; [exact Hm | exact Hk | reflexivity |].
  intros a1 a2 [r [j [Hj H1]]] H2. exists r, j. split; [exact Hj|].
  rewrite filter_app, H1, H2, app_nil_r. reflexivity.
Qed.

Lemma silent_then_one_call {A B} (f : endpoint -> bool) (n : nat) (m : M A) (k : A -> M B) :
  silent f m -> (forall x, one_call f n (k x)) -> one_call f n (bind m k).
Proof.
  intros Hm Hk.
  eapply adds_bind; [exact Hm | exact Hk | |].
  - exists (Req orgs_list []), O. split; [lia | reflexivity].
  - intros a1 a2 H1 [r [j [Hj H2]]]. exists r, j. split; [exact Hj|].
    rewrite filter_app, H1, H2. reflexivity.
Qed.

Lemma one_call_try_except {A B} (f : endpoint -> bool) (n : nat) (m : M A)
    (handler : exn -> M B) (k : A -> M B) :
  one_call f n m -> (forall e, silent f (handler e)) -> (forall x, silent f (k x)) ->
  one_call f n (try_except m handler k).
Proof.
  intros Hm Hh Hk. eapply adds_try_except; [exact Hm | exact Hh | exact Hk | reflexivity |].
  intros a1 a2 [r [j [Hj H1]]] H2. exists r, j. split; [exact Hj|].
  rewrite filter_app, H1, H2, app_nil_r. reflexivity.
Qed.

Lemma silent_then_one_call_try {A B} (f : endpoint -> bool) (n : nat) (m : M A)
    (handler : exn -> M B) (k : A -> M B) :
  silent f m -> (forall e, one_call f n (handler e)) -> (forall x, one_call f n (k x)) ->
  one_call f n (try_except m handler k).
Proof.
  intros Hm Hh Hk.
  eapply adds_try_except; [exact Hm | exact Hh | exact Hk | |].
  - exists (Req orgs_list []), O. split; [lia | reflexivity].
  - intros a1 a2 H1 [r [j [Hj H2]]]. exists r, j. split; [exact Hj|].
    rewrite filter_app, H1, H2. reflexivity.
Qed.

Lemma one_call_bounded {A} (f : endpoint -> bool) (n : nat) (m : M A) :
  one_call f n m -> bounded f n m.
Proof.
  intros H. eapply adds_weaken; [exact H|].
  intros a [r [k [Hk Ha]]]. rewrite Ha, repeat_length. exact Hk.
Qed.

Lemma bounded_bind {A B} (f : endpoint -> bool) (n1 n2 : nat) (m : M A) (k : A -> M B) :
  bounded f n1 m -> (forall x, bounded f n2 (k x)) -> bounded f (n1 + n2) (bind m k).
Proof.
  intros Hm Hk. eapply adds_bind; [exact Hm | exact Hk | simpl; lia |].
  intros a1 a2 H1 H2. simpl in *. rewrite filter_app, length_app. lia.
Qed.

(** Symbolic execution of a run for [silent]. *)
Ltac silent_run :=
  repeat first
    [ apply silent_ret
    | apply silent_raise
    | apply silent_fail_json
    | apply silent_lift
    | eapply silent_call_endpoint;
      [first [apply endpoint_json_sends | apply endpoint_list_sends] | reflexivity]
    | apply silent_bind; [| intros ?]
    | apply silent_try_except; [| intros ? | intros ?]
    | match goal with
      | |- silent _ (match ?x with _ => _ end) => destruct x
      end ].

Lemma get_org_name_when_exists_silent (f : endpoint -> bool) (tfe : TFEHelper)
    (organization : string) (flag : bool) :
  f orgs_list = false -> silent f (get_org_name_when_exists tfe organization flag).
Proof.
  intros Hf. unfold get_org_name_when_exists.
  apply silent_try_except; [| intros ? | intros ?].
  - apply silent_call_endpoint with (r := Req orgs_list []);
      [apply endpoint_list_sends | exact Hf].
  - silent_run.
  - silent_run.
Qed.

(** ** The workspace module: a workspace that does not exist *)

Lemma with_log {A} (m : M A) (h : log) (a : log) :
  snd (m h) = (h ++ a)%list -> m h = (fst (m h), (h ++ a)%list).
Proof. destruct (m h) as [o h']. simpl. intros ->. reflexivity. Qed.

Lemma silent_result {A} (f : endpoint -> bool) (m : M A) (h h' : log) (o : outcome A) :
  silent f m -> m h = (o, h') ->
  filter (event_endpoint_is f) h' = filter (event_endpoint_is f) h.
Proof.
  intros Hs E. destruct (Hs h) as [a [Ha Hf]]. rewrite E in Ha. simpl in Ha. subst h'.
  rewrite filter_app, Hf, app_nil_r. reflexivity.
Qed.

Lemma workspaces_fetched_main (tfe : TFEHelper) (p : tfe_workspace.params)
    (org : option string) (all_workspaces : list resource) (h : log) :
  workspaces_fetched tfe p org all_workspaces h ->
  tfe_workspace.main tfe p [] =
  tfe_workspace.reconcile tfe p org all_workspaces (workspace_result0 p org) h.
Proof.
  intros [v [h1 [h2 [E1 [E2 E3]]]]].
  unfold tfe_workspace.main, bind, try_except. rewrite E1, E2, E3. reflexivity.
Qed.

Lemma workspaces_fetched_silent (tfe : TFEHelper) (p : tfe_workspace.params)
    (org : option string) (all_workspaces : list resource) (h : log) :
  workspaces_fetched tfe p org all_workspaces h -> mutating_calls h = [].
Proof.
  intros [v [h1 [h2 [E1 [E2 E3]]]]]. unfold mutating_calls.
  apply (silent_result (f := is_mutating)) in E3;
    [| apply silent_call_endpoint with (r := Req workspaces_list_all [("include", VNone)]);
       [apply endpoint_list_sends | reflexivity]].
  apply (silent_result (f := is_mutating)) in E2;
    [| apply silent_call_endpoint with (r := Req set_org [("org_name", value_of org)]);
       [apply endpoint_json_sends | reflexivity]].
  apply (silent_result (f := is_mutating)) in E1;
    [| apply get_org_name_when_exists_silent; reflexivity].
  rewrite E3, E2, E1. reflexivity.
Qed.

(** C1, as stated, fails: [state=absent] for a workspace that matches
    nothing does not abort; the module exits with [changed=False]. *)
Lemma absent_unknown_workspace_does_not_fail :
  tfe_workspace.required_if absent_unknown_workspace = true
  /\ tfe_workspace.main answering_tfe absent_unknown_workspace [] =
     (Ret (workspace_result0 absent_unknown_workspace (Some "foo")),
      [EvCall (Req orgs_list []);
       EvCall (Req set_org [("org_name", VStr "foo")]);
       EvCall (Req workspaces_list_all [("include", VNone)])])
  /\ tfe_workspace.changed (workspace_result0 absent_unknown_workspace (Some "foo")) = false
  /\ (forall msg l,
        tfe_workspace.main answering_tfe absent_unknown_workspace [] <> (FailJson msg, l)).
Proof.
  split; [reflexivity|]. split; [reflexivity|]. split; [reflexivity|].
  intros msg l H. vm_compute in H. discriminate.
Qed.

(** C1 (amended): for parameters [AnsibleModule] accepts, when the workspace
    identifier matches no workspace of the fetched collection, neither by
    name nor by ID, no mutating call is made; with [state=absent] the module
    exits normally with [changed=False], and it is with [state=present] that
    it aborts with the "does not exist" error naming the workspace and the
    organization. *)
Theorem unknown_workspace_absent_exits_present_fails :
  forall (tfe : TFEHelper) (p : tfe_workspace.params) (w : string)
         (org : option string) (all_workspaces : list resource) (h : log),
    tfe_workspace.required_if p = true ->
    tfe_workspace.workspace p = Some w ->
    workspaces_fetched tfe p org all_workspaces h ->
    any_res (attribute_is "name" (VStr w)) all_workspaces = inr false ->
    existsb (id_is w) all_workspaces = false ->
    mutating_calls h = []
    /\ match tfe_workspace.state p with
       | absent =>
           tfe_workspace.main tfe p [] = (Ret (workspace_result0 p org), h)
           /\ tfe_workspace.changed (workspace_result0 p org) = false
       | present =>
           tfe_workspace.main tfe p [] =
           (FailJson ("The supplied " ++ quoted w ++ " workspace does not exist in "
                      ++ quoted (py_str org) ++ " organization."), h)
       end.
Proof.
  intros tfe p w org all_workspaces h _ Hw Hfetch Hname Hid.
  split; [apply (workspaces_fetched_silent Hfetch)|].
  rewrite (workspaces_fetched_main Hfetch).
  unfold tfe_workspace.reconcile, tfe_workspace.get_workspace_id,
    tfe_workspace.destroy_step, tfe_workspace.update_step, tfe_workspace.create_step.
  rewrite Hw. unfold bind, lift. rewrite Hname. simpl. rewrite Hid.
  destruct (tfe_workspace.state p); simpl; auto.
Qed.

Lemma unknown_workspace_absent_exits_present_fails_witness :
  mutating_calls
    [EvCall (Req orgs_list []);
     EvCall (Req set_org [("org_name", VStr "foo")]);
     EvCall (Req workspaces_list_all [("include", VNone)])] = []
  /\ tfe_workspace.main answering_tfe absent_unknown_workspace [] =
     (Ret (workspace_result0 absent_unknown_workspace (Some "foo")),
      [EvCall (Req orgs_list []);
       EvCall (Req set_org [("org_name", VStr "foo")]);
       EvCall (Req workspaces_list_all [("include", VNone)])])
  /\ tfe_workspace.changed (workspace_result0 absent_unknown_workspace (Some "foo")) = false.
Proof.
  apply (@unknown_workspace_absent_exits_present_fails answering_tfe absent_unknown_workspace
           "no-such-workspace" (Some "foo") [workspace_alpha]).
  - reflexivity.
  - reflexivity.
  - exists (VDict []). eexists. eexists. repeat split; reflexivity.
  - reflexivity.
  - reflexivity.
Defined.

(** ** The VCS connection module: an ambiguous client name *)

Lemma oauth_clients_fetched_main (tfe : TFEHelper) (p : tfe_vcs_connection.params)
    (org : option string) (all_oauth_clients : list resource) (h : log) :
  oauth_clients_fetched tfe p org all_oauth_clients h ->
  tfe_vcs_connection.main tfe p [] =
  tfe_vcs_connection.reconcile tfe p org all_oauth_clients (vcs_result0 p org) h.
Proof.
  intros [v [h1 [h2 [E1 [E2 E3]]]]].
  unfold tfe_vcs_connection.main, bind, try_except. rewrite E1, E2, E3. reflexivity.
Qed.

Lemma oauth_clients_fetched_silent (tfe : TFEHelper) (p : tfe_vcs_connection.params)
    (org : option string) (all_oauth_clients : list resource) (h : log) :
  oauth_clients_fetched tfe p org all_oauth_clients h -> mutating_calls h = [].
Proof.
  intros [v [h1 [h2 [E1 [E2 E3]]]]]. unfold mutating_calls.
  apply (silent_result (f := is_mutating)) in E3;
    [| apply silent_call_endpoint with (r := Req oauth_clients_list []);
       [apply endpoint_list_sends | reflexivity]].
  apply (silent_result (f := is_mutating)) in E2;
    [| apply silent_call_endpoint with (r := Req set_org [("org_name", value_of org)]);
       [apply endpoint_json_sends | reflexivity]].
  apply (silent_result (f := is_mutating)) in E1;
    [| apply get_org_name_when_exists_silent; reflexivity].
  rewrite E3, E2, E1. reflexivity.
Qed.

Lemma multiple_matches_not_does_not_exist (client client' : string)
    (org org' : option string) :
  tfe_vcs_connection.multiple_matches_msg client org
  <> tfe_vcs_connection.does_not_exist_msg client' org'.
Proof.
  unfold tfe_vcs_connection.multiple_matches_msg, tfe_vcs_connection.does_not_exist_msg.
  simpl. discriminate.
Qed.

(** C7: for parameters [AnsibleModule] accepts, when the client token is the
    ID of no OAuth client and the name of two or more, the module fails with
    the "Found multiple OAuth Clients" message, which differs from every
    "does not exist" message, and no client is picked: no mutating call is
    made. *)
Theorem ambiguous_client_name_fails :
  forall (tfe : TFEHelper) (p : tfe_vcs_connection.params) (client : string)
         (org : option string) (all_oauth_clients named : list resource) (h : log),
    tfe_vcs_connection.required_if p = true ->
    tfe_vcs_connection.client p = Some client ->
    oauth_clients_fetched tfe p org all_oauth_clients h ->
    filter (id_is client) all_oauth_clients = [] ->
    filter_res (attribute_is "name" (VStr client)) all_oauth_clients = inr named ->
    (2 <= List.length named)%nat ->
    tfe_vcs_connection.main tfe p [] =
    (FailJson (tfe_vcs_connection.multiple_matches_msg client org), h)
    /\ mutating_calls h = []
    /\ (forall client' org',
          tfe_vcs_connection.multiple_matches_msg client org
          <> tfe_vcs_connection.does_not_exist_msg client' org').
Proof.
  intros tfe p client org all_oauth_clients named h _ Hc Hfetch Hid Hname Hlen.
  split; [|split].
  - rewrite (oauth_clients_fetched_main Hfetch).
    unfold tfe_vcs_connection.reconcile, tfe_vcs_connection.get_client_id.
    rewrite Hc, Hid. unfold bind at 1 2 3. unfold lift at 1. rewrite Hname.
    cbv beta iota zeta. unfold ret at 1.
    replace (1 <? List.length named)%nat with true
      by (symmetry; apply Nat.ltb_lt; lia).
    reflexivity.
  - apply (oauth_clients_fetched_silent Hfetch).
  - intros client' org'. apply multiple_matches_not_does_not_exist.
Qed.

Lemma ambiguous_client_name_fails_witness :
  tfe_vcs_connection.main answering_tfe github_twice [] =
  (FailJson (tfe_vcs_connection.multiple_matches_msg "github" (Some "foo")),
   [EvCall (Req orgs_list []);
    EvCall (Req set_org [("org_name", VStr "foo")]);
    EvCall (Req oauth_clients_list [])]).
Proof.
  apply (@ambiguous_client_name_fails answering_tfe github_twice "github" (Some "foo")
           [Resource "oc-1" [("name", VStr "github")] [];
            Resource "oc-2" [("name", VStr "github")] []]
           [Resource "oc-1" [("name", VStr "github")] [];
            Resource "oc-2" [("name", VStr "github")] []]).
  - reflexivity.
  - reflexivity.
  - exists (VDict []). eexists. eexists. repeat split; reflexivity.
  - reflexivity.
  - reflexivity.
  - simpl. lia.
Defined.

(** ** Mutating calls of a run *)

Lemma bounded_weaken {A} (f : endpoint -> bool) (n n' : nat) (m : M A) :
  bounded f n m -> (n <= n')%nat -> bounded f n' m.
Proof.
  intros H Hn. eapply adds_weaken; [exact H|]. intros a Ha. simpl in *. lia.
Qed.

Lemma bounded_try_except {A B} (f : endpoint -> bool) (n1 n2 : nat) (m : M A)
    (handler : exn -> M B) (k : A -> M B) :
  bounded f n1 m -> (forall e, bounded f n2 (handler e)) -> (forall x, bounded f n2 (k x)) ->
  bounded f (n1 + n2) (try_except m handler k).
Proof.
  intros Hm Hh Hk.
  eapply adds_try_except; [exact Hm | exact Hh | exact Hk | simpl; lia |].
  intros a1 a2 H1 H2. simpl in *. rewrite filter_app, length_app. lia.
Qed.

Lemma silent_bounded {A} (f : endpoint -> bool) (n : nat) (m : M A) :
  silent f m -> bounded f n m.
Proof.
  intros H. eapply adds_weaken; [exact H|]. intros a Ha. rewrite Ha. simpl. lia.
Qed.

Lemma workspace_act_one_call (f : endpoint -> bool) (tfe : TFEHelper)
    (p : tfe_workspace.params) (r : request) (msg : exn -> string)
    (result0 : tfe_workspace.result) :
  one_call f (Z.to_nat (retries tfe)) (tfe_workspace.act tfe p r msg result0).
Proof.
  unfold tfe_workspace.act. apply one_call_then_silent; [|intros; apply silent_ret].
  destruct (negb _); [|apply silent_one_call, silent_ret].
  apply one_call_try_except; [|intros; apply silent_fail_json | intros; apply silent_ret].
  apply one_call_call_endpoint with (r := r). apply endpoint_json_sends.
Qed.

Lemma workspace_act_silent (f : endpoint -> bool) (tfe : TFEHelper)
    (p : tfe_workspace.params) (r : request) (msg : exn -> string)
    (result0 : tfe_workspace.result) :
  tfe_workspace.check_mode p = true \/ f (req_endpoint r) = false ->
  silent f (tfe_workspace.act tfe p r msg result0).
Proof.
  intros H. unfold tfe_workspace.act. apply silent_bind; [|intros; apply silent_ret].
  destruct (tfe_workspace.check_mode p) eqn:E; simpl; [apply silent_ret|].
  destruct H as [H | H]; [discriminate|].
  apply silent_try_except; [|intros; apply silent_fail_json | intros; apply silent_ret].
  apply silent_call_endpoint with (r := r); [apply endpoint_json_sends | exact H].
Qed.

Lemma vcs_act_one_call (f : endpoint -> bool) (tfe : TFEHelper)
    (p : tfe_vcs_connection.params) (r : request) (msg : exn -> string)
    (result0 : tfe_vcs_connection.result) :
  one_call f (Z.to_nat (retries tfe)) (tfe_vcs_connection.act tfe p r msg result0).
Proof.
  unfold tfe_vcs_connection.act. apply one_call_then_silent; [|intros; apply silent_ret].
  destruct (negb _); [|apply silent_one_call, silent_ret].
  apply one_call_try_except; [|intros; apply silent_fail_json | intros; apply silent_ret].
  apply one_call_call_endpoint with (r := r). apply endpoint_json_sends.
Qed.

Lemma vcs_act_silent (f : endpoint -> bool) (tfe : TFEHelper)
    (p : tfe_vcs_connection.params) (r : request) (msg : exn -> string)
    (result0 : tfe_vcs_connection.result) :
  tfe_vcs_connection.check_mode p = true \/ f (req_endpoint r) = false ->
  silent f (tfe_vcs_connection.act tfe p r msg result0).
Proof.
  intros H. unfold tfe_vcs_connection.act. apply silent_bind; [|intros; apply silent_ret].
  destruct (tfe_vcs_connection.check_mode p) eqn:E; simpl; [apply silent_ret|].
  destruct H as [H | H]; [discriminate|].
  apply silent_try_except; [|intros; apply silent_fail_json | intros; apply silent_ret].
  apply silent_call_endpoint with (r := r); [apply endpoint_json_sends | exact H].
Qed.

(** Symbolic execution of a module run: [acts_silently] closes the goals
    about calls that are skipped or are not selected, [module_silent] walks
    through a run without selected calls, [module_one_call] through a run
    with at most one. *)
Ltac acts_silently :=
  first
    [ apply workspace_act_silent; first [left; assumption | right; reflexivity]
    | apply vcs_act_silent; first [left; assumption | right; reflexivity] ].

Ltac module_silent :=
  repeat first
    [ apply silent_ret
    | apply silent_raise
    | apply silent_fail_json
    | apply silent_lift
    | acts_silently
    | eapply silent_call_endpoint;
      [first [apply endpoint_json_sends | apply endpoint_list_sends] | reflexivity]
    | apply silent_bind; [| intros ?]
    | apply silent_try_except; [| intros ? | intros ?]
    | match goal with
      | |- silent _ (match ?x with _ => _ end) => destruct x
      end ].

Ltac module_one_call :=
  first
    [ solve [apply silent_one_call; module_silent]
    | apply workspace_act_one_call
    | apply vcs_act_one_call
    | apply one_call_then_silent; [module_one_call | intros ?; solve [module_silent]]
    | apply silent_then_one_call; [solve [module_silent] | intros ?; module_one_call]
    | apply one_call_try_except;
      [module_one_call | intros ?; solve [module_silent] | intros ?; solve [module_silent]]
    | apply silent_then_one_call_try;
      [solve [module_silent] | intros ?; module_one_call | intros ?; module_one_call]
    | match goal with
      | |- one_call _ _ (match ?x with _ => _ end) => destruct x; module_one_call
      end ].

Lemma get_workspace_id_silent (f : endpoint -> bool) (p : tfe_workspace.params)
    (org : option string) (all_workspaces : list resource) :
  silent f (tfe_workspace.get_workspace_id p org all_workspaces).
Proof. unfold tfe_workspace.get_workspace_id. module_silent. Qed.

Lemma get_ssh_key_id_silent (f : endpoint -> bool) (ssh_key : string)
    (org : option string) (all_ssh_keys : list resource) :
  silent f (tfe_workspace.get_ssh_key_id ssh_key org all_ssh_keys).
Proof. unfold tfe_workspace.get_ssh_key_id. module_silent. Qed.

Lemma get_client_id_silent (f : endpoint -> bool) (p : tfe_vcs_connection.params)
    (org : option string) (all_oauth_clients : list resource) :
  silent f (tfe_vcs_connection.get_client_id p org all_oauth_clients).
Proof. unfold tfe_vcs_connection.get_client_id. module_silent. Qed.

Lemma destroy_step_one_call (f : endpoint -> bool) (tfe : TFEHelper)
    (p : tfe_workspace.params) (org workspace_id : option string)
    (result0 : tfe_workspace.result) :
  one_call f (Z.to_nat (retries tfe))
    (tfe_workspace.destroy_step tfe p org workspace_id result0).
Proof. unfold tfe_workspace.destroy_step. module_one_call. Qed.

Lemma update_attributes_one_call (f : endpoint -> bool) (tfe : TFEHelper)
    (p : tfe_workspace.params) (org : option string) (all_workspaces : list resource)
    (workspace_id : string) (result0 : tfe_workspace.result) :
  one_call f (Z.to_nat (retries tfe))
    (tfe_workspace.update_attributes tfe p org all_workspaces workspace_id result0).
Proof.
  unfold tfe_workspace.update_attributes.
  destruct (tfe_workspace.attributes p); [|apply silent_one_call, silent_ret].
  cbv zeta.
  apply silent_then_one_call; [apply silent_lift | intros w].
  apply silent_then_one_call; [apply silent_lift | intros unchanged].
  destruct (negb unchanged); [apply workspace_act_one_call | apply silent_one_call, silent_ret].
Qed.

Lemma process_locked_one_call (f : endpoint -> bool) (tfe : TFEHelper)
    (p : tfe_workspace.params) (org : option string) (all_workspaces : list resource)
    (workspace_id : string) (result0 : tfe_workspace.result) :
  one_call f (Z.to_nat (retries tfe))
    (tfe_workspace.process_locked tfe p org all_workspaces workspace_id result0).
Proof.
  unfold tfe_workspace.process_locked.
  destruct (tfe_workspace.locked p) as [locked|]; [|apply silent_one_call, silent_ret].
  apply silent_then_one_call; [apply silent_lift | intros w].
  apply silent_then_one_call; [apply silent_lift | intros currently_locked].
  destruct locked, (py_truthy currently_locked); simpl.
  - apply silent_one_call. module_silent.
  - apply one_call_then_silent; [apply workspace_act_one_call | intros; apply silent_ret].
  - apply silent_then_one_call; [apply silent_ret | intros; apply workspace_act_one_call].
  - apply silent_one_call. module_silent.
Qed.

Lemma process_ssh_key_one_call (f : endpoint -> bool) (tfe : TFEHelper)
    (p : tfe_workspace.params) (org : option string) (all_workspaces : list resource)
    (workspace_id : string) (result0 : tfe_workspace.result) :
  f ssh_keys_list = false ->
  one_call f (Z.to_nat (retries tfe))
    (tfe_workspace.process_ssh_key tfe p org all_workspaces workspace_id result0).
Proof.
  intros Hf. unfold tfe_workspace.process_ssh_key.
  destruct (tfe_workspace.ssh_key p) as [ssh_key|]; [|apply silent_one_call, silent_ret].
  apply silent_then_one_call_try.
  - apply silent_call_endpoint with (r := Req ssh_keys_list []);
      [apply endpoint_list_sends | exact Hf].
  - intros e. apply silent_one_call, silent_fail_json.
  - intros all_ssh_keys.
    apply silent_then_one_call; [apply get_ssh_key_id_silent | intros ssh_key_id].
    apply silent_then_one_call; [apply silent_lift | intros w].
    apply silent_then_one_call; [apply silent_lift | intros assigned].
    destruct ssh_key_id as [ssh_key_id|].
    + apply one_call_then_silent; [|intros; apply silent_ret].
      destruct (_ || _); [apply workspace_act_one_call | apply silent_one_call, silent_ret].
    + apply silent_then_one_call; [apply silent_ret | intros result1].
      destruct (negb _); [apply workspace_act_one_call | apply silent_one_call, silent_ret].
Qed.

Lemma process_locked_not_crud (tfe : TFEHelper)
    (p : tfe_workspace.params) (org : option string) (all_workspaces : list resource)
    (workspace_id : string) (result0 : tfe_workspace.result) :
  silent is_crud (tfe_workspace.process_locked tfe p org all_workspaces workspace_id result0).
Proof. unfold tfe_workspace.process_locked. module_silent. Qed.

Lemma process_ssh_key_not_crud (tfe : TFEHelper)
    (p : tfe_workspace.params) (org : option string) (all_workspaces : list resource)
    (workspace_id : string) (result0 : tfe_workspace.result) :
  silent is_crud (tfe_workspace.process_ssh_key tfe p org all_workspaces workspace_id result0).
Proof.
  unfold tfe_workspace.process_ssh_key.
  destruct (tfe_workspace.ssh_key p) as [ssh_key|]; [|apply silent_ret].
  apply silent_try_except; [| intros e | intros all_ssh_keys].
  - apply silent_call_endpoint with (r := Req ssh_keys_list []);
      [apply endpoint_list_sends | reflexivity].
  - apply silent_fail_json.
  - apply silent_bind; [apply get_ssh_key_id_silent | intros ssh_key_id].
    module_silent.
Qed.

Lemma create_step_one_call (f : endpoint -> bool) (tfe : TFEHelper)
    (p : tfe_workspace.params) (org workspace_id : option string)
    (result0 : tfe_workspace.result) :
  one_call f (Z.to_nat (retries tfe))
    (tfe_workspace.create_step tfe p org workspace_id result0).
Proof.
  unfold tfe_workspace.create_step.
  destruct (tfe_workspace.state p), workspace_id; try (apply silent_one_call, silent_ret).
  apply silent_then_one_call; [apply silent_lift | intros missing].
  apply silent_then_one_call; [|intros; apply workspace_act_one_call].
  destruct missing; [apply silent_fail_json | apply silent_ret].
Qed.

(** A workspace run makes at most one create, update or destroy call. *)
Lemma workspace_reconcile_one_crud (tfe : TFEHelper) (p : tfe_workspace.params)
    (org : option string) (all_workspaces : list resource) (result0 : tfe_workspace.result) :
  one_call is_crud (Z.to_nat (retries tfe))
    (tfe_workspace.reconcile tfe p org all_workspaces result0).
Proof.
  unfold tfe_workspace.reconcile.
  apply silent_then_one_call; [apply get_workspace_id_silent | intros workspace_id].
  pose proof (@destroy_step_one_call is_crud tfe p org workspace_id) as Hd.
  pose proof (@create_step_one_call is_crud tfe p org workspace_id) as Hc.
  unfold tfe_workspace.destroy_step, tfe_workspace.update_step, tfe_workspace.create_step in *.
  destruct (tfe_workspace.state p), workspace_id as [workspace_id|].
  - apply silent_then_one_call; [apply silent_ret | intros result1].
    apply one_call_then_silent; [|intros; apply silent_ret].
    apply one_call_then_silent; [apply update_attributes_one_call | intros result2].
    apply silent_bind; [apply process_locked_not_crud | intros result3].
    apply process_ssh_key_not_crud.
  - apply silent_then_one_call; [apply silent_ret | intros result1].
    apply silent_then_one_call; [apply silent_ret | intros result2].
    apply Hc.
  - apply one_call_then_silent; [apply Hd | intros result1].
    apply silent_bind; [apply silent_ret | intros; apply silent_ret].
  - apply silent_one_call. module_silent.
Qed.

(** A workspace run makes at most three mutating calls: one of create,
    update and destroy, one of lock and unlock, one of assign and unassign. *)
Lemma workspace_reconcile_three_mutating (tfe : TFEHelper) (p : tfe_workspace.params)
    (org : option string) (all_workspaces : list resource) (result0 : tfe_workspace.result) :
  bounded is_mutating (3 * Z.to_nat (retries tfe))
    (tfe_workspace.reconcile tfe p org all_workspaces result0).
Proof.
  unfold tfe_workspace.reconcile.
  apply bounded_weaken with (n := (0 + 3 * Z.to_nat (retries tfe))%nat); [|lia].
  apply bounded_bind; [apply silent_bounded, get_workspace_id_silent | intros workspace_id].
  pose proof (@destroy_step_one_call is_mutating tfe p org workspace_id) as Hd.
  pose proof (@create_step_one_call is_mutating tfe p org workspace_id) as Hc.
  unfold tfe_workspace.destroy_step, tfe_workspace.update_step, tfe_workspace.create_step in *.
  destruct (tfe_workspace.state p), workspace_id as [workspace_id|].
  - apply bounded_weaken
      with (n := (0 + ((Z.to_nat (retries tfe)
                        + (Z.to_nat (retries tfe) + Z.to_nat (retries tfe))) + 0))%nat);
      [|lia].
    apply bounded_bind; [apply silent_bounded, silent_ret | intros result1].
    apply bounded_bind; [|intros; apply silent_bounded, silent_ret].
    apply bounded_bind;
      [apply one_call_bounded, update_attributes_one_call | intros result2].
    apply bounded_bind;
      [apply one_call_bounded, process_locked_one_call | intros result3].
    apply one_call_bounded, process_ssh_key_one_call. reflexivity.
  - apply bounded_weaken with (n := (0 + (0 + Z.to_nat (retries tfe)))%nat); [|lia].
    apply bounded_bind; [apply silent_bounded, silent_ret | intros result1].
    apply bounded_bind; [apply silent_bounded, silent_ret | intros result2].
    apply one_call_bounded, Hc.
  - apply bounded_weaken with (n := (Z.to_nat (retries tfe) + 0)%nat); [|lia].
    apply bounded_bind; [apply one_call_bounded, Hd | intros result1].
    apply silent_bounded. module_silent.
  - apply silent_bounded. module_silent.
Qed.

Ltac run_silent :=
  repeat first
    [ apply get_org_name_when_exists_silent; reflexivity
    | apply get_workspace_id_silent
    | apply get_ssh_key_id_silent
    | apply get_client_id_silent
    | progress module_silent ].

Lemma vcs_reconcile_one_mutating (tfe : TFEHelper) (p : tfe_vcs_connection.params)
    (org : option string) (all_oauth_clients : list resource)
    (result0 : tfe_vcs_connection.result) :
  one_call is_mutating (Z.to_nat (retries tfe))
    (tfe_vcs_connection.reconcile tfe p org all_oauth_clients result0).
Proof.
  unfold tfe_vcs_connection.reconcile.
  apply silent_then_one_call; [apply get_client_id_silent | intros client_id].
  unfold tfe_vcs_connection.destroy_step, tfe_vcs_connection.update_step,
    tfe_vcs_connection.create_step.
  destruct (tfe_vcs_connection.state p), client_id as [client_id|].
  - apply silent_then_one_call; [apply silent_ret | intros result1].
    apply one_call_then_silent; [|intros; apply silent_ret].
    cbv zeta.
    apply silent_then_one_call; [apply silent_lift | intros oc].
    apply silent_then_one_call; [apply silent_lift | intros unchanged].
    apply one_call_then_silent; [|intros result2; run_silent].
    destruct (negb unchanged); [apply vcs_act_one_call | apply silent_one_call, silent_ret].
  - apply silent_then_one_call; [apply silent_ret | intros result1].
    apply silent_then_one_call; [apply silent_ret | intros result2].
    apply vcs_act_one_call.
  - apply one_call_then_silent; [apply vcs_act_one_call | intros result1].
    run_silent.
  - apply silent_one_call. run_silent.
Qed.

Lemma workspace_main_one_crud (tfe : TFEHelper) (p : tfe_workspace.params) :
  one_call is_crud (Z.to_nat (retries tfe)) (tfe_workspace.main tfe p).
Proof.
  unfold tfe_workspace.main.
  apply silent_then_one_call;
    [apply get_org_name_when_exists_silent; reflexivity | intros org].
  cbv zeta. apply silent_then_one_call_try.
  - run_silent.
  - intros e. apply silent_one_call, silent_fail_json.
  - intros _. apply silent_then_one_call_try.
    + run_silent.
    + intros e. apply silent_one_call, silent_fail_json.
    + intros all_workspaces. apply workspace_reconcile_one_crud.
Qed.

Lemma workspace_main_three_mutating (tfe : TFEHelper) (p : tfe_workspace.params) :
  bounded is_mutating (3 * Z.to_nat (retries tfe)) (tfe_workspace.main tfe p).
Proof.
  unfold tfe_workspace.main.
  apply bounded_weaken with (n := (0 + (0 + (0 + 3 * Z.to_nat (retries tfe))))%nat); [|lia].
  apply bounded_bind;
    [apply silent_bounded, get_org_name_when_exists_silent; reflexivity | intros org].
  cbv zeta. apply bounded_try_except.
  - apply silent_bounded. run_silent.
  - intros e. apply silent_bounded, silent_fail_json.
  - intros _. apply bounded_try_except.
    + apply silent_bounded. run_silent.
    + intros e. apply silent_bounded, silent_fail_json.
    + intros all_workspaces. apply workspace_reconcile_three_mutating.
Qed.

Lemma workspace_reconcile_one_lock (tfe : TFEHelper) (p : tfe_workspace.params)
    (org : option string) (all_workspaces : list resource) (result0 : tfe_workspace.result) :
  one_call is_lock_call (Z.to_nat (retries tfe))
    (tfe_workspace.reconcile tfe p org all_workspaces result0).
Proof.
  unfold tfe_workspace.reconcile.
  apply silent_then_one_call; [apply get_workspace_id_silent | intros workspace_id].
  unfold tfe_workspace.destroy_step, tfe_workspace.update_step, tfe_workspace.create_step.
  destruct (tfe_workspace.state p), workspace_id as [workspace_id|];
    try solve [apply silent_one_call; run_silent].
  apply silent_then_one_call; [apply silent_ret | intros result1].
  apply one_call_then_silent; [|intros; apply silent_ret].
  apply silent_then_one_call;
    [unfold tfe_workspace.update_attributes; run_silent | intros result2].
  apply one_call_then_silent; [apply process_locked_one_call | intros result3].
  unfold tfe_workspace.process_ssh_key. run_silent.
Qed.

Lemma workspace_reconcile_one_ssh_key (tfe : TFEHelper) (p : tfe_workspace.params)
    (org : option string) (all_workspaces : list resource) (result0 : tfe_workspace.result) :
  one_call is_ssh_key_call (Z.to_nat (retries tfe))
    (tfe_workspace.reconcile tfe p org all_workspaces result0).
Proof.
  unfold tfe_workspace.reconcile.
  apply silent_then_one_call; [apply get_workspace_id_silent | intros workspace_id].
  unfold tfe_workspace.destroy_step, tfe_workspace.update_step, tfe_workspace.create_step.
  destruct (tfe_workspace.state p), workspace_id as [workspace_id|];
    try solve [apply silent_one_call; run_silent].
  apply silent_then_one_call; [apply silent_ret | intros result1].
  apply one_call_then_silent; [|intros; apply silent_ret].
  apply silent_then_one_call;
    [unfold tfe_workspace.update_attributes; run_silent | intros result2].
  apply silent_then_one_call;
    [unfold tfe_workspace.process_locked; run_silent | intros result3].
  apply process_ssh_key_one_call. reflexivity.
Qed.

(** The fetching part of a workspace run calls none of the endpoints [f]
    selects when [f] selects none of the three it uses. *)
Lemma workspace_main_one_call (f : endpoint -> bool) (tfe : TFEHelper)
    (p : tfe_workspace.params) :
  f orgs_list = false -> f set_org = false -> f workspaces_list_all = false ->
  (forall org all_workspaces result0,
     one_call f (Z.to_nat (retries tfe))
       (tfe_workspace.reconcile tfe p org all_workspaces result0)) ->
  one_call f (Z.to_nat (retries tfe)) (tfe_workspace.main tfe p).
Proof.
  intros Ho Hs Hl Hrec. unfold tfe_workspace.main.
  apply silent_then_one_call;
    [apply get_org_name_when_exists_silent; exact Ho | intros org].
  cbv zeta. apply silent_then_one_call_try.
  - eapply silent_call_endpoint; [apply endpoint_json_sends | exact Hs].
  - intros e. apply silent_one_call, silent_fail_json.
  - intros _. apply silent_then_one_call_try.
    + eapply silent_call_endpoint; [apply endpoint_list_sends | exact Hl].
    + intros e. apply silent_one_call, silent_fail_json.
    + intros all_workspaces. apply Hrec.
Qed.

Lemma vcs_main_one_mutating (tfe : TFEHelper) (p : tfe_vcs_connection.params) :
  one_call is_mutating (Z.to_nat (retries tfe)) (tfe_vcs_connection.main tfe p).
Proof.
  unfold tfe_vcs_connection.main.
  apply silent_then_one_call;
    [apply get_org_name_when_exists_silent; reflexivity | intros org].
  cbv zeta. apply silent_then_one_call_try.
  - run_silent.
  - intros e. apply silent_one_call, silent_fail_json.
  - intros _. apply silent_then_one_call_try.
    + run_silent.
    + intros e. apply silent_one_call, silent_fail_json.
    + intros all_oauth_clients. apply vcs_reconcile_one_mutating.
Qed.

(** C2, as stated, fails: one run of the workspace module updates the
    workspace, locks it and assigns an SSH key: three mutating calls, each
    answered at the first attempt. *)
Lemma workspace_run_with_three_mutating_calls :
  tfe_workspace.required_if update_lock_and_key = true
  /\ map (fun ev => match ev with
                    | EvCall r => Some (req_endpoint r)
                    | EvSleep _ => None
                    end)
         (mutating_calls (snd (tfe_workspace.main answering_tfe update_lock_and_key [])))
     = [Some workspaces_update; Some workspaces_lock; Some workspaces_assign_ssh_key]
  /\ ~ (List.length
          (mutating_calls (snd (tfe_workspace.main answering_tfe update_lock_and_key [])))
        <= 1)%nat.
Proof.
  split; [reflexivity|]. split; [reflexivity|].
  vm_compute. intros H. inversion H as [|n H']. inversion H'.
Qed.

(** C2 (amended): one run makes at most one of the create, update and
    destroy calls: the calls to these endpoints are attempts of one request,
    at most [retries] of them.  A run of the VCS connection module makes no
    other mutating call; a run of the workspace module may also make one
    lock or unlock call and one assign or unassign SSH key call, at most
    three mutating calls of [retries] attempts each. *)
Theorem one_create_update_or_destroy_per_run :
  (forall (tfe : TFEHelper) (p : tfe_workspace.params),
     let l := snd (tfe_workspace.main tfe p []) in
     let n := Z.to_nat (retries tfe) in
     (exists r k, (k <= n)%nat /\ crud_calls l = repeat (EvCall r) k)
     /\ (exists r k, (k <= n)%nat /\ lock_calls l = repeat (EvCall r) k)
     /\ (exists r k, (k <= n)%nat /\ ssh_key_calls l = repeat (EvCall r) k)
     /\ (List.length (mutating_calls l) <= 3 * n)%nat)
  /\ (forall (tfe : TFEHelper) (p : tfe_vcs_connection.params),
        let l := snd (tfe_vcs_connection.main tfe p []) in
        exists r k, (k <= Z.to_nat (retries tfe))%nat /\ mutating_calls l = repeat (EvCall r) k).
Proof.
  split.
  - intros tfe p l n. subst l n. repeat split.
    + destruct (workspace_main_one_crud tfe p []) as [a [E H]].
      rewrite E. exact H.
    + destruct (@workspace_main_one_call is_lock_call tfe p eq_refl eq_refl eq_refl
                  (workspace_reconcile_one_lock tfe p) []) as [a [E H]].
      rewrite E. exact H.
    + destruct (@workspace_main_one_call is_ssh_key_call tfe p eq_refl eq_refl eq_refl
                  (workspace_reconcile_one_ssh_key tfe p) []) as [a [E H]].
      rewrite E. exact H.
    + destruct (workspace_main_three_mutating tfe p []) as [a [E H]].
      rewrite E. exact H.
  - intros tfe p l. subst l.
    destruct (vcs_main_one_mutating tfe p []) as [a [E H]].
    rewrite E. exact H.
Qed.

(** ** Check mode *)

Lemma workspace_check_mode_silent (tfe : TFEHelper) (p : tfe_workspace.params) :
  tfe_workspace.check_mode p = true -> silent is_mutating (tfe_workspace.main tfe p).
Proof.
  intros Hcheck.
  unfold tfe_workspace.main, tfe_workspace.reconcile, tfe_workspace.destroy_step,
    tfe_workspace.update_step, tfe_workspace.update_attributes,
    tfe_workspace.process_locked, tfe_workspace.process_ssh_key,
    tfe_workspace.create_step.
  cbv zeta. run_silent.
Qed.

Lemma vcs_check_mode_silent (tfe : TFEHelper) (p : tfe_vcs_connection.params) :
  tfe_vcs_connection.check_mode p = true -> silent is_mutating (tfe_vcs_connection.main tfe p).
Proof.
  intros Hcheck.
  unfold tfe_vcs_connection.main, tfe_vcs_connection.reconcile,
    tfe_vcs_connection.destroy_step, tfe_vcs_connection.update_step,
    tfe_vcs_connection.create_step.
  cbv zeta. run_silent.
Qed.

(** *** A check-mode run next to the real run *)

Lemma steady_ret {A} (x : A) : steady (ret x).
Proof. split; [reflexivity | apply silent_ret]. Qed.

Lemma steady_raise {A} (e : exn) : steady (@raise A e).
Proof. split; [reflexivity | apply silent_raise]. Qed.

Lemma steady_fail_json {A} (msg : string) : steady (@fail_json A msg).
Proof. split; [reflexivity | apply silent_fail_json]. Qed.

Lemma steady_lift {A} (r : res A) : steady (lift r).
Proof. destruct r; [apply steady_raise | apply steady_ret]. Qed.

Lemma steady_try_except {A B} (m : M A) (handler : exn -> M B) (k : A -> M B) :
  steady m -> (forall e, steady (handler e)) -> (forall x, steady (k x)) ->
  steady (try_except m handler k).
Proof.
  intros [Hm Sm] Hh Hk. split.
  - intros h h'. unfold try_except. specialize (Hm h h').
    destruct (m h) as [o h1], (m h') as [o' h1']. simpl in Hm. subst o'.
    destruct o as [x | e | msg]; [apply (Hk x) | apply (Hh e) | reflexivity].
  - apply silent_try_except; [exact Sm | intros e; apply (Hh e) | intros x; apply (Hk x)].
Qed.

Lemma steady_bind {A B} (m : M A) (k : A -> M B) :
  steady m -> (forall x, steady (k x)) -> steady (bind m k).
Proof.
  intros [Hm Sm] Hk. split.
  - intros h h'. unfold bind. specialize (Hm h h').
    destruct (m h) as [o h1], (m h') as [o' h1']. simpl in Hm. subst o'.
    destruct o as [x | e | msg]; [apply (Hk x) | reflexivity | reflexivity].
  - apply silent_bind; [exact Sm | intros x; apply (Hk x)].
Qed.

Lemma steady_call_endpoint_loop {A} (tfe : TFEHelper) (endpoint : M A) :
  (forall h h', fst (endpoint h) = fst (endpoint h')) ->
  forall n exception h h',
    fst (call_endpoint_loop tfe endpoint n exception h)
    = fst (call_endpoint_loop tfe endpoint n exception h').
Proof.
  intros He n. induction n as [|n IH]; intros exception h h'.
  - simpl. destruct exception; reflexivity.
  - simpl. unfold try_except. specialize (He h h').
    destruct (endpoint h) as [o h1], (endpoint h') as [o' h1']. simpl in He. subst o'.
    destruct o as [x | e | msg]; try reflexivity.
    unfold bind, time_sleep. destruct (sleep tfe <? 0); [reflexivity | apply IH].
Qed.

Lemma steady_call_json (tfe : TFEHelper) (r : request) :
  history_independent tfe -> is_mutating (req_endpoint r) = false ->
  steady (call_endpoint tfe (endpoint_json tfe r)).
Proof.
  intros [Hi _] Hr. split.
  - apply steady_call_endpoint_loop. intros h h'. unfold endpoint_json. simpl.
    rewrite (Hi h h'). reflexivity.
  - apply silent_call_endpoint with (r := r); [apply endpoint_json_sends | exact Hr].
Qed.

Lemma steady_call_list (tfe : TFEHelper) (r : request) :
  history_independent tfe -> is_mutating (req_endpoint r) = false ->
  steady (call_endpoint tfe (endpoint_list tfe r)).
Proof.
  intros [_ Hi] Hr. split.
  - apply steady_call_endpoint_loop. intros h h'. unfold endpoint_list. simpl.
    rewrite (Hi h h'). reflexivity.
  - apply silent_call_endpoint with (r := r); [apply endpoint_list_sends | exact Hr].
Qed.

Section Mirrors.
Context {R : Type}.
Variable changed : R -> bool.

Lemma mirrors_ret (c0 : bool) (rc rr : R) :
  (c0 = true -> changed rc = true) -> mirrors changed c0 (ret rc) (ret rr).
Proof.
  intros H hc hr. exists []. split; [simpl; rewrite app_nil_r; reflexivity|].
  intros rc' hc' E [Hc | Hm].
  - unfold ret in E. injection E as <- _. apply H, Hc.
  - exfalso. apply Hm. reflexivity.
Qed.

Lemma mirrors_fail_json (c0 : bool) (msg msg' : string) :
  mirrors changed c0 (fail_json msg) (fail_json msg').
Proof.
  intros hc hr. exists []. split; [simpl; rewrite app_nil_r; reflexivity|].
  intros rc' hc' E. discriminate E.
Qed.

Lemma mirrors_raise (c0 : bool) (e e' : exn) :
  mirrors changed c0 (raise e) (raise e').
Proof.
  intros hc hr. exists []. split; [simpl; rewrite app_nil_r; reflexivity|].
  intros rc' hc' E. discriminate E.
Qed.

Lemma mirrors_bind_steady {A} (c0 : bool) (m : M A) (kc kr : A -> M R) :
  steady m -> (forall x, mirrors changed c0 (kc x) (kr x)) ->
  mirrors changed c0 (bind m kc) (bind m kr).
Proof.
  intros [Hm Sm] Hk hc hr. unfold bind.
  specialize (Hm hc hr). destruct (Sm hr) as [a1 [E1 F1]].
  destruct (m hc) as [o hc1], (m hr) as [o' hr1]. simpl in Hm, E1. subst o' hr1.
  destruct o as [x | e | msg].
  - destruct (Hk x hc1 (hr ++ a1)%list) as [a2 [E2 H2]].
    exists (a1 ++ a2)%list. split; [rewrite E2, app_assoc; reflexivity|].
    intros rc hc' E Hc. apply (H2 rc hc' E).
    unfold mutating_calls in *. rewrite filter_app, F1 in Hc. exact Hc.
  - exists a1. split; [reflexivity|]. intros rc hc' E. discriminate E.
  - exists a1. split; [reflexivity|]. intros rc hc' E. discriminate E.
Qed.

Lemma mirrors_try_steady {A} (c0 : bool) (m : M A) (hdc hdr : exn -> M R)
    (kc kr : A -> M R) :
  steady m ->
  (forall e, mirrors changed c0 (hdc e) (hdr e)) ->
  (forall x, mirrors changed c0 (kc x) (kr x)) ->
  mirrors changed c0 (try_except m hdc kc) (try_except m hdr kr).
Proof.
  intros [Hm Sm] Hh Hk hc hr. unfold try_except.
  specialize (Hm hc hr). destruct (Sm hr) as [a1 [E1 F1]].
  destruct (m hc) as [o hc1], (m hr) as [o' hr1]. simpl in Hm, E1. subst o' hr1.
  destruct o as [x | e | msg].
  - destruct (Hk x hc1 (hr ++ a1)%list) as [a2 [E2 H2]].
    exists (a1 ++ a2)%list. split; [rewrite E2, app_assoc; reflexivity|].
    intros rc hc' E Hc. apply (H2 rc hc' E).
    unfold mutating_calls in *. rewrite filter_app, F1 in Hc. exact Hc.
  - destruct (Hh e hc1 (hr ++ a1)%list) as [a2 [E2 H2]].
    exists (a1 ++ a2)%list. split; [rewrite E2, app_assoc; reflexivity|].
    intros rc hc' E Hc. apply (H2 rc hc' E).
    unfold mutating_calls in *. rewrite filter_app, F1 in Hc. exact Hc.
  - exists a1. split; [reflexivity|]. intros rc hc' E. discriminate E.
Qed.

Lemma mirrors_bind (c0 : bool) (mc mr : M R) (kc kr : R -> M R) :
  mirrors changed c0 mc mr ->
  (forall rc rr, mirrors changed (changed rc) (kc rc) (kr rr)) ->
  mirrors changed c0 (bind mc kc) (bind mr kr).
Proof.
  intros Hm Hk hc hr. unfold bind.
  destruct (Hm hc hr) as [a1 [E1 H1]].
  destruct (mc hc) as [oc hc1], (mr hr) as [or hr1]. simpl in E1. subst hr1.
  destruct oc as [rc1 | e | msg].
  - destruct or as [rr1 | e | msg].
    + destruct (Hk rc1 rr1 hc1 (hr ++ a1)%list) as [a2 [E2 H2]].
      exists (a1 ++ a2)%list. split; [rewrite E2, app_assoc; reflexivity|].
      intros rc hc' E Hc. apply (H2 rc hc' E).
      unfold mutating_calls in *. rewrite filter_app in Hc.
      destruct (filter (event_endpoint_is is_mutating) a1) as [|ev rest] eqn:F.
      * destruct Hc as [Hc | Hc]; [|right; exact Hc].
        left. apply (H1 rc1 hc1 eq_refl). left. exact Hc.
      * left. apply (H1 rc1 hc1 eq_refl). right. discriminate.
    + exists a1. split; [reflexivity|].
      intros rc hc' E Hc.
      destruct (Hk rc1 rc1 hc1 hr) as [a2 [_ H2]].
      apply (H2 rc hc' E). left. apply (H1 rc1 hc1 eq_refl Hc).
    + exists a1. split; [reflexivity|].
      intros rc hc' E Hc.
      destruct (Hk rc1 rc1 hc1 hr) as [a2 [_ H2]].
      apply (H2 rc hc' E). left. apply (H1 rc1 hc1 eq_refl Hc).
  - destruct or as [rr1 | e' | msg'].
    + destruct (Hk rr1 rr1 hc1 (hr ++ a1)%list) as [a2 [E2 _]].
      exists (a1 ++ a2)%list. split; [rewrite E2, app_assoc; reflexivity|].
      intros rc hc' E. discriminate E.
    + exists a1. split; [reflexivity|]. intros rc hc' E. discriminate E.
    + exists a1. split; [reflexivity|]. intros rc hc' E. discriminate E.
  - destruct or as [rr1 | e' | msg'].
    + destruct (Hk rr1 rr1 hc1 (hr ++ a1)%list) as [a2 [E2 _]].
      exists (a1 ++ a2)%list. split; [rewrite E2, app_assoc; reflexivity|].
      intros rc hc' E. discriminate E.
    + exists a1. split; [reflexivity|]. intros rc hc' E. discriminate E.
    + exists a1. split; [reflexivity|]. intros rc hc' E. discriminate E.
Qed.

End Mirrors.

Lemma workspace_mirrors_act (c0 : bool) (tfe : TFEHelper) (pc pr : tfe_workspace.params)
    (r r' : request) (msg msg' : exn -> string) (rc rr : tfe_workspace.result) :
  tfe_workspace.check_mode pc = true ->
  mirrors tfe_workspace.changed c0
    (tfe_workspace.act tfe pc r msg rc) (tfe_workspace.act tfe pr r' msg' rr).
Proof.
  intros Hcheck hc hr.
  destruct (@workspace_act_one_call is_mutating tfe pr r' msg' rr hr) as [a [E _]].
  exists a. split; [exact E|].
  intros rc' hc' Ec _. unfold tfe_workspace.act in Ec. rewrite Hcheck in Ec.
  cbv in Ec. injection Ec as <- _. reflexivity.
Qed.

Lemma vcs_mirrors_act (c0 : bool) (tfe : TFEHelper) (pc pr : tfe_vcs_connection.params)
    (r r' : request) (msg msg' : exn -> string) (rc rr : tfe_vcs_connection.result) :
  tfe_vcs_connection.check_mode pc = true ->
  mirrors tfe_vcs_connection.changed c0
    (tfe_vcs_connection.act tfe pc r msg rc) (tfe_vcs_connection.act tfe pr r' msg' rr).
Proof.
  intros Hcheck hc hr.
  destruct (@vcs_act_one_call is_mutating tfe pr r' msg' rr hr) as [a [E _]].
  exists a. split; [exact E|].
  intros rc' hc' Ec _. unfold tfe_vcs_connection.act in Ec. rewrite Hcheck in Ec.
  cbv in Ec. injection Ec as <- _. reflexivity.
Qed.

Ltac steady_run Hi :=
  repeat first
    [ apply steady_ret
    | apply steady_raise
    | apply steady_fail_json
    | apply steady_lift
    | apply steady_call_json; [exact Hi | reflexivity]
    | apply steady_call_list; [exact Hi | reflexivity]
    | apply steady_bind; [| intros ?]
    | apply steady_try_except; [| intros ? | intros ?]
    | match goal with
      | |- steady (match ?x with _ => _ end) => destruct x
      end ].

Ltac mirror_run Hi Hcheck :=
  repeat first
    [ apply mirrors_ret; simpl; intros ?; first [assumption | discriminate]
    | apply mirrors_fail_json
    | apply mirrors_raise
    | apply workspace_mirrors_act; exact Hcheck
    | apply vcs_mirrors_act; exact Hcheck
    | apply mirrors_bind_steady; [solve [steady_run Hi] | intros ?]
    | apply mirrors_try_steady; [solve [steady_run Hi] | intros ? | intros ?]
    | apply mirrors_bind; [| intros ? ?]
    | match goal with
      | |- mirrors _ _ (match ?x with _ => _ end) _ => destruct x
      end ].

Lemma workspace_check_mirrors_real (tfe : TFEHelper) (p : tfe_workspace.params) :
  history_independent tfe ->
  tfe_workspace.check_mode p = true ->
  mirrors tfe_workspace.changed false
    (tfe_workspace.main tfe p) (tfe_workspace.main tfe (workspace_real_run p)).
Proof.
  intros Hi Hcheck.
  unfold tfe_workspace.main, tfe_workspace.reconcile, tfe_workspace.destroy_step,
    tfe_workspace.update_step, tfe_workspace.update_attributes,
    tfe_workspace.process_locked, tfe_workspace.process_ssh_key,
    tfe_workspace.create_step, tfe_workspace.get_workspace_id,
    tfe_workspace.get_ssh_key_id, get_org_name_when_exists.
  unfold workspace_real_run.
  cbn [tfe_workspace.organization tfe_workspace.workspace tfe_workspace.state
       tfe_workspace.locked tfe_workspace.lock_reason tfe_workspace.ssh_key
       tfe_workspace.attributes].
  cbv zeta.
  mirror_run Hi Hcheck.
Qed.

Lemma vcs_check_mirrors_real (tfe : TFEHelper) (p : tfe_vcs_connection.params) :
  history_independent tfe ->
  tfe_vcs_connection.check_mode p = true ->
  mirrors tfe_vcs_connection.changed false
    (tfe_vcs_connection.main tfe p) (tfe_vcs_connection.main tfe (vcs_real_run p)).
Proof.
  intros Hi Hcheck.
  unfold tfe_vcs_connection.main, tfe_vcs_connection.reconcile,
    tfe_vcs_connection.destroy_step, tfe_vcs_connection.update_step,
    tfe_vcs_connection.create_step, tfe_vcs_connection.get_client_id,
    get_org_name_when_exists.
  unfold vcs_real_run.
  cbn [tfe_vcs_connection.organization tfe_vcs_connection.state
       tfe_vcs_connection.client tfe_vcs_connection.attributes].
  cbv zeta.
  mirror_run Hi Hcheck.
Qed.

Lemma mirrors_from_start {R} (changed : R -> bool) (mc mr : M R) (r : R) :
  mirrors changed false mc mr ->
  mutating_calls (snd (mr [])) <> [] ->
  fst (mc []) = Ret r ->
  changed r = true.
Proof.
  intros H Hm Hr. destruct (H [] []) as [a [E Ha]].
  rewrite E in Hm. simpl in Hm.
  destruct (mc []) as [o l] eqn:Ec. simpl in Hr. subst o.
  apply (Ha r l eq_refl). right. exact Hm.
Qed.

Lemma silent_from_start {A} (m : M A) :
  silent is_mutating m -> mutating_calls (snd (m [])) = [].
Proof. intros H. destruct (H []) as [a [E Ha]]. rewrite E. exact Ha. Qed.

(** ** Invariants of the results a run returns *)

Lemma returns_ret {A} (x : A) (P : A -> Prop) : P x -> returns (ret x) P.
Proof. intros H h y h' E. unfold ret in E. injection E as <- _. exact H. Qed.

Lemma returns_fail_json {A} (msg : string) (P : A -> Prop) : returns (fail_json msg) P.
Proof. intros h y h' E. discriminate E. Qed.

Lemma returns_raise {A} (e : exn) (P : A -> Prop) : returns (raise e) P.
Proof. intros h y h' E. discriminate E. Qed.

Lemma returns_bind_same {A} (m : M A) (k : A -> M A) (P : A -> Prop) :
  returns m P -> (forall x, P x -> returns (k x) P) -> returns (bind m k) P.
Proof.
  intros Hm Hk h y h' E. unfold bind in E.
  destruct (m h) as [o h1] eqn:Em. destruct o as [x | e | msg]; try discriminate E.
  apply (Hk x (Hm h x h1 Em) h1 y h' E).
Qed.

Lemma returns_bind_any {A B} (m : M A) (k : A -> M B) (P : B -> Prop) :
  (forall x, returns (k x) P) -> returns (bind m k) P.
Proof.
  intros Hk h y h' E. unfold bind in E.
  destruct (m h) as [o h1]. destruct o as [x | e | msg]; try discriminate E.
  apply (Hk x h1 y h' E).
Qed.

Lemma returns_try_any {A B} (m : M A) (handler : exn -> M B) (k : A -> M B)
    (P : B -> Prop) :
  (forall e, returns (handler e) P) -> (forall x, returns (k x) P) ->
  returns (try_except m handler k) P.
Proof.
  intros Hh Hk h y h' E. unfold try_except in E.
  destruct (m h) as [o h1]. destruct o as [x | e | msg]; try discriminate E.
  - apply (Hk x h1 y h' E).
  - apply (Hh e h1 y h' E).
Qed.

Lemma workspace_act_returns (P : tfe_workspace.result -> Prop) (tfe : TFEHelper)
    (p : tfe_workspace.params) (r : request) (msg : exn -> string)
    (result0 : tfe_workspace.result) :
  (forall x, P x -> P (tfe_workspace.set_changed x)) ->
  tfe_workspace.check_mode p = true \/ (forall x v, P x -> P (tfe_workspace.set_json x v)) ->
  P result0 ->
  returns (tfe_workspace.act tfe p r msg result0) P.
Proof.
  intros Hch Hjs H0. unfold tfe_workspace.act.
  apply returns_bind_same; [|intros x Hx; apply returns_ret, Hch, Hx].
  destruct (tfe_workspace.check_mode p) eqn:Ec; simpl; [apply returns_ret, H0|].
  destruct Hjs as [Hjs | Hjs]; [discriminate|].
  apply returns_try_any; [intros e; apply returns_fail_json|].
  intros v. apply returns_ret, Hjs, H0.
Qed.

Lemma vcs_act_returns (P : tfe_vcs_connection.result -> Prop) (tfe : TFEHelper)
    (p : tfe_vcs_connection.params) (r : request) (msg : exn -> string)
    (result0 : tfe_vcs_connection.result) :
  (forall x, P x -> P (tfe_vcs_connection.set_changed x)) ->
  (forall x v, P x -> P (tfe_vcs_connection.set_json x v)) ->
  P result0 ->
  returns (tfe_vcs_connection.act tfe p r msg result0) P.
Proof.
  intros Hch Hjs H0. unfold tfe_vcs_connection.act.
  apply returns_bind_same; [|intros x Hx; apply returns_ret, Hch, Hx].
  destruct (negb _); [|apply returns_ret, H0].
  apply returns_try_any; [intros e; apply returns_fail_json|].
  intros v. apply returns_ret, Hjs, H0.
Qed.

Ltac returns_run :=
  repeat first
    [ apply returns_ret; solve [auto]
    | apply returns_fail_json
    | apply returns_raise
    | apply workspace_act_returns; solve [auto]
    | apply vcs_act_returns; solve [auto]
    | apply returns_bind_same; [| intros ? ?]
    | apply returns_bind_any; intros ?
    | apply returns_try_any; [intros ? | intros ?]
    | match goal with
      | |- returns (match ?x with _ => _ end) _ => destruct x
      end ].

Lemma workspace_reconcile_returns (P : tfe_workspace.result -> Prop) (tfe : TFEHelper)
    (p : tfe_workspace.params) (org : option string) (all_workspaces : list resource)
    (result0 : tfe_workspace.result) :
  (forall x, P x -> P (tfe_workspace.set_changed x)) ->
  tfe_workspace.check_mode p = true \/ (forall x v, P x -> P (tfe_workspace.set_json x v)) ->
  P result0 ->
  returns (tfe_workspace.reconcile tfe p org all_workspaces result0) P.
Proof.
  intros Hch Hjs H0.
  unfold tfe_workspace.reconcile, tfe_workspace.destroy_step,
    tfe_workspace.update_step, tfe_workspace.update_attributes,
    tfe_workspace.process_locked, tfe_workspace.process_ssh_key,
    tfe_workspace.create_step.
  returns_run.
Qed.

Lemma vcs_reconcile_returns (P : tfe_vcs_connection.result -> Prop) (tfe : TFEHelper)
    (p : tfe_vcs_connection.params) (org : option string)
    (all_oauth_clients : list resource) (result0 : tfe_vcs_connection.result) :
  (forall x, P x -> P (tfe_vcs_connection.set_changed x)) ->
  (forall x v, P x -> P (tfe_vcs_connection.set_json x v)) ->
  P result0 ->
  returns (tfe_vcs_connection.reconcile tfe p org all_oauth_clients result0) P.
Proof.
  intros Hch Hjs H0.
  unfold tfe_vcs_connection.reconcile, tfe_vcs_connection.destroy_step,
    tfe_vcs_connection.update_step, tfe_vcs_connection.create_step.
  cbv zeta. returns_run.
Qed.

(** ** What a check-mode run reports *)

Lemma quiet_ret {A} (x : A) : quiet (ret x).
Proof. intros h. reflexivity. Qed.

Lemma quiet_raise {A} (e : exn) : quiet (@raise A e).
Proof. intros h. reflexivity. Qed.

Lemma quiet_fail_json {A} (msg : string) : quiet (@fail_json A msg).
Proof. intros h. reflexivity. Qed.

Lemma quiet_lift {A} (r : res A) : quiet (lift r).
Proof. destruct r; [apply quiet_raise | apply quiet_ret]. Qed.

Lemma quiet_bind {A B} (m : M A) (k : A -> M B) :
  quiet m -> (forall x, quiet (k x)) -> quiet (bind m k).
Proof.
  intros Hm Hk h. unfold bind. specialize (Hm h).
  destruct (m h) as [o h1]. simpl in Hm. subst h1.
  destruct o as [x | e | msg]; [apply Hk | reflexivity | reflexivity].
Qed.

(** In check mode [act] sends nothing and marks the result as changed. *)
Lemma workspace_check_act (tfe : TFEHelper) (p : tfe_workspace.params) (r : request)
    (msg : exn -> string) (result0 : tfe_workspace.result) (h : log) :
  tfe_workspace.check_mode p = true ->
  tfe_workspace.act tfe p r msg result0 h = (Ret (tfe_workspace.set_changed result0), h).
Proof. intros Hc. unfold tfe_workspace.act. rewrite Hc. reflexivity. Qed.

Lemma vcs_check_act (tfe : TFEHelper) (p : tfe_vcs_connection.params) (r : request)
    (msg : exn -> string) (result0 : tfe_vcs_connection.result) (h : log) :
  tfe_vcs_connection.check_mode p = true ->
  tfe_vcs_connection.act tfe p r msg result0 h
  = (Ret (tfe_vcs_connection.set_changed result0), h).
Proof. intros Hc. unfold tfe_vcs_connection.act. rewrite Hc. reflexivity. Qed.

Lemma workspace_check_act_quiet (tfe : TFEHelper) (p : tfe_workspace.params) (r : request)
    (msg : exn -> string) (result0 : tfe_workspace.result) :
  tfe_workspace.check_mode p = true -> quiet (tfe_workspace.act tfe p r msg result0).
Proof. intros Hc h. rewrite workspace_check_act by exact Hc. reflexivity. Qed.

Ltac quiet_run Hcheck :=
  repeat first
    [ apply quiet_ret
    | apply quiet_fail_json
    | apply quiet_raise
    | apply quiet_lift
    | apply workspace_check_act_quiet; exact Hcheck
    | apply quiet_bind; [| intros ?]
    | match goal with
      | |- quiet (match ?x with _ => _ end) => destruct x
      end ].

Lemma check_update_attributes_quiet (tfe : TFEHelper) (p : tfe_workspace.params)
    (org : option string) (all_workspaces : list resource) (workspace_id : string)
    (result0 : tfe_workspace.result) :
  tfe_workspace.check_mode p = true ->
  quiet (tfe_workspace.update_attributes tfe p org all_workspaces workspace_id result0).
Proof. intros Hcheck. unfold tfe_workspace.update_attributes. cbv zeta. quiet_run Hcheck. Qed.

Lemma check_process_locked_quiet (tfe : TFEHelper) (p : tfe_workspace.params)
    (org : option string) (all_workspaces : list resource) (workspace_id : string)
    (result0 : tfe_workspace.result) :
  tfe_workspace.check_mode p = true ->
  quiet (tfe_workspace.process_locked tfe p org all_workspaces workspace_id result0).
Proof. intros Hcheck. unfold tfe_workspace.process_locked. cbv zeta. quiet_run Hcheck. Qed.

(** Once [changed] is set, it stays set. *)
Lemma process_locked_keeps_changed (tfe : TFEHelper) (p : tfe_workspace.params)
    (org : option string) (all_workspaces : list resource) (workspace_id : string)
    (result0 : tfe_workspace.result) :
  tfe_workspace.changed result0 = true ->
  returns (tfe_workspace.process_locked tfe p org all_workspaces workspace_id result0)
    (fun x => tfe_workspace.changed x = true).
Proof.
  intros H0. unfold tfe_workspace.process_locked. cbv zeta.
  assert (Hch : forall x, tfe_workspace.changed x = true ->
                          tfe_workspace.changed (tfe_workspace.set_changed x) = true)
    by (intros; reflexivity).
  assert (Hjs : tfe_workspace.check_mode p = true
                \/ (forall x v, tfe_workspace.changed x = true ->
                                tfe_workspace.changed (tfe_workspace.set_json x v) = true))
    by (right; intros x v Hx; exact Hx).
  returns_run.
Qed.

Lemma process_ssh_key_keeps_changed (tfe : TFEHelper) (p : tfe_workspace.params)
    (org : option string) (all_workspaces : list resource) (workspace_id : string)
    (result0 : tfe_workspace.result) :
  tfe_workspace.changed result0 = true ->
  returns (tfe_workspace.process_ssh_key tfe p org all_workspaces workspace_id result0)
    (fun x => tfe_workspace.changed x = true).
Proof.
  intros H0. unfold tfe_workspace.process_ssh_key. cbv zeta.
  assert (Hch : forall x, tfe_workspace.changed x = true ->
                          tfe_workspace.changed (tfe_workspace.set_changed x) = true)
    by (intros; reflexivity).
  assert (Hjs : tfe_workspace.check_mode p = true
                \/ (forall x v, tfe_workspace.changed x = true ->
                                tfe_workspace.changed (tfe_workspace.set_json x v) = true))
    by (right; intros x v Hx; exact Hx).
  returns_run.
Qed.

Lemma check_update_step_reports (tfe : TFEHelper) (p : tfe_workspace.params)
    (org : option string) (all_workspaces : list resource) (workspace_id : string)
    (w : resource) (h : log) :
  tfe_workspace.check_mode p = true ->
  tfe_workspace.state p = present ->
  tfe_workspace.workspace_with_id all_workspaces workspace_id = inr w ->
  attributes_differ p w \/ lock_differs p w \/ ssh_key_differs tfe p org w h ->
  forall result0 r l,
    tfe_workspace.update_step tfe p org all_workspaces (Some workspace_id) result0 h
    = (Ret r, l) ->
    tfe_workspace.changed r = true.
Proof.
  intros Hcheck Hstate Hw Hdet result0 r l E.
  unfold tfe_workspace.update_step in E. rewrite Hstate in E. unfold bind in E.
  destruct (tfe_workspace.update_attributes tfe p org all_workspaces workspace_id result0 h)
    as [o1 h1] eqn:E1.
  pose proof (@check_update_attributes_quiet tfe p org all_workspaces workspace_id
                result0 Hcheck h) as Hh1.
  rewrite E1 in Hh1. simpl in Hh1. subst h1.
  destruct o1 as [r1 | e1 | m1]; try discriminate E.
  destruct (tfe_workspace.process_locked tfe p org all_workspaces workspace_id r1 h)
    as [o2 h2] eqn:E2.
  pose proof (@check_process_locked_quiet tfe p org all_workspaces workspace_id
                r1 Hcheck h) as Hh2.
  rewrite E2 in Hh2. simpl in Hh2. subst h2.
  destruct o2 as [r2 | e2 | m2]; try discriminate E.
  destruct Hdet as [[attrs [Hattrs Hsub]] | [[locked [cur [Hlocked [Hcur Hdiff]]]]
                   | [key [keys [h' [kid [cur [Hkey [Hlist [Hkid [Hcur Hdiff]]]]]]]]]]].
  - assert (H1 : tfe_workspace.changed r1 = true).
    { unfold tfe_workspace.update_attributes in E1. rewrite Hattrs in E1.
      unfold bind, lift, ret in E1. rewrite Hw, Hsub in E1. cbn [negb] in E1.
      rewrite workspace_check_act in E1 by exact Hcheck.
      injection E1 as <-. reflexivity. }
    apply (@process_ssh_key_keeps_changed tfe p org all_workspaces workspace_id r2
             (@process_locked_keeps_changed tfe p org all_workspaces workspace_id r1 H1
                h r2 h E2) h r l E).
  - assert (H2 : tfe_workspace.changed r2 = true).
    { unfold tfe_workspace.process_locked in E2. rewrite Hlocked in E2.
      unfold bind, lift, ret in E2. rewrite Hw in E2.
      unfold py_getitem in E2. rewrite Hcur in E2. cbv beta iota in E2.
      rewrite Hdiff in E2.
      destruct locked; cbn [andb negb] in E2;
        rewrite workspace_check_act in E2 by exact Hcheck;
        injection E2 as <-; reflexivity. }
    apply (@process_ssh_key_keeps_changed tfe p org all_workspaces workspace_id r2 H2
             h r l E).
  - unfold tfe_workspace.process_ssh_key in E. rewrite Hkey in E.
    unfold try_except in E. rewrite Hlist in E.
    unfold bind in E. rewrite Hkid in E. unfold lift, ret in E. rewrite Hw, Hcur in E.
    destruct kid as [k|].
    + rewrite Hdiff in E. rewrite workspace_check_act in E by exact Hcheck.
      injection E as <- _. reflexivity.
    + rewrite Hdiff in E. rewrite workspace_check_act in E by exact Hcheck.
      injection E as <- _. reflexivity.
Qed.

Lemma workspace_created_needs_name (p : tfe_workspace.params) (org : option string)
    (all_workspaces : list resource) (h : log) :
  tfe_workspace.state p = present ->
  tfe_workspace.get_workspace_id p org all_workspaces h = (Ret None, h) ->
  name_not_in (tfe_workspace.attributes p) = inr false.
Proof.
  intros Hstate. unfold tfe_workspace.get_workspace_id. rewrite Hstate.
  destruct (tfe_workspace.workspace p) as [w|]; unfold bind, lift, ret, raise, fail_json.
  - destruct (any_res (attribute_is "name" (VStr w)) all_workspaces) as [e | [|]];
      try discriminate.
    + destruct (filter_res (attribute_is "name" (VStr w)) all_workspaces) as [e | l0];
        try discriminate.
      destruct (first_res l0); discriminate.
    + destruct (existsb (id_is w) all_workspaces); discriminate.
  - destruct (name_not_in (tfe_workspace.attributes p)) as [e | [|]];
      try discriminate. reflexivity.
Qed.

Lemma workspace_check_mode_reports (tfe : TFEHelper) (p : tfe_workspace.params)
    (org : option string) (all_workspaces : list resource) (h : log)
    (workspace_id : option string) :
  tfe_workspace.check_mode p = true ->
  workspaces_fetched tfe p org all_workspaces h ->
  tfe_workspace.get_workspace_id p org all_workspaces h = (Ret workspace_id, h) ->
  workspace_change_detected tfe p org all_workspaces h workspace_id ->
  (forall r l, tfe_workspace.main tfe p [] = (Ret r, l) -> tfe_workspace.changed r = true)
  /\ (workspace_id = None \/ tfe_workspace.state p = absent ->
      tfe_workspace.main tfe p [] =
      (Ret (tfe_workspace.set_changed (workspace_result0 p org)), h)).
Proof.
  intros Hcheck Hfetch Hid Hdet.
  assert (Hmain : tfe_workspace.main tfe p [] =
    (result1 <- tfe_workspace.destroy_step tfe p org workspace_id (workspace_result0 p org) ;;
     result2 <- tfe_workspace.update_step tfe p org all_workspaces workspace_id result1 ;;
     tfe_workspace.create_step tfe p org workspace_id result2) h).
  { rewrite (workspaces_fetched_main Hfetch).
    unfold tfe_workspace.reconcile. unfold bind at 1. rewrite Hid. reflexivity. }
  rewrite Hmain. clear Hmain.
  unfold workspace_change_detected in Hdet.
  destruct (tfe_workspace.state p) eqn:Hstate; destruct workspace_id as [id|].
  - destruct Hdet as [w [Hw Hd]]. split; [|intros [Hn | Ha]; discriminate].
    intros r l E.
    unfold tfe_workspace.destroy_step, tfe_workspace.create_step in E.
    rewrite Hstate in E. unfold bind, ret in E.
    destruct (tfe_workspace.update_step tfe p org all_workspaces (Some id)
                (workspace_result0 p org) h) as [o2 h2] eqn:Eu.
    destruct o2 as [r2 | e2 | m2]; try discriminate E.
    injection E as <- _.
    apply (@check_update_step_reports tfe p org all_workspaces id w h Hcheck Hstate Hw Hd
             (workspace_result0 p org) r2 h2 Eu).
  - assert (Hexact :
      (result1 <- tfe_workspace.destroy_step tfe p org None (workspace_result0 p org) ;;
       result2 <- tfe_workspace.update_step tfe p org all_workspaces None result1 ;;
       tfe_workspace.create_step tfe p org None result2) h
      = (Ret (tfe_workspace.set_changed (workspace_result0 p org)), h)).
    { unfold tfe_workspace.destroy_step, tfe_workspace.update_step,
        tfe_workspace.create_step.
      rewrite Hstate. unfold bind, lift, ret.
      rewrite (@workspace_created_needs_name p org all_workspaces h Hstate Hid).
      rewrite workspace_check_act by exact Hcheck. reflexivity. }
    rewrite Hexact. split; [|intros _; reflexivity].
    intros r l E. injection E as <- _. reflexivity.
  - assert (Hexact :
      (result1 <- tfe_workspace.destroy_step tfe p org (Some id) (workspace_result0 p org) ;;
       result2 <- tfe_workspace.update_step tfe p org all_workspaces (Some id) result1 ;;
       tfe_workspace.create_step tfe p org (Some id) result2) h
      = (Ret (tfe_workspace.set_changed (workspace_result0 p org)), h)).
    { unfold tfe_workspace.destroy_step, tfe_workspace.update_step,
        tfe_workspace.create_step.
      rewrite Hstate. unfold bind, ret.
      rewrite workspace_check_act by exact Hcheck. reflexivity. }
    rewrite Hexact. split; [|intros _; reflexivity].
    intros r l E. injection E as <- _. reflexivity.
  - destruct Hdet.
Qed.

Lemma vcs_check_mode_reports (tfe : TFEHelper) (p : tfe_vcs_connection.params)
    (org : option string) (all_oauth_clients : list resource) (h : log)
    (client_id : option string) :
  tfe_vcs_connection.check_mode p = true ->
  oauth_clients_fetched tfe p org all_oauth_clients h ->
  tfe_vcs_connection.get_client_id p org all_oauth_clients h = (Ret client_id, h) ->
  vcs_change_detected p all_oauth_clients client_id ->
  (forall r l, tfe_vcs_connection.main tfe p [] = (Ret r, l) ->
               tfe_vcs_connection.changed r = true)
  /\ (client_id = None \/ tfe_vcs_connection.state p = absent ->
      tfe_vcs_connection.main tfe p [] =
      (Ret (tfe_vcs_connection.set_changed (vcs_result0 p org)), h)).
Proof.
  intros Hcheck Hfetch Hid Hdet.
  assert (Hmain : tfe_vcs_connection.main tfe p [] =
    (result1 <- tfe_vcs_connection.destroy_step tfe p org client_id (vcs_result0 p org) ;;
     result2 <- tfe_vcs_connection.update_step tfe p org all_oauth_clients client_id
                  result1 ;;
     tfe_vcs_connection.create_step tfe p org client_id result2) h).
  { rewrite (oauth_clients_fetched_main Hfetch).
    unfold tfe_vcs_connection.reconcile. unfold bind at 1. rewrite Hid. reflexivity. }
  rewrite Hmain. clear Hmain.
  unfold vcs_change_detected in Hdet.
  unfold tfe_vcs_connection.destroy_step, tfe_vcs_connection.update_step,
    tfe_vcs_connection.create_step.
  destruct (tfe_vcs_connection.state p) eqn:Hstate; destruct client_id as [id|].
  - destruct Hdet as [oc [Hoc Hsub]]. split; [|intros [Hn | Ha]; discriminate].
    intros r l. cbv zeta. unfold bind, lift, ret. rewrite Hoc, Hsub. cbn [negb].
    rewrite vcs_check_act by exact Hcheck.
    destruct (call_endpoint tfe
                (endpoint_json tfe (Req oauth_clients_show [("client_id", VStr id)])) h)
      as [o h'].
    destruct o as [shown | e | m]; try discriminate.
    intros E. injection E as <- _. reflexivity.
  - unfold bind, ret. rewrite vcs_check_act by exact Hcheck.
    split; [|intros _; reflexivity].
    intros r l E. injection E as <- _. reflexivity.
  - unfold bind, ret. rewrite vcs_check_act by exact Hcheck.
    split; [|intros _; reflexivity].
    intros r l E. injection E as <- _. reflexivity.
  - destruct Hdet.
Qed.

(** C6: a run of the workspace module or of the VCS connection module in
    check mode makes no mutating call (no create, update, destroy, lock,
    unlock, assign or unassign), whatever the client answers.  And it
    reports what it detects, for every client: once the collection is
    fetched and the identifier resolved, if there is something to destroy,
    to create or to update (attributes that differ, a lock that differs, an
    SSH key that differs), every result handed to [exit_json] says
    [changed=True]; for a destroy or a create the run does end in
    [exit_json], with the seeded result marked as changed and nothing sent
    after the fetch.  Besides, whenever the same invocation without check
    mode, against a client that answers alike, makes a mutating call, the
    check-mode result says [changed=True]. *)
Theorem check_mode_never_mutates :
  (forall (tfe : TFEHelper) (p : tfe_workspace.params),
     tfe_workspace.check_mode p = true ->
     mutating_calls (snd (tfe_workspace.main tfe p [])) = []
     /\ (history_independent tfe ->
         mutating_calls (snd (tfe_workspace.main tfe (workspace_real_run p) [])) <> [] ->
         forall r, fst (tfe_workspace.main tfe p []) = Ret r ->
                   tfe_workspace.changed r = true))
  /\ (forall (tfe : TFEHelper) (p : tfe_vcs_connection.params),
        tfe_vcs_connection.check_mode p = true ->
        mutating_calls (snd (tfe_vcs_connection.main tfe p [])) = []
        /\ (history_independent tfe ->
            mutating_calls (snd (tfe_vcs_connection.main tfe (vcs_real_run p) [])) <> [] ->
            forall r, fst (tfe_vcs_connection.main tfe p []) = Ret r ->
                      tfe_vcs_connection.changed r = true))
  /\ (forall (tfe : TFEHelper) (p : tfe_workspace.params) (org : option string)
             (all_workspaces : list resource) (h : log) (workspace_id : option string),
        tfe_workspace.check_mode p = true ->
        tfe_workspace.required_if p = true ->
        workspaces_fetched tfe p org all_workspaces h ->
        tfe_workspace.get_workspace_id p org all_workspaces h = (Ret workspace_id, h) ->
        workspace_change_detected tfe p org all_workspaces h workspace_id ->
        (forall r l, tfe_workspace.main tfe p [] = (Ret r, l) ->
                     tfe_workspace.changed r = true)
        /\ (workspace_id = None \/ tfe_workspace.state p = absent ->
            tfe_workspace.main tfe p [] =
            (Ret (tfe_workspace.set_changed (workspace_result0 p org)), h)))
  /\ (forall (tfe : TFEHelper) (p : tfe_vcs_connection.params) (org : option string)
             (all_oauth_clients : list resource) (h : log) (client_id : option string),
        tfe_vcs_connection.check_mode p = true ->
        tfe_vcs_connection.required_if p = true ->
        oauth_clients_fetched tfe p org all_oauth_clients h ->
        tfe_vcs_connection.get_client_id p org all_oauth_clients h = (Ret client_id, h) ->
        vcs_change_detected p all_oauth_clients client_id ->
        (forall r l, tfe_vcs_connection.main tfe p [] = (Ret r, l) ->
                     tfe_vcs_connection.changed r = true)
        /\ (client_id = None \/ tfe_vcs_connection.state p = absent ->
            tfe_vcs_connection.main tfe p [] =
            (Ret (tfe_vcs_connection.set_changed (vcs_result0 p org)), h))).
Proof.
  split; [|split; [|split]].
  - intros tfe p Hcheck. split.
    + apply silent_from_start, workspace_check_mode_silent, Hcheck.
    + intros Hi Hm r Hr.
      apply (@mirrors_from_start _ tfe_workspace.changed (tfe_workspace.main tfe p)
               (tfe_workspace.main tfe (workspace_real_run p)) r);
        [apply workspace_check_mirrors_real; assumption | exact Hm | exact Hr].
  - intros tfe p Hcheck. split.
    + apply silent_from_start, vcs_check_mode_silent, Hcheck.
    + intros Hi Hm r Hr.
      apply (@mirrors_from_start _ tfe_vcs_connection.changed
               (tfe_vcs_connection.main tfe p)
               (tfe_vcs_connection.main tfe (vcs_real_run p)) r);
        [apply vcs_check_mirrors_real; assumption | exact Hm | exact Hr].
  - intros tfe p org all_workspaces h workspace_id Hcheck _ Hfetch Hid Hdet.
    apply (@workspace_check_mode_reports tfe p org all_workspaces h workspace_id);
      assumption.
  - intros tfe p org all_oauth_clients h client_id Hcheck _ Hfetch Hid Hdet.
    apply (@vcs_check_mode_reports tfe p org all_oauth_clients h client_id); assumption.
Qed.

Lemma history_independent_answering : history_independent answering_tfe.
Proof. split; intros h h' r; reflexivity. Qed.

Lemma check_mode_never_mutates_witness :
  (mutating_calls (snd (tfe_workspace.main answering_tfe check_update_lock_and_key [])) = []
   /\ tfe_workspace.changed
        {| tfe_workspace.changed := true;
           tfe_workspace.result_state := present;
           tfe_workspace.result_organization := Some "foo";
           tfe_workspace.json := VDict [];
           tfe_workspace.result_workspace := Some "alpha";
           tfe_workspace.result_attributes := Some [("description", VStr "new")] |} = true)
  /\ (mutating_calls (snd (tfe_vcs_connection.main answering_tfe check_remove_client [])) = []
      /\ tfe_vcs_connection.changed
           {| tfe_vcs_connection.changed := true;
              tfe_vcs_connection.result_organization := Some "foo";
              tfe_vcs_connection.result_state := absent;
              tfe_vcs_connection.json := VDict [];
              tfe_vcs_connection.result_client := Some "oc-1";
              tfe_vcs_connection.result_attributes := None |} = true)
  /\ tfe_workspace.main answering_tfe check_remove_alpha [] =
     (Ret (tfe_workspace.set_changed (workspace_result0 check_remove_alpha (Some "foo"))),
      [EvCall (Req orgs_list []);
       EvCall (Req set_org [("org_name", VStr "foo")]);
       EvCall (Req workspaces_list_all [("include", VNone)])])
  /\ tfe_vcs_connection.main answering_tfe check_remove_client [] =
     (Ret (tfe_vcs_connection.set_changed (vcs_result0 check_remove_client (Some "foo"))),
      [EvCall (Req orgs_list []);
       EvCall (Req set_org [("org_name", VStr "foo")]);
       EvCall (Req oauth_clients_list [])]).
Proof.
  destruct check_mode_never_mutates as [Hw [Hv [Hwd Hvd]]].
  split; [|split; [|split]].
  - destruct (Hw answering_tfe check_update_lock_and_key eq_refl) as [H1 H2].
    split; [exact H1|].
    apply H2.
    + apply history_independent_answering.
    + vm_compute. discriminate.
    + reflexivity.
  - destruct (Hv answering_tfe check_remove_client eq_refl) as [H1 H2].
    split; [exact H1|].
    apply H2.
    + apply history_independent_answering.
    + vm_compute. discriminate.
    + reflexivity.
  - destruct (Hwd answering_tfe check_remove_alpha (Some "foo") [workspace_alpha]
                [EvCall (Req orgs_list []);
                 EvCall (Req set_org [("org_name", VStr "foo")]);
                 EvCall (Req workspaces_list_all [("include", VNone)])]
                (Some "ws-u6asykQpV8EKthKw")) as [_ H].
    + reflexivity.
    + reflexivity.
    + exists (VDict []). eexists. eexists. repeat split; reflexivity.
    + reflexivity.
    + exact I.
    + apply H. right. reflexivity.
  - destruct (Hvd answering_tfe check_remove_client (Some "foo")
                [Resource "oc-1" [("name", VStr "github")] [];
                 Resource "oc-2" [("name", VStr "github")] []]
                [EvCall (Req orgs_list []);
                 EvCall (Req set_org [("org_name", VStr "foo")]);
                 EvCall (Req oauth_clients_list [])]
                (Some "oc-1")) as [_ H].
    + reflexivity.
    + reflexivity.
    + exists (VDict []). eexists. eexists. repeat split; reflexivity.
    + reflexivity.
    + exact I.
    + apply H. right. reflexivity.
Defined.

(** ** Listing organizations fails: what the modules do next *)

Lemma call_endpoint_starts {A} (tfe : TFEHelper) (endpoint : M A) (r : request) :
  1 <= retries tfe -> sends endpoint r ->
  adds (call_endpoint tfe endpoint) (fun a => exists rest, a = EvCall r :: rest).
Proof.
  intros Hr Hs h. unfold call_endpoint.
  destruct (Z.to_nat (retries tfe)) as [|n] eqn:En; [lia|].
  simpl. unfold try_except. pose proof (Hs h) as Hh.
  destruct (endpoint h) as [o h1]. simpl in Hh. subst h1.
  destruct o as [x | e | msg];
    try (exists [EvCall r]; split; [reflexivity | exists []; reflexivity]).
  unfold bind, time_sleep. destruct (sleep tfe <? 0).
  - exists [EvCall r]; split; [reflexivity | exists []; reflexivity].
  - destruct (call_endpoint_loop_adds tfe Hs n (Some e)
                ((h ++ [EvCall r]) ++ [EvSleep (sleep tfe)])%list) as [a [E _]].
    exists (EvCall r :: EvSleep (sleep tfe) :: a). split.
    + rewrite E, <- !app_assoc. reflexivity.
    + eexists. reflexivity.
Qed.

Lemma starts_then_adds {A B} (m : M A) (handler : exn -> M B) (k : A -> M B) (ev : event) :
  adds m (fun a => exists rest, a = ev :: rest) ->
  (forall e, adds (handler e) (fun _ => True)) ->
  (forall x, adds (k x) (fun _ => True)) ->
  adds (try_except m handler k) (fun a => exists rest, a = ev :: rest).
Proof.
  intros Hm Hh Hk.
  eapply adds_try_except with (Q := fun _ => True);
    [exact Hm | exact Hh | exact Hk | exact I |].
  intros a1 a2 [rest ->] _. exists (rest ++ a2)%list. reflexivity.
Qed.

(** C9: when [call_endpoint] gives up on listing the organizations (every
    attempt raised), [get_org_name_when_exists] with its default flag
    returns the supplied organization token itself: it neither fails nor
    answers [None].  A module run with accepted parameters then goes on:
    the next request it sends is [set_org] with that unverified token. *)
Theorem org_token_returned_when_listing_fails :
  forall (tfe : TFEHelper) (organization : string) (h h' : log) (e : exn),
    call_endpoint tfe (endpoint_list tfe (Req orgs_list [])) h = (Raise e, h') ->
    get_org_name_when_exists tfe organization true h = (Ret (Some organization), h')
    /\ (h = [] -> 1 <= retries tfe ->
        (forall p : tfe_workspace.params,
           tfe_workspace.required_if p = true ->
           tfe_workspace.organization p = organization ->
           exists rest,
             snd (tfe_workspace.main tfe p [])
             = (h' ++ EvCall (Req set_org [("org_name", VStr organization)]) :: rest)%list)
        /\ (forall p : tfe_vcs_connection.params,
              tfe_vcs_connection.required_if p = true ->
              tfe_vcs_connection.organization p = organization ->
              exists rest,
                snd (tfe_vcs_connection.main tfe p [])
                = (h' ++ EvCall (Req set_org [("org_name", VStr organization)]) :: rest)%list)).
Proof.
  intros tfe organization h h' e Hfail.
  assert (Hret : get_org_name_when_exists tfe organization true h
                 = (Ret (Some organization), h')).
  { unfold get_org_name_when_exists, try_except. rewrite Hfail. reflexivity. }
  split; [exact Hret|].
  intros -> Hretries. split; intros p _ Horg.
  - unfold tfe_workspace.main, bind. rewrite Horg, Hret. cbv zeta.
    match goal with
    | |- exists rest, snd (try_except ?m ?hd ?k h') = _ =>
        assert (Hadds : adds (try_except m hd k)
                          (fun a => exists rest,
                             a = EvCall (Req set_org [("org_name", VStr organization)])
                                   :: rest))
    end.
    { apply starts_then_adds.
      - apply call_endpoint_starts; [exact Hretries | apply endpoint_json_sends].
      - intros e'. apply adds_fail_json. exact I.
      - intros _.
        eapply adds_try_except with (P := fun _ => True) (Q := fun _ => True).
        + eapply adds_weaken; [|intros a _; exact I].
          apply call_endpoint_adds with (r := Req workspaces_list_all [("include", VNone)]).
          apply endpoint_list_sends.
        + intros e'. apply adds_fail_json. exact I.
        + intros all_workspaces. eapply adds_weaken; [|intros a _; exact I].
          apply workspace_reconcile_one_crud.
        + exact I.
        + intros a1 a2 _ _. exact I. }
    destruct (Hadds h') as [a [Ea [rest ->]]]. exists rest. exact Ea.
  - unfold tfe_vcs_connection.main, bind. rewrite Horg, Hret. cbv zeta.
    match goal with
    | |- exists rest, snd (try_except ?m ?hd ?k h') = _ =>
        assert (Hadds : adds (try_except m hd k)
                          (fun a => exists rest,
                             a = EvCall (Req set_org [("org_name", VStr organization)])
                                   :: rest))
    end.
    { apply starts_then_adds.
      - apply call_endpoint_starts; [exact Hretries | apply endpoint_json_sends].
      - intros e'. apply adds_fail_json. exact I.
      - intros _.
        eapply adds_try_except with (P := fun _ => True) (Q := fun _ => True).
        + eapply adds_weaken; [|intros a _; exact I].
          apply call_endpoint_adds with (r := Req oauth_clients_list []).
          apply endpoint_list_sends.
        + intros e'. apply adds_fail_json. exact I.
        + intros all_oauth_clients. eapply adds_weaken; [|intros a _; exact I].
          apply vcs_reconcile_one_mutating.
        + exact I.
        + intros a1 a2 _ _. exact I. }
    destruct (Hadds h') as [a [Ea [rest ->]]]. exists rest. exact Ea.
Qed.

Lemma org_token_returned_when_listing_fails_witness :
  get_org_name_when_exists failing_tfe "foo" true [] =
  (Ret (Some "foo"), retry_trace (Req orgs_list []) 5 3)
  /\ exists rest,
       snd (tfe_workspace.main failing_tfe absent_unknown_workspace [])
       = (retry_trace (Req orgs_list []) 5 3
          ++ EvCall (Req set_org [("org_name", VStr "foo")]) :: rest)%list.
Proof.
  destruct (@org_token_returned_when_listing_fails failing_tfe "foo" []
              (retry_trace (Req orgs_list []) 5 3)
              (Exn "TFCHTTPInternalServerError" "third attempt failed"))
    as [H1 H2].
  - reflexivity.
  - split; [exact H1|].
    destruct H2 as [Hw _]; [reflexivity | simpl; lia |].
    apply (Hw absent_unknown_workspace); reflexivity.
Defined.

(** * Further properties of the helper and of the modules *)

(** ** Retrying *)

Lemma call_endpoint_loop_succeeds (tfe : TFEHelper) (r : request) (v : value) :
  0 <= sleep tfe ->
  forall (k n : nat) (err : nat -> exn) (exception : option exn) (h : log),
    (k < n)%nat ->
    (forall j, (j < k)%nat ->
               api tfe (h ++ retry_trace r (sleep tfe) j)%list r = inl (err j)) ->
    api tfe (h ++ retry_trace r (sleep tfe) k)%list r = inr v ->
    call_endpoint_loop tfe (endpoint_json tfe r) n exception h =
    (Ret v, (h ++ retry_trace r (sleep tfe) k ++ [EvCall r])%list).
Proof.
  intros Hsleep k. induction k as [|k IH]; intros n err exception h Hk Hfail Hok;
    (destruct n as [|n]; [lia|]); simpl; unfold try_except, endpoint_json.
  - simpl in Hok. rewrite app_nil_r in Hok. rewrite Hok. reflexivity.
  - pose proof (Hfail O ltac:(lia)) as H0. simpl in H0. rewrite app_nil_r in H0.
    rewrite H0. unfold bind, time_sleep.
    replace (sleep tfe <? 0) with false by (symmetry; apply Z.ltb_ge; exact Hsleep).
    rewrite (IH n (fun j => err (S j))).
    + rewrite <- !app_assoc. reflexivity.
    + lia.
    + intros j Hj. rewrite <- (Hfail (S j)) by lia.
      rewrite <- !app_assoc. reflexivity.
    + rewrite <- Hok. rewrite <- !app_assoc. reflexivity.
Qed.

(** X1: an operation that fails [k] times and then answers, with [k] below
    [retries], makes [call_endpoint] return that answer after [k+1] calls and
    [k] sleeps: no sleep follows the successful call. *)
Theorem call_endpoint_succeeds_after_failures :
  forall (tfe : TFEHelper) (r : request) (err : nat -> exn) (v : value) (h : log) (k : nat),
    0 <= sleep tfe ->
    (k < Z.to_nat (retries tfe))%nat ->
    (forall j, (j < k)%nat ->
               api tfe (h ++ retry_trace r (sleep tfe) j)%list r = inl (err j)) ->
    api tfe (h ++ retry_trace r (sleep tfe) k)%list r = inr v ->
    call_endpoint tfe (endpoint_json tfe r) h =
    (Ret v, (h ++ retry_trace r (sleep tfe) k ++ [EvCall r])%list)
    /\ List.length (calls (retry_trace r (sleep tfe) k ++ [EvCall r])%list) = S k
    /\ List.length (sleeps (retry_trace r (sleep tfe) k ++ [EvCall r])%list) = k.
Proof.
  intros tfe r err v h k Hsleep Hk Hfail Hok. split; [|split].
  - unfold call_endpoint. apply call_endpoint_loop_succeeds with (err := err); assumption.
  - unfold calls. rewrite filter_app. fold (calls (retry_trace r (sleep tfe) k)).
    rewrite calls_retry_trace, length_app, repeat_length. simpl. lia.
  - unfold sleeps. rewrite filter_app. fold (sleeps (retry_trace r (sleep tfe) k)).
    rewrite sleeps_retry_trace, length_app, repeat_length. simpl. lia.
Qed.

Lemma call_endpoint_succeeds_after_failures_witness :
  call_endpoint flaky_tfe (endpoint_json flaky_tfe (Req workspaces_update [])) [] =
  (Ret (VDict [("data", VStr "ok")]),
   [EvCall (Req workspaces_update []); EvSleep 5; EvCall (Req workspaces_update [])]).
Proof.
  destruct (@call_endpoint_succeeds_after_failures flaky_tfe (Req workspaces_update [])
              (fun _ => Exn "TFCHTTPInternalServerError" "try again")
              (VDict [("data", VStr "ok")]) [] 1%nat) as [H _].
  - simpl. lia.
  - simpl. lia.
  - intros j Hj. assert (j = O) by lia. subst j. reflexivity.
  - reflexivity.
  - exact H.
Defined.

(** X2: with a negative [sleep], the first failure ends the retries:
    [time.sleep] raises a [ValueError] in the [except] branch, which replaces
    the exception of the operation, after one call. *)
Theorem call_endpoint_negative_sleep :
  forall (tfe : TFEHelper) (r : request) (e : exn) (h : log),
    sleep tfe < 0 ->
    1 <= retries tfe ->
    api tfe h r = inl e ->
    call_endpoint tfe (endpoint_json tfe r) h =
    (Raise (ValueError "sleep length must be non-negative"), (h ++ [EvCall r])%list).
Proof.
  intros tfe r e h Hsleep Hretries Hfail. unfold call_endpoint.
  destruct (Z.to_nat (retries tfe)) as [|n] eqn:En; [lia|].
  simpl. unfold try_except, endpoint_json. rewrite Hfail.
  unfold bind, time_sleep.
  replace (sleep tfe <? 0) with true by (symmetry; apply Z.ltb_lt; exact Hsleep).
  reflexivity.
Qed.

Lemma call_endpoint_negative_sleep_witness :
  call_endpoint negative_sleep_tfe
    (endpoint_json negative_sleep_tfe (Req workspaces_destroy [])) [] =
  (Raise (ValueError "sleep length must be non-negative"),
   [EvCall (Req workspaces_destroy [])]).
Proof.
  apply (@call_endpoint_negative_sleep negative_sleep_tfe (Req workspaces_destroy [])
           (nth_error_exn []) []).
  - simpl. lia.
  - simpl. lia.
  - reflexivity.
Defined.

Lemma call_endpoint_loop_budget {A} (tfe : TFEHelper) (endpoint : M A) (r : request) :
  sends endpoint r ->
  forall n exception,
    adds (call_endpoint_loop tfe endpoint n exception)
      (fun a => (List.length (calls a) <= n)%nat
                /\ (List.length (sleeps a) <= List.length (calls a))%nat
                /\ Forall (fun ev => ev = EvCall r \/ ev = EvSleep (sleep tfe)) a).
Proof.
  intros Hs n. induction n as [|n IH]; intros exception h.
  - exists []. split.
    + simpl. destruct exception; simpl; rewrite app_nil_r; reflexivity.
    + simpl. repeat split; [lia | lia | constructor].
  - simpl. unfold try_except. specialize (Hs h).
    destruct (endpoint h) as [o h1]. simpl in Hs. subst h1.
    assert (Hone : (List.length (calls [EvCall r]) <= S n)%nat
                   /\ (List.length (sleeps [EvCall r]) <= List.length (calls [EvCall r]))%nat
                   /\ Forall (fun ev => ev = EvCall r \/ ev = EvSleep (sleep tfe)) [EvCall r]).
    { simpl. repeat split; [lia | lia |]. constructor; [left; reflexivity | constructor]. }
    destruct o as [x | e | msg]; try (exists [EvCall r]; split; [reflexivity | exact Hone]).
    unfold bind, time_sleep. destruct (sleep tfe <? 0).
    + exists [EvCall r]; split; [reflexivity | exact Hone].
    + destruct (IH (Some e) ((h ++ [EvCall r]) ++ [EvSleep (sleep tfe)])%list)
        as [a [E [H1 [H2 H3]]]].
      exists (EvCall r :: EvSleep (sleep tfe) :: a). split.
      * rewrite E. rewrite <- !app_assoc. reflexivity.
      * simpl. repeat split; [lia | lia |].
        constructor; [left; reflexivity|]. constructor; [right; reflexivity | exact H3].
Qed.

(** X3: whatever the client answers, one [call_endpoint] sends its request
    at most [retries] times, sleeps at most once per call, and does nothing
    else. *)
Theorem call_endpoint_budget :
  forall (tfe : TFEHelper) (r : request) (h : log),
  exists a,
    snd (call_endpoint tfe (endpoint_json tfe r) h) = (h ++ a)%list
    /\ (List.length (calls a) <= Z.to_nat (retries tfe))%nat
    /\ (List.length (sleeps a) <= List.length (calls a))%nat
    /\ Forall (fun ev => ev = EvCall r \/ ev = EvSleep (sleep tfe)) a.
Proof.
  intros tfe r h. unfold call_endpoint.
  apply (call_endpoint_loop_budget tfe (endpoint_json_sends tfe r)).
Qed.

(** ** The list normalizer, continued *)

Lemma has_comma_cons (c : ascii) (s : string) :
  has_comma (String c s) = Ascii.eqb c ","%char || has_comma s.
Proof.
  unfold has_comma.
  change (is_substring "," (String c s))
    with (if String.prefix "," (String c s) then true else is_substring "," s).
  change (String.prefix "," (String c s))
    with (if ascii_dec ","%char c then String.prefix "" s else false).
  destruct (ascii_dec ","%char c) as [E | E].
  - subst c. rewrite Ascii.eqb_refl. destruct s; reflexivity.
  - destruct (Ascii.eqb c ","%char) eqn:Ec.
    + apply Ascii.eqb_eq in Ec. subst c. exfalso. apply E. reflexivity.
    + reflexivity.
Qed.

Lemma split_comma_not_nil (s : string) : split_comma s <> [].
Proof.
  induction s as [|c s IH]; simpl; [discriminate|].
  destruct (Ascii.eqb c ","%char); [discriminate|].
  destruct (split_comma s); discriminate.
Qed.

Lemma split_comma_pieces (s : string) :
  Forall (fun piece => has_comma piece = false) (split_comma s).
Proof.
  induction s as [|c s IH]; simpl.
  - constructor; [reflexivity | constructor].
  - destruct (Ascii.eqb c ","%char) eqn:Ec.
    + constructor; [reflexivity | exact IH].
    + destruct (split_comma s) as [|piece pieces]; inversion IH; subst.
      * constructor; [|constructor]. rewrite has_comma_cons, Ec. reflexivity.
      * constructor; [|assumption]. rewrite has_comma_cons, Ec. assumption.
Qed.

Lemma split_comma_two (s : string) :
  has_comma s = true -> (2 <= List.length (split_comma s))%nat.
Proof.
  induction s as [|c s IH]; [discriminate|].
  rewrite has_comma_cons. simpl. destruct (Ascii.eqb c ","%char); simpl.
  - intros _. pose proof (split_comma_not_nil s) as H.
    destruct (split_comma s); [contradiction | simpl; lia].
  - intros H. specialize (IH H). destruct (split_comma s); simpl in *; lia.
Qed.

Lemma split_comma_without_comma (s : string) :
  has_comma s = false -> split_comma s = [s].
Proof.
  induction s as [|c s IH]; [reflexivity|].
  rewrite has_comma_cons. simpl. destruct (Ascii.eqb c ","%char); simpl; [discriminate|].
  intros H. rewrite (IH H). reflexivity.
Qed.

Lemma lstrip_no_comma (s : string) : has_comma s = false -> has_comma (lstrip s) = false.
Proof.
  induction s as [|c s IH]; [reflexivity|].
  intros H. simpl. destruct (is_space c); [|exact H].
  rewrite has_comma_cons in H. apply orb_false_iff in H as [_ H]. apply IH, H.
Qed.

Lemma rstrip_no_comma (s : string) : has_comma s = false -> has_comma (rstrip s) = false.
Proof.
  induction s as [|c s IH]; [reflexivity|].
  intros H. rewrite has_comma_cons in H. apply orb_false_iff in H as [Hc H].
  specialize (IH H). simpl. destruct (rstrip s) as [|c' r].
  - destruct (is_space c); [reflexivity|]. rewrite has_comma_cons, Hc. reflexivity.
  - rewrite has_comma_cons, Hc. exact IH.
Qed.

Lemma strip_no_comma (s : string) : has_comma s = false -> has_comma (strip s) = false.
Proof. intros H. apply rstrip_no_comma, lstrip_no_comma, H. Qed.

Lemma pieces_no_comma (l : list string) :
  Forall (fun x => has_comma x = false) (pieces l).
Proof.
  unfold pieces. apply Forall_forall. intros x Hx.
  apply in_flat_map in Hx as [element [_ Hx]].
  apply in_map_iff in Hx as [piece [<- Hp]].
  apply strip_no_comma.
  pose proof (split_comma_pieces element) as H. rewrite Forall_forall in H. apply H, Hp.
Qed.

Lemma filter_all {A} (f : A -> bool) (l : list A) :
  Forall (fun x => f x = true) l -> filter f l = l.
Proof.
  induction 1 as [|x l Hx _ IH]; simpl; [reflexivity|]. rewrite Hx, IH. reflexivity.
Qed.

Lemma filter_none {A} (f : A -> bool) (l : list A) :
  Forall (fun x => f x = false) l -> filter f l = [].
Proof.
  induction 1 as [|x l Hx _ IH]; simpl; [reflexivity|]. rewrite Hx, IH. reflexivity.
Qed.

Lemma listify_without_comma (l : list string) :
  Forall (fun x => has_comma x = false) l ->
  listify_comma_sep_strings_in_list l =
  inr (if list_eq_dec string_dec l [EmptyString] then [] else l).
Proof.
  intros H. rewrite listify_spec. cbv zeta. unfold pieces.
  rewrite (filter_none has_comma H). simpl. rewrite app_nil_r.
  rewrite filter_all; [reflexivity|].
  apply Forall_forall. intros x Hx. rewrite Forall_forall in H. rewrite (H x Hx). reflexivity.
Qed.

Lemma pieces_two (l : list string) :
  filter has_comma l <> [] -> (2 <= List.length (pieces l))%nat.
Proof.
  unfold pieces. destruct (filter has_comma l) as [|element rest] eqn:E; [contradiction|].
  intros _. simpl. rewrite length_app, length_map.
  assert (Hc : has_comma element = true).
  { assert (Hin : In element (filter has_comma l)) by (rewrite E; left; reflexivity).
    apply filter_In in Hin as [_ Hin]. exact Hin. }
  pose proof (split_comma_two element Hc). lia.
Qed.

(** X4: the normalizer always returns, its result has no element with a
    comma and is never [[""]], and normalizing the result again changes
    nothing. *)
Theorem listify_idempotent :
  forall some_list : list string,
  exists normalized,
    listify_comma_sep_strings_in_list some_list = inr normalized
    /\ Forall (fun x => has_comma x = false) normalized
    /\ normalized <> [EmptyString]
    /\ listify_comma_sep_strings_in_list normalized = inr normalized.
Proof.
  intros some_list. rewrite listify_spec. eexists. split; [reflexivity|]. cbv zeta.
  assert (Hm : Forall (fun x => has_comma x = false)
                 (filter (fun s => negb (has_comma s)) some_list ++ pieces some_list)%list).
  { apply Forall_app. split; [|apply pieces_no_comma].
    apply Forall_forall. intros x Hx. apply filter_In in Hx as [_ Hx].
    apply negb_true_iff in Hx. exact Hx. }
  destruct (list_eq_dec string_dec _ _) as [E | E].
  - split; [constructor|]. split; [discriminate | reflexivity].
  - split; [exact Hm|]. split; [exact E|].
    rewrite (listify_without_comma Hm).
    destruct (list_eq_dec string_dec _ _); [contradiction | reflexivity].
Qed.

Lemma listify_nil_cases (some_list : list string) :
  listify_comma_sep_strings_in_list some_list = inr []
  <-> some_list = [] \/ some_list = [EmptyString].
Proof.
  split.
  - rewrite listify_spec. cbv zeta. intros H.
    destruct (filter has_comma some_list) as [|element rest] eqn:Ef.
    + assert (Hn : Forall (fun x => has_comma x = false) some_list).
      { apply Forall_forall. intros x Hx. destruct (has_comma x) eqn:Ex; [|reflexivity].
        assert (Hin : In x (filter has_comma some_list)) by (apply filter_In; auto).
        rewrite Ef in Hin. destruct Hin. }
      assert (Hp : pieces some_list = []) by (unfold pieces; rewrite Ef; reflexivity).
      rewrite Hp, app_nil_r in H.
      rewrite filter_all in H
        by (apply Forall_forall; intros x Hx; rewrite Forall_forall in Hn;
            rewrite (Hn x Hx); reflexivity).
      destruct (list_eq_dec string_dec some_list [EmptyString]) as [E | E].
      * right. exact E.
      * left. inversion H. reflexivity.
    + exfalso.
      assert (Hp : (2 <= List.length (pieces some_list))%nat)
        by (apply pieces_two; rewrite Ef; discriminate).
      destruct (list_eq_dec string_dec _ _) as [E | E].
      * apply (f_equal (@List.length string)) in E. rewrite length_app in E. simpl in E. lia.
      * inversion H as [H']. apply (f_equal (@List.length string)) in H'.
        rewrite length_app in H'. simpl in H'. lia.
  - intros [-> | ->]; reflexivity.
Qed.

(** X5: the result of the normalizer is empty for the inputs [[]] and
    [[""]] and for no other. *)
Theorem listify_empty_iff :
  forall some_list : list string,
    listify_comma_sep_strings_in_list some_list = inr []
    <-> some_list = [] \/ some_list = [EmptyString].
Proof.
  intros some_list. apply listify_nil_cases.
Qed.

(** X6: a list without commas is returned as it is (unless it is [[""]]):
    elements are neither stripped, reordered nor deduplicated; and a comma
    separated element is replaced by its stripped pieces, put at the end. *)
Theorem listify_keeps_plain_elements :
  forall some_list : list string,
    Forall (fun x => has_comma x = false) some_list ->
    some_list <> [EmptyString] ->
    listify_comma_sep_strings_in_list some_list = inr some_list
    /\ forall element,
         has_comma element = true ->
         listify_comma_sep_strings_in_list (element :: some_list)
         = inr (some_list ++ map strip (split_comma element))%list.
Proof.
  intros some_list H Hne. split.
  - rewrite (listify_without_comma H).
    destruct (list_eq_dec string_dec _ _); [contradiction | reflexivity].
  - intros element He. rewrite listify_spec. cbv zeta. unfold pieces. simpl.
    rewrite He. simpl. rewrite (filter_none has_comma H). simpl. rewrite app_nil_r.
    rewrite filter_all
      by (apply Forall_forall; intros x Hx; rewrite Forall_forall in H;
          rewrite (H x Hx); reflexivity).
    destruct (list_eq_dec string_dec _ _) as [E | E]; [|reflexivity].
    exfalso. apply (f_equal (@List.length string)) in E.
    rewrite length_app, length_map in E. simpl in E.
    pose proof (split_comma_two element He). lia.
Qed.

Lemma listify_keeps_plain_elements_witness :
  listify_comma_sep_strings_in_list ["b"; " a"; "b"] = inr ["b"; " a"; "b"]
  /\ listify_comma_sep_strings_in_list ["x , y,x"; "b"; " a"; "b"]
     = inr ["b"; " a"; "b"; "x"; "y"; "x"].
Proof.
  destruct (@listify_keeps_plain_elements ["b"; " a"; "b"]) as [H1 H2].
  - repeat constructor.
  - discriminate.
  - split; [exact H1|]. apply (H2 "x , y,x"). reflexivity.
Defined.

(** X7: the list of runs [tfe_run_info.main] works with is never empty: it
    is [["*"]] exactly when the stripped parameter normalizes to nothing,
    that is for [[]] and for one blank element, and the normalized list
    otherwise. *)
Theorem tfe_run_info_runs_never_empty :
  forall run : list string,
  exists runs,
    tfe_run_info_runs run = inr runs
    /\ runs <> []
    /\ (map strip run = [] \/ map strip run = [EmptyString] -> runs = ["*"])
    /\ (~ (map strip run = [] \/ map strip run = [EmptyString]) ->
        listify_comma_sep_strings_in_list (map strip run) = inr runs).
Proof.
  intros run. unfold tfe_run_info_runs.
  pose proof (listify_nil_cases (map strip run)) as Hiff.
  destruct (listify_comma_sep_strings_in_list (map strip run)) as [e | normalized] eqn:E.
  { rewrite listify_spec in E. discriminate E. }
  destruct normalized as [|x rest].
  - exists ["*"]. split; [reflexivity|]. split; [discriminate|]. split; [reflexivity|].
    intros Hn. exfalso. apply Hn, Hiff. reflexivity.
  - exists (x :: rest). split; [reflexivity|]. split; [discriminate|]. split.
    + intros H. apply Hiff in H. discriminate H.
    + reflexivity.
Qed.

(** ** The comparator, continued *)

Lemma is_subset_dict_true (sub sup : list (string * value)) :
  is_subset (VDict sub) (VDict sup) = inr true
  <-> Forall (fun kv => exists v', dict_get sup (fst kv) = Some v'
                                   /\ is_subset (snd kv) v' = inr true) sub.
Proof.
  induction sub as [|[k v] rest IH].
  - split; [constructor | reflexivity].
  - rewrite is_subset_dict_cons. simpl py_contains. simpl py_getitem. unfold dict_has.
    destruct (dict_get sup k) as [v'|] eqn:Eg.
    + destruct (is_subset v v') as [e | [|]] eqn:Ev.
      * split; [discriminate|]. intros H. inversion H as [|? ? [x [Hx1 Hx2]] _]; subst.
        simpl in Hx1. rewrite Eg in Hx1. inversion Hx1; subst. simpl in Hx2. congruence.
      * rewrite IH. split.
        -- intros H. constructor; [exists v'; auto | exact H].
        -- intros H. inversion H; assumption.
      * split; [discriminate|]. intros H. inversion H as [|? ? [x [Hx1 Hx2]] _]; subst.
        simpl in Hx1. rewrite Eg in Hx1. inversion Hx1; subst. simpl in Hx2. congruence.
    + split; [discriminate|]. intros H. inversion H as [|? ? [x [Hx1 Hx2]] _]; subst.
      simpl in Hx1. rewrite Eg in Hx1. discriminate.
Qed.

(** X8: a proposed dict is a subset of an observed dict exactly when every
    proposed key is an observed key whose observed value the proposed value
    is a subset of; a proposed key that is missing gives [False], not a
    [KeyError]. *)
Theorem is_subset_of_dict :
  forall sub sup : list (string * value),
    (is_subset (VDict sub) (VDict sup) = inr true
     <-> Forall (fun kv => exists v', dict_get sup (fst kv) = Some v'
                                      /\ is_subset (snd kv) v' = inr true) sub)
    /\ forall k v rest,
         dict_get sup k = None ->
         is_subset (VDict ((k, v) :: rest)) (VDict sup) = inr false.
Proof.
  intros sub sup. split; [apply is_subset_dict_true|].
  intros k v rest H. rewrite is_subset_dict_cons. simpl. unfold dict_has.
  rewrite H. reflexivity.
Qed.

Lemma is_subset_of_dict_witness :
  is_subset (VDict [("name", VStr "alpha"); ("locked", VBool true)])
            (VDict [("locked", VBool false)]) = inr false.
Proof.
  destruct (is_subset_of_dict [] [("locked", VBool false)]) as [_ H].
  apply H. reflexivity.
Defined.

(** X9: only the proposed keys are looked at: two observed dicts that agree
    on the keys of the proposed dict give the same answer, whatever else
    they hold and in whatever order. *)
Theorem is_subset_reads_proposed_keys_only :
  forall sub sup sup' : list (string * value),
    (forall kv, In kv sub -> dict_get sup (fst kv) = dict_get sup' (fst kv)) ->
    is_subset (VDict sub) (VDict sup) = is_subset (VDict sub) (VDict sup').
Proof.
  intros sub sup sup'. induction sub as [|[k v] rest IH]; intros H; [reflexivity|].
  rewrite !is_subset_dict_cons. simpl py_contains. simpl py_getitem. unfold dict_has.
  pose proof (H (k, v) (or_introl eq_refl)) as Hk. simpl in Hk. rewrite <- Hk.
  destruct (dict_get sup k) as [v'|]; [|reflexivity].
  destruct (is_subset v v') as [e | [|]]; try reflexivity.
  apply IH. intros kv Hkv. apply H. right. exact Hkv.
Qed.

Lemma is_subset_reads_proposed_keys_only_witness :
  is_subset (VDict [("name", VStr "alpha")])
            (VDict [("name", VStr "alpha")])
  = is_subset (VDict [("name", VStr "alpha")])
              (VDict [("locked", VBool true); ("name", VStr "alpha"); ("vcs-repo", VNone)]).
Proof.
  apply is_subset_reads_proposed_keys_only.
  intros kv [<- | []]. reflexivity.
Defined.

Lemma any_res_error {A} (cond : A -> res bool) (l : list A) (e : exn) :
  any_res cond l = inl e -> exists x, In x l /\ cond x = inl e.
Proof.
  induction l as [|x l IH]; simpl; [discriminate|].
  destruct (cond x) as [e' | [|]] eqn:E.
  - intros H. inversion H; subst. exists x. split; [left; reflexivity | exact E].
  - discriminate.
  - intros H. destruct (IH H) as [y [Hy1 Hy2]]. exists y. split; [right; exact Hy1 | exact Hy2].
Qed.

(** X10: the only exception [is_subset] raises is a [TypeError]: never a
    [KeyError] for a missing key, whatever the two values are. *)
Theorem is_subset_raises_type_error_only :
  forall (subset superset : value) (e : exn),
    is_subset subset superset = inl e -> exn_class e = "TypeError".
Proof.
  intros subset. induction subset as [| b | z | f | s | l IH | d IH] using value_ind;
    intros superset e; try (simpl; discriminate).
  - induction IH as [|subitem rest Hsub _ IHrest]; [simpl; discriminate|].
    rewrite is_subset_list_cons.
    destruct (py_iter superset) as [e' | superitems] eqn:Ei.
    + intros H. inversion H; subst.
      destruct superset; simpl in Ei; inversion Ei; reflexivity.
    + destruct (any_res (is_subset subitem) superitems) as [e' | [|]] eqn:Ea.
      * intros H. inversion H; subst.
        apply any_res_error in Ea as [x [_ Hx]]. apply (Hsub x e Hx).
      * exact IHrest.
      * discriminate.
  - induction IH as [|[key val] rest Hval _ IHrest]; [simpl; discriminate|].
    rewrite is_subset_dict_cons.
    destruct (py_contains superset key) as [e' | [|]] eqn:Ec.
    + intros H. inversion H; subst.
      destruct superset; simpl in Ec; inversion Ec; reflexivity.
    + destruct (py_getitem superset key) as [e' | sup] eqn:Eg.
      * intros H. inversion H; subst.
        destruct superset; simpl in Ec, Eg; try discriminate;
          try (inversion Eg; reflexivity).
        unfold dict_has in Ec. destruct (dict_get d key); discriminate.
      * simpl in Hval.
        destruct (is_subset val sup) as [e' | [|]] eqn:Ev.
        -- intros H. inversion H; subst. apply (Hval sup e Ev).
        -- exact IHrest.
        -- discriminate.
    + discriminate.
Qed.

Lemma is_subset_raises_type_error_only_witness :
  exn_class (TypeError "string indices must be integers") = "TypeError".
Proof.
  apply (@is_subset_raises_type_error_only (VDict [("a", VInt 1)]) (VStr "cab")).
  reflexivity.
Defined.


Lemma any_res_scalar (x : value) (l : list value) :
  is_scalar x = true -> any_res (is_subset x) l = inr (existsb (py_eq x) l).
Proof.
  intros Hx. induction l as [|y l IH]; [reflexivity|].
  simpl. rewrite is_subset_scalar by exact Hx.
  destruct (py_eq x y); [reflexivity | exact IH].
Qed.

Lemma is_subset_scalars_forallb :
  forall subitems superitems : list value,
    Forall (fun x => is_scalar x = true) subitems ->
    is_subset (VList subitems) (VList superitems)
    = inr (forallb (fun x => existsb (py_eq x) superitems) subitems).
Proof.
  intros subitems superitems H. induction H as [|x rest Hx _ IH]; [reflexivity|].
  rewrite is_subset_list_cons. cbn [py_iter]. rewrite any_res_scalar by exact Hx.
  simpl forallb. destruct (existsb (py_eq x) superitems); [exact IH | reflexivity].
Qed.

(** X11: for a proposed list of scalars against an observed list, the answer
    is whether every proposed element equals some observed element: neither
    the order nor the number of occurrences matters, and nothing is raised. *)
Theorem is_subset_list_of_scalars :
  forall subitems superitems : list value,
    Forall (fun x => is_scalar x = true) subitems ->
    is_subset (VList subitems) (VList superitems)
    = inr (forallb (fun x => existsb (py_eq x) superitems) subitems).
Proof.
  exact is_subset_scalars_forallb.
Qed.

Lemma is_subset_list_of_scalars_witness :
  is_subset (VList [VStr "b"; VInt 1; VStr "b"]) (VList [VInt 1; VStr "a"; VStr "b"])
  = inr true.
Proof.
  apply (@is_subset_list_of_scalars [VStr "b"; VInt 1; VStr "b"]
           [VInt 1; VStr "a"; VStr "b"]).
  repeat constructor.
Defined.

Lemma float_eqb_refl (f : spec_float) : f <> S754_nan -> float_eqb f f = true.
Proof.
  intros Hf. destruct f as [s | s | | s m e]; simpl.
  - reflexivity.
  - apply Bool.eqb_reflx.
  - contradiction Hf. reflexivity.
  - unfold float_eqb, dyadic_eqb. simpl. apply Z.eqb_refl.
Qed.

Lemma py_eq_refl_scalar (x : value) :
  is_scalar x = true -> is_nan x = false -> py_eq x x = true.
Proof.
  destruct x as [| b | z | f | s | |]; simpl; try discriminate; intros _ Hn.
  - reflexivity.
  - apply Bool.eqb_reflx.
  - apply Z.eqb_refl.
  - apply float_eqb_refl. intros ->. discriminate Hn.
  - apply String.eqb_refl.
Qed.

Lemma plain_dict (d : list (string * value)) :
  plain (VDict d) = distinct_keys d && forallb (fun kv => plain (snd kv)) d.
Proof.
  simpl. f_equal. induction d as [|[k x] rest IH]; [reflexivity|].
  simpl. rewrite IH. reflexivity.
Qed.

Lemma dict_get_distinct (d : list (string * value)) (k : string) (v : value) :
  distinct_keys d = true -> In (k, v) d -> dict_get d k = Some v.
Proof.
  induction d as [|[k' v'] rest IH]; intros Hd Hin; [destruct Hin|].
  simpl in Hd. apply andb_true_iff in Hd as [Hk Hd]. simpl.
  destruct Hin as [E | Hin].
  - inversion E; subst. rewrite String.eqb_refl. reflexivity.
  - destruct (String.eqb k' k) eqn:Ek; [|apply IH; assumption].
    exfalso. apply String.eqb_eq in Ek. subst k'.
    apply negb_true_iff in Hk.
    assert (Hex : existsb (fun kv => String.eqb (fst kv) k) rest = true).
    { apply existsb_exists. exists (k, v). split; [exact Hin | apply String.eqb_refl]. }
    congruence.
Qed.

Lemma is_subset_refl_plain (v : value) : plain v = true -> is_subset v v = inr true.
Proof.
  induction v as [| b | z | f | s | l IH | d IH] using value_ind; intros Hp;
    try (simpl; reflexivity);
    try (simpl; f_equal; first [apply Bool.eqb_reflx | apply Z.eqb_refl | apply String.eqb_refl]).
  - simpl. f_equal. apply float_eqb_refl. intros ->. discriminate Hp.
  - simpl in Hp. rewrite forallb_forall in Hp.
    assert (Hs : forall x, In x l -> is_scalar x = true /\ is_nan x = false).
    { intros x Hx. specialize (Hp x Hx). apply andb_true_iff in Hp as [H1 H2].
      apply negb_true_iff in H2. auto. }
    rewrite is_subset_scalars_forallb by (apply Forall_forall; intros x Hx; apply Hs, Hx).
    f_equal. apply forallb_forall. intros x Hx. apply existsb_exists.
    exists x. split; [exact Hx | apply py_eq_refl_scalar; apply Hs, Hx].
  - rewrite plain_dict in Hp. apply andb_true_iff in Hp as [Hd Hp].
    rewrite forallb_forall in Hp. rewrite Forall_forall in IH.
    apply is_subset_dict_true. apply Forall_forall. intros [k x] Hin.
    exists x. split.
    + apply dict_get_distinct; assumption.
    + apply (IH (k, x) Hin), (Hp (k, x) Hin).
Qed.

(** X12: a value that holds no NaN and whose lists hold scalars only is a
    subset of itself.  Otherwise it need not be: with a list that mixes
    scalars and dicts, comparing the dict with the scalar raises a
    [TypeError]; and a NaN is not equal to itself, so a value that holds one
    is no subset of itself. *)
Theorem is_subset_reflexive_on_plain :
  (forall v : value, plain v = true -> is_subset v v = inr true)
  /\ is_subset (VList [VInt 5; VDict [("a", VInt 1)]])
               (VList [VInt 5; VDict [("a", VInt 1)]])
     = inl (TypeError "argument of type 'int' is not iterable")
  /\ is_subset (VDict [("x", float_nan)]) (VDict [("x", float_nan)]) = inr false
  /\ is_subset (VList [float_nan]) (VList [float_nan]) = inr false.
Proof. split; [apply is_subset_refl_plain | repeat split; reflexivity]. Qed.

Lemma is_subset_reflexive_on_plain_witness :
  is_subset (VDict [("name", VStr "alpha"); ("tag-names", VList [VStr "a"; VStr "b"]);
                    ("vcs-repo", VDict [("branch", VStr ""); ("ingress-submodules", VBool false)])])
            (VDict [("name", VStr "alpha"); ("tag-names", VList [VStr "a"; VStr "b"]);
                    ("vcs-repo", VDict [("branch", VStr ""); ("ingress-submodules", VBool false)])])
  = inr true.
Proof.
  destruct is_subset_reflexive_on_plain as [H _]. apply H. reflexivity.
Defined.

(** ** Removing duplicates from the run information *)

Lemma assoc_set_keys {V} (d : list (string * V)) (k : string) (v : V) :
  map fst (assoc_set d k v) =
  if existsb (fun kv => String.eqb (fst kv) k) d then map fst d
  else (map fst d ++ [k])%list.
Proof.
  induction d as [|[k' v'] rest IH]; [reflexivity|].
  simpl. destruct (String.eqb k' k) eqn:E; simpl; [reflexivity|].
  rewrite IH. destruct (existsb _ rest); reflexivity.
Qed.

Lemma not_in_keys {V} (d : list (string * V)) (k : string) :
  existsb (fun kv => String.eqb (fst kv) k) d = false -> ~ In k (map fst d).
Proof.
  intros H Hin. apply in_map_iff in Hin as [[k' v'] [E Hin]]. simpl in E. subst k'.
  assert (Hex : existsb (fun kv => String.eqb (fst kv) k) d = true).
  { apply existsb_exists. exists (k, v'). split; [exact Hin | apply String.eqb_refl]. }
  congruence.
Qed.

Lemma assoc_set_new {V} (d : list (string * V)) (k : string) (v : V) :
  ~ In k (map fst d) -> assoc_set d k v = (d ++ [(k, v)])%list.
Proof.
  induction d as [|[k' v'] rest IH]; intros H; [reflexivity|].
  simpl. destruct (String.eqb k' k) eqn:E.
  - exfalso. apply String.eqb_eq in E. subst k'. apply H. left. reflexivity.
  - rewrite IH; [reflexivity|]. intros Hin. apply H. right. exact Hin.
Qed.

Lemma assoc_set_nodup {V} (d : list (string * V)) (k : string) (v : V) :
  NoDup (map fst d) -> NoDup (map fst (assoc_set d k v)).
Proof.
  intros H. rewrite assoc_set_keys.
  destruct (existsb _ d) eqn:E; [exact H|].
  apply NoDup_app; [exact H | constructor; [intros [] | constructor] |].
  intros x Hx [Ek | []]. subst x. apply (not_in_keys d k E Hx).
Qed.

Lemma assoc_set_in {V} (d : list (string * V)) (k : string) (v : V) (kv : string * V) :
  In kv (assoc_set d k v) -> kv = (k, v) \/ In kv d.
Proof.
  induction d as [|[k' v'] rest IH]; simpl.
  - intros [<- | []]. left. reflexivity.
  - destruct (String.eqb k' k) eqn:E.
    + apply String.eqb_eq in E. subst k'. intros [<- | H]; [left; reflexivity | right; right; exact H].
    + intros [<- | H]; [right; left; reflexivity|].
      destruct (IH H) as [-> | H']; [left; reflexivity | right; right; exact H'].
Qed.

Lemma assoc_set_has {V} (d : list (string * V)) (k : string) (v : V) :
  NoDup (map fst d) -> In (k, v) (assoc_set d k v).
Proof.
  induction d as [|[k' v'] rest IH]; intros H; simpl; [left; reflexivity|].
  destruct (String.eqb k' k) eqn:E.
  - apply String.eqb_eq in E. subst k'. left. reflexivity.
  - right. apply IH. inversion H; assumption.
Qed.

Lemma assoc_set_other {V} (d : list (string * V)) (k : string) (v : V) (kv : string * V) :
  In kv d -> fst kv <> k -> In kv (assoc_set d k v).
Proof.
  induction d as [|[k' v'] rest IH]; intros Hin Hne; [destruct Hin|].
  simpl. destruct (String.eqb k' k) eqn:E.
  - apply String.eqb_eq in E. subst k'.
    destruct Hin as [<- | Hin]; [exfalso; apply Hne; reflexivity | right; exact Hin].
  - destruct Hin as [<- | Hin]; [left; reflexivity | right; apply IH; assumption].
Qed.

Lemma by_id_keyed (items : list resource) (d : list (string * resource)) :
  keyed_by_id d ->
  keyed_by_id (fold_left (fun d v => assoc_set d (r_id v) v) items d).
Proof.
  revert d. induction items as [|x items IH]; intros d H; [exact H|].
  simpl. apply IH. destruct H as [H1 H2]. split.
  - apply assoc_set_nodup, H1.
  - apply Forall_forall. intros kv Hkv. apply assoc_set_in in Hkv as [-> | Hkv].
    + reflexivity.
    + rewrite Forall_forall in H2. apply H2, Hkv.
Qed.

Lemma by_id_from (items : list resource) (d : list (string * resource)) (kv : string * resource) :
  In kv (fold_left (fun d v => assoc_set d (r_id v) v) items d) ->
  In kv d \/ In (snd kv) items.
Proof.
  revert d. induction items as [|x items IH]; intros d H; [left; exact H|].
  simpl in H. apply IH in H as [H | H]; [|right; right; exact H].
  apply assoc_set_in in H as [-> | H]; [right; left; reflexivity | left; exact H].
Qed.

Lemma by_id_keeps_keys (items : list resource) (d : list (string * resource)) (k : string) :
  In k (map fst d) ->
  In k (map fst (fold_left (fun d v => assoc_set d (r_id v) v) items d)).
Proof.
  revert d. induction items as [|x items IH]; intros d H; [exact H|].
  simpl. apply IH. rewrite assoc_set_keys.
  destruct (existsb _ d); [exact H | apply in_or_app; left; exact H].
Qed.

Lemma by_id_has_keys (items : list resource) (d : list (string * resource)) (x : resource) :
  keyed_by_id d -> In x items ->
  In (r_id x) (map fst (fold_left (fun d v => assoc_set d (r_id v) v) items d)).
Proof.
  revert d. induction items as [|y items IH]; intros d Hd Hin; [destruct Hin|].
  simpl. assert (Hd' : keyed_by_id (assoc_set d (r_id y) y))
    by (apply (by_id_keyed [y] Hd)).
  destruct Hin as [-> | Hin]; [|apply IH; assumption].
  apply by_id_keeps_keys. apply in_map_iff. exists (r_id x, x).
  split; [reflexivity | apply assoc_set_has, Hd].
Qed.

Lemma by_id_last (post : list resource) (d : list (string * resource)) (x : resource) :
  In (r_id x, x) d ->
  Forall (fun y => r_id y <> r_id x) post ->
  In (r_id x, x) (fold_left (fun d v => assoc_set d (r_id v) v) post d).
Proof.
  revert d. induction post as [|y post IH]; intros d Hin Hpost; [exact Hin|].
  simpl. inversion Hpost; subst. apply IH; [|assumption].
  apply assoc_set_other; [exact Hin|]. simpl. intros E. congruence.
Qed.

Lemma by_id_distinct (items : list resource) (d : list (string * resource)) :
  NoDup (map fst d ++ map r_id items)%list ->
  fold_left (fun d v => assoc_set d (r_id v) v) items d
  = (d ++ map (fun x => (r_id x, x)) items)%list.
Proof.
  revert d. induction items as [|x items IH]; intros d H; simpl.
  - rewrite app_nil_r. reflexivity.
  - assert (Hx : ~ In (r_id x) (map fst d)).
    { intros Hin. apply NoDup_remove_2 in H. apply H. apply in_or_app. left. exact Hin. }
    rewrite assoc_set_new by exact Hx. rewrite IH.
    + rewrite <- app_assoc. reflexivity.
    + rewrite map_app. simpl. rewrite <- app_assoc. exact H.
Qed.

Lemma keyed_ids (d : list (string * resource)) :
  keyed_by_id d -> map r_id (map snd d) = map fst d.
Proof.
  intros [_ H]. induction H as [|kv d Hkv _ IH]; [reflexivity|].
  simpl. rewrite Hkv, IH. reflexivity.
Qed.

Lemma remove_duplicates_distinct (items : list resource) :
  NoDup (map r_id items) -> remove_duplicates items = items.
Proof.
  intros H. unfold remove_duplicates, by_id. rewrite by_id_distinct by exact H.
  simpl. rewrite map_map. simpl. apply map_id.
Qed.

(** X13: the last step of [tfe_run_info.main] leaves one item per [id]: the
    ids of the result are pairwise distinct, every item of the result is an
    item of the input, no [id] is lost, and of the items that share an [id]
    the last one is kept.  A list without repeated ids is left as it is, so
    the step changes nothing when applied twice. *)
Theorem remove_duplicates_by_id :
  forall items : list resource,
    NoDup (map r_id (remove_duplicates items))
    /\ (forall x, In x (remove_duplicates items) -> In x items)
    /\ (forall x, In x items -> In (r_id x) (map r_id (remove_duplicates items)))
    /\ (forall pre x post,
          items = (pre ++ x :: post)%list ->
          Forall (fun y => r_id y <> r_id x) post ->
          In x (remove_duplicates items))
    /\ (NoDup (map r_id items) -> remove_duplicates items = items)
    /\ remove_duplicates (remove_duplicates items) = remove_duplicates items.
Proof.
  intros items.
  assert (Hnil : keyed_by_id []) by (split; constructor).
  assert (Hk : keyed_by_id (by_id items)) by (apply by_id_keyed, Hnil).
  assert (Hnodup : NoDup (map r_id (remove_duplicates items))).
  { unfold remove_duplicates. rewrite (keyed_ids Hk). apply Hk. }
  split; [exact Hnodup|]. split; [|split; [|split; [|split]]].
  - intros x Hx. unfold remove_duplicates in Hx. apply in_map_iff in Hx as [kv [<- Hkv]].
    apply by_id_from in Hkv as [[] | Hkv]. exact Hkv.
  - intros x Hx. unfold remove_duplicates. rewrite (keyed_ids Hk).
    apply by_id_has_keys; assumption.
  - intros pre x post -> Hpost. unfold remove_duplicates, by_id.
    rewrite fold_left_app. simpl. apply in_map_iff. exists (r_id x, x).
    split; [reflexivity|]. apply by_id_last; [|exact Hpost].
    apply assoc_set_has. apply (by_id_keyed pre Hnil).
  - apply remove_duplicates_distinct.
  - apply remove_duplicates_distinct, Hnodup.
Qed.

Lemma remove_duplicates_by_id_witness :
  In (Resource "run-2" [("message", VStr "second copy")] [])
     (remove_duplicates
        [Resource "run-2" [("message", VStr "first copy")] [];
         Resource "run-1" [] [];
         Resource "run-2" [("message", VStr "second copy")] []])
  /\ remove_duplicates [Resource "run-1" [] []; Resource "run-2" [] []]
     = [Resource "run-1" [] []; Resource "run-2" [] []].
Proof.
  split.
  - destruct (remove_duplicates_by_id
                [Resource "run-2" [("message", VStr "first copy")] [];
                 Resource "run-1" [] [];
                 Resource "run-2" [("message", VStr "second copy")] []])
      as [_ [_ [_ [H _]]]].
    apply (H [Resource "run-2" [("message", VStr "first copy")] []; Resource "run-1" [] []]
             (Resource "run-2" [("message", VStr "second copy")] []) []).
    + reflexivity.
    + constructor.
  - destruct (remove_duplicates_by_id [Resource "run-1" [] []; Resource "run-2" [] []])
      as [_ [_ [_ [_ [H _]]]]].
    apply H. simpl. repeat constructor; simpl; intuition discriminate.
Defined.


(** ** Resolving identifiers *)

Lemma attribute_is_have (key : string) (v : value) (o : resource) :
  dict_has (r_attributes o) key = true ->
  attribute_is key v o = inr (attribute_eqb key v o).
Proof.
  unfold dict_has, attribute_is, attribute_eqb.
  destruct (dict_get (r_attributes o) key); [reflexivity | discriminate].
Qed.

Lemma any_res_have (key : string) (v : value) (l : list resource) :
  all_have key l ->
  any_res (attribute_is key v) l = inr (existsb (attribute_eqb key v) l).
Proof.
  induction 1 as [|o l Ho _ IH]; [reflexivity|].
  simpl. rewrite (attribute_is_have key v o Ho).
  destruct (attribute_eqb key v o); [reflexivity | exact IH].
Qed.

Lemma filter_res_have (key : string) (v : value) (l : list resource) :
  all_have key l ->
  filter_res (attribute_is key v) l = inr (filter (attribute_eqb key v) l).
Proof.
  induction 1 as [|o l Ho _ IH]; [reflexivity|].
  simpl. rewrite (attribute_is_have key v o Ho), IH. reflexivity.
Qed.

Lemma first_filter_find {A} (f : A -> bool) (l : list A) :
  first_res (filter f l) =
  match find f l with
  | Some x => inr x
  | None => inl (IndexError "list index out of range")
  end.
Proof.
  induction l as [|x l IH]; [reflexivity|].
  simpl. destruct (f x); [reflexivity | exact IH].
Qed.

Lemma existsb_find {A} (f : A -> bool) (l : list A) :
  existsb f l = match find f l with Some _ => true | None => false end.
Proof.
  induction l as [|x l IH]; [reflexivity|].
  simpl. destruct (f x); [reflexivity | exact IH].
Qed.

Lemma find_id_is (i : string) (l : list resource) (o : resource) :
  find (id_is i) l = Some o -> r_id o = i.
Proof.
  intros H. apply find_some in H as [_ H]. apply String.eqb_eq in H. exact H.
Qed.

(** X14: when the organizations are listed and each carries an
    [external-id], the token is resolved to the [id] of the first
    organization with that [external-id]; failing that, to the token itself
    when it is the [id] of an organization; and to [None] otherwise.  An
    organization without [external-id] in front of any match makes the
    lookup raise a [KeyError]. *)
Theorem organization_resolved_by_external_id_first :
  forall (tfe : TFEHelper) (organization : string) (flag : bool)
         (h h' : log) (orgs : list resource),
    call_endpoint tfe (endpoint_list tfe (Req orgs_list [])) h = (Ret orgs, h') ->
    (all_have "external-id" orgs ->
     get_org_name_when_exists tfe organization flag h =
     (Ret match find (attribute_eqb "external-id" (VStr organization)) orgs with
          | Some o => Some (r_id o)
          | None => if existsb (id_is organization) orgs then Some organization else None
          end, h'))
    /\ (forall o rest,
          orgs = o :: rest ->
          dict_get (r_attributes o) "external-id" = None ->
          get_org_name_when_exists tfe organization flag h
          = (Raise (KeyError "external-id"), h')).
Proof.
  intros tfe organization flag h h' orgs Hlist. split.
  - intros Hall. unfold get_org_name_when_exists, try_except. rewrite Hlist.
    unfold bind at 1. rewrite (any_res_have (VStr organization) Hall).
    rewrite existsb_find.
    destruct (find (attribute_eqb "external-id" (VStr organization)) orgs) as [o|] eqn:Ef.
    + simpl lift at 1. unfold ret at 1. unfold bind.
      rewrite (filter_res_have (VStr organization) Hall).
      simpl lift at 1. unfold ret at 1.
      rewrite first_filter_find, Ef. reflexivity.
    + simpl lift at 1. unfold ret at 1. unfold bind at 1. unfold ret at 1.
      rewrite existsb_find.
      destruct (find (id_is organization) orgs) as [o|] eqn:Ei; [|reflexivity].
      unfold bind. rewrite first_filter_find, Ei. simpl.
      rewrite (find_id_is _ _ Ei). reflexivity.
  - intros o rest -> Hmiss. unfold get_org_name_when_exists, try_except. rewrite Hlist.
    unfold bind at 1. simpl any_res. unfold attribute_is at 1. rewrite Hmiss. reflexivity.
Qed.

Lemma organization_resolved_by_external_id_first_witness :
  get_org_name_when_exists answering_tfe "org-XYZ" true [] =
  (Ret (Some "foo"), [EvCall (Req orgs_list [])]).
Proof.
  destruct (@organization_resolved_by_external_id_first answering_tfe "org-XYZ" true []
              [EvCall (Req orgs_list [])]
              [Resource "foo" [("external-id", VStr "org-XYZ")] []]) as [H _].
  - reflexivity.
  - apply H. repeat constructor.
Defined.

Lemma filter_find_none {A} (f : A -> bool) (l : list A) :
  find f l = None -> filter f l = [].
Proof.
  induction l as [|x l IH]; [reflexivity|].
  simpl. destruct (f x); [discriminate | exact IH].
Qed.

Lemma filter_find_some {A} (f : A -> bool) (l : list A) (x : A) :
  find f l = Some x -> exists rest, filter f l = x :: rest.
Proof.
  induction l as [|y l IH]; [discriminate|].
  simpl. destruct (f y).
  - intros H. inversion H; subst. eexists. reflexivity.
  - exact IH.
Qed.

Lemma get_workspace_id_by_name :
  forall (p : tfe_workspace.params) (org : option string) (all_workspaces : list resource)
         (w : string) (h : log),
    tfe_workspace.workspace p = Some w ->
    all_have "name" all_workspaces ->
    tfe_workspace.get_workspace_id p org all_workspaces h =
    (match find (attribute_eqb "name" (VStr w)) all_workspaces with
     | Some w0 => Ret (Some (r_id w0))
     | None =>
         if existsb (id_is w) all_workspaces then Ret (Some w)
         else match tfe_workspace.state p with
              | present =>
                  FailJson ("The supplied " ++ quoted w ++ " workspace does not exist in "
                            ++ quoted (py_str org) ++ " organization.")
              | absent => Ret None
              end
     end, h).
Proof.
  intros p org all_workspaces w h Hw Hall.
  unfold tfe_workspace.get_workspace_id. rewrite Hw.
  unfold bind at 1. rewrite (any_res_have (VStr w) Hall), existsb_find.
  destruct (find (attribute_eqb "name" (VStr w)) all_workspaces) as [w0|] eqn:Ef.
  - simpl lift at 1. unfold ret at 1. unfold bind.
    rewrite (filter_res_have (VStr w) Hall). simpl lift at 1. unfold ret at 1.
    rewrite first_filter_find, Ef. reflexivity.
  - simpl lift at 1. unfold ret at 1.
    destruct (existsb (id_is w) all_workspaces); [reflexivity|].
    destruct (tfe_workspace.state p); reflexivity.
Qed.

(** X15: the workspace module resolves its [workspace] parameter by name
    before ID: the ID of the first workspace with that name, else the token
    itself when it is the ID of a workspace, else nothing, which is fatal
    for [state=present] only.  No [IndexError] can come out of the lookup. *)
Theorem workspace_resolved_by_name_first :
  forall (p : tfe_workspace.params) (org : option string) (all_workspaces : list resource)
         (w : string) (h : log),
    tfe_workspace.workspace p = Some w ->
    all_have "name" all_workspaces ->
    tfe_workspace.get_workspace_id p org all_workspaces h =
    (match find (attribute_eqb "name" (VStr w)) all_workspaces with
     | Some w0 => Ret (Some (r_id w0))
     | None =>
         if existsb (id_is w) all_workspaces then Ret (Some w)
         else match tfe_workspace.state p with
              | present =>
                  FailJson ("The supplied " ++ quoted w ++ " workspace does not exist in "
                            ++ quoted (py_str org) ++ " organization.")
              | absent => Ret None
              end
     end, h).
Proof.
  exact get_workspace_id_by_name.
Qed.

Lemma workspace_resolved_by_name_first_witness :
  tfe_workspace.get_workspace_id update_lock_and_key (Some "foo")
    [Resource "alpha" [("name", VStr "beta")] []; workspace_alpha] []
  = (Ret (Some "ws-u6asykQpV8EKthKw"), []).
Proof.
  apply (@workspace_resolved_by_name_first update_lock_and_key (Some "foo")
           [Resource "alpha" [("name", VStr "beta")] []; workspace_alpha] "alpha" []).
  - reflexivity.
  - repeat constructor.
Defined.

Lemma get_client_id_by_id :
  forall (p : tfe_vcs_connection.params) (org : option string)
         (all_oauth_clients : list resource) (client : string) (h : log),
    tfe_vcs_connection.client p = Some client ->
    all_have "name" all_oauth_clients ->
    tfe_vcs_connection.get_client_id p org all_oauth_clients h =
    (match find (id_is client) all_oauth_clients with
     | Some _ => Ret (Some client)
     | None =>
         match filter (attribute_eqb "name" (VStr client)) all_oauth_clients with
         | [] =>
             match tfe_vcs_connection.state p with
             | present => FailJson (tfe_vcs_connection.does_not_exist_msg client org)
             | absent => Ret None
             end
         | [oc] => Ret (Some (r_id oc))
         | _ :: _ :: _ => FailJson (tfe_vcs_connection.multiple_matches_msg client org)
         end
     end, h).
Proof.
  intros p org all_oauth_clients client h Hc Hall.
  unfold tfe_vcs_connection.get_client_id. rewrite Hc.
  destruct (find (id_is client) all_oauth_clients) as [oc|] eqn:Ef.
  - destruct (filter_find_some _ _ Ef) as [rest Er]. rewrite Er.
    unfold bind, lift, first_res, ret. rewrite (find_id_is _ _ Ef). reflexivity.
  - rewrite (filter_find_none _ _ Ef).
    unfold bind at 1 2. rewrite (filter_res_have (VStr client) Hall).
    simpl lift at 1. unfold ret at 1.
    destruct (filter (attribute_eqb "name" (VStr client)) all_oauth_clients)
      as [|oc [|oc' rest]] eqn:En.
    + simpl. destruct (tfe_vcs_connection.state p); reflexivity.
    + reflexivity.
    + reflexivity.
Qed.

(** X16: the VCS connection module resolves its [client] parameter by ID
    before name: a client with that ID wins; else the only client with that
    name; two or more clients with that name are fatal; none is fatal for
    [state=present] only. *)
Theorem client_resolved_by_id_first :
  forall (p : tfe_vcs_connection.params) (org : option string)
         (all_oauth_clients : list resource) (client : string) (h : log),
    tfe_vcs_connection.client p = Some client ->
    all_have "name" all_oauth_clients ->
    tfe_vcs_connection.get_client_id p org all_oauth_clients h =
    (match find (id_is client) all_oauth_clients with
     | Some _ => Ret (Some client)
     | None =>
         match filter (attribute_eqb "name" (VStr client)) all_oauth_clients with
         | [] =>
             match tfe_vcs_connection.state p with
             | present => FailJson (tfe_vcs_connection.does_not_exist_msg client org)
             | absent => Ret None
             end
         | [oc] => Ret (Some (r_id oc))
         | _ :: _ :: _ => FailJson (tfe_vcs_connection.multiple_matches_msg client org)
         end
     end, h).
Proof.
  exact get_client_id_by_id.
Qed.

Lemma client_resolved_by_id_first_witness :
  tfe_vcs_connection.get_client_id github_twice (Some "foo")
    [Resource "oc-1" [("name", VStr "github")] [];
     Resource "github" [("name", VStr "gitlab")] []] []
  = (Ret (Some "github"), []).
Proof.
  apply (@client_resolved_by_id_first github_twice (Some "foo")
           [Resource "oc-1" [("name", VStr "github")] [];
            Resource "github" [("name", VStr "gitlab")] []] "github" []).
  - reflexivity.
  - repeat constructor.
Defined.

(** ** The workspace module: nothing to do, creation, missing attributes *)

(** X17: for [state=present] on a workspace found by name whose current
    attributes already include the requested ones, with neither [locked] nor
    [ssh_key] given, the module exits with [changed=False] and the seeded
    result, and makes no call after the fetch, in check mode or not. *)
Theorem workspace_up_to_date_is_left_alone :
  forall (tfe : TFEHelper) (p : tfe_workspace.params) (org : option string)
         (all_workspaces : list resource) (h : log) (w : string)
         (attrs : list (string * value)) (w0 w1 : resource),
    workspaces_fetched tfe p org all_workspaces h ->
    tfe_workspace.state p = present ->
    tfe_workspace.workspace p = Some w ->
    tfe_workspace.attributes p = Some attrs ->
    tfe_workspace.locked p = None ->
    tfe_workspace.ssh_key p = None ->
    all_have "name" all_workspaces ->
    find (attribute_eqb "name" (VStr w)) all_workspaces = Some w0 ->
    find (id_is (r_id w0)) all_workspaces = Some w1 ->
    is_subset (VDict attrs) (VDict (r_attributes w1)) = inr true ->
    tfe_workspace.main tfe p [] = (Ret (workspace_result0 p org), h)
    /\ tfe_workspace.changed (workspace_result0 p org) = false
    /\ mutating_calls h = [].
Proof.
  intros tfe p org all_workspaces h w attrs w0 w1
    Hfetch Hstate Hw Hattrs Hlocked Hkey Hall Hname Hid Hsub.
  split; [|split; [reflexivity | apply (workspaces_fetched_silent Hfetch)]].
  rewrite (workspaces_fetched_main Hfetch).
  unfold tfe_workspace.reconcile. unfold bind at 1.
  rewrite (get_workspace_id_by_name p org h Hw Hall), Hname.
  unfold tfe_workspace.destroy_step, tfe_workspace.update_step, tfe_workspace.create_step,
    tfe_workspace.update_attributes, tfe_workspace.process_locked,
    tfe_workspace.process_ssh_key, tfe_workspace.workspace_with_id.
  rewrite Hstate, Hattrs, Hlocked, Hkey, first_filter_find, Hid.
  unfold bind, lift, ret. rewrite Hsub. reflexivity.
Qed.

Lemma workspace_up_to_date_is_left_alone_witness :
  tfe_workspace.main answering_tfe keep_alpha [] =
  (Ret (workspace_result0 keep_alpha (Some "foo")),
   [EvCall (Req orgs_list []);
    EvCall (Req set_org [("org_name", VStr "foo")]);
    EvCall (Req workspaces_list_all [("include", VNone)])]).
Proof.
  apply (@workspace_up_to_date_is_left_alone answering_tfe keep_alpha (Some "foo")
           [workspace_alpha] _ "alpha" [("description", VStr "old")]
           workspace_alpha workspace_alpha).
  - exists (VDict []). eexists. eexists. repeat split; reflexivity.
  - reflexivity.
  - reflexivity.
  - reflexivity.
  - reflexivity.
  - reflexivity.
  - repeat constructor.
  - reflexivity.
  - reflexivity.
  - reflexivity.
Defined.

(** X18: parameters without [workspace] and without [attributes] are accepted
    when [locked] or [ssh_key] is given; the run then ends, after the fetch,
    in an uncaught [TypeError] from ['name' not in attributes], not in a
    [fail_json] message. *)
Theorem workspace_without_name_or_attributes_raises :
  forall (tfe : TFEHelper) (p : tfe_workspace.params) (org : option string)
         (all_workspaces : list resource) (h : log),
    tfe_workspace.required_if p = true ->
    workspaces_fetched tfe p org all_workspaces h ->
    tfe_workspace.workspace p = None ->
    tfe_workspace.attributes p = None ->
    tfe_workspace.state p = present
    /\ (tfe_workspace.locked p <> None \/ tfe_workspace.ssh_key p <> None)
    /\ tfe_workspace.main tfe p [] =
       (Raise (TypeError "argument of type 'NoneType' is not iterable"), h).
Proof.
  intros tfe p org all_workspaces h Hreq Hfetch Hw Hattrs.
  split; [|split].
  - unfold tfe_workspace.required_if in Hreq. rewrite Hw in Hreq.
    destruct (tfe_workspace.state p); [reflexivity | discriminate Hreq].
  - unfold tfe_workspace.required_if in Hreq. rewrite Hw, Hattrs in Hreq.
    destruct (tfe_workspace.state p); [|discriminate Hreq].
    destruct (tfe_workspace.locked p) as [b|]; [left; discriminate|].
    destruct (tfe_workspace.ssh_key p) as [k|]; [right; discriminate | discriminate Hreq].
  - rewrite (workspaces_fetched_main Hfetch).
    unfold tfe_workspace.reconcile, tfe_workspace.get_workspace_id.
    rewrite Hw, Hattrs. reflexivity.
Qed.

Lemma workspace_without_name_or_attributes_raises_witness :
  tfe_workspace.main answering_tfe lock_nothing [] =
  (Raise (TypeError "argument of type 'NoneType' is not iterable"),
   [EvCall (Req orgs_list []);
    EvCall (Req set_org [("org_name", VStr "foo")]);
    EvCall (Req workspaces_list_all [("include", VNone)])]).
Proof.
  destruct (@workspace_without_name_or_attributes_raises answering_tfe lock_nothing
              (Some "foo") [workspace_alpha]
              [EvCall (Req orgs_list []);
               EvCall (Req set_org [("org_name", VStr "foo")]);
               EvCall (Req workspaces_list_all [("include", VNone)])])
    as [_ [_ H]].
  - reflexivity.
  - exists (VDict []). eexists. eexists. repeat split; reflexivity.
  - reflexivity.
  - reflexivity.
  - exact H.
Defined.


Lemma call_endpoint_loop_returned {A} (tfe : TFEHelper) (endpoint : M A) (r : request) :
  sends endpoint r ->
  forall n exception h x h',
    call_endpoint_loop tfe endpoint n exception h = (Ret x, h') ->
    exists a, h' = (h ++ a)%list /\ In (EvCall r) a.
Proof.
  intros Hs n. induction n as [|n IH]; intros exception h x h'.
  - simpl. destruct exception; discriminate.
  - simpl. unfold try_except. specialize (Hs h).
    destruct (endpoint h) as [o h1]. simpl in Hs. subst h1.
    destruct o as [y | e | msg]; try discriminate.
    + intros H. inversion H; subst. exists [EvCall r]. split; [reflexivity | left; reflexivity].
    + unfold bind, time_sleep. destruct (sleep tfe <? 0); [discriminate|].
      intros H. apply IH in H as [a [-> Ha]].
      exists (EvCall r :: EvSleep (sleep tfe) :: a). split.
      * rewrite <- !app_assoc. reflexivity.
      * right. right. exact Ha.
Qed.

Lemma any_res_attributes_name (attrs : list (string * value)) (n : value)
    (l : list resource) :
  dict_get attrs "name" = Some n ->
  all_have "name" l ->
  any_res (name_is_attributes_name (Some attrs)) l
  = inr (existsb (attribute_eqb "name" n) l).
Proof.
  intros Hn. induction 1 as [|o l Ho _ IH]; [reflexivity|].
  simpl. unfold name_is_attributes_name at 1, attribute_eqb at 1.
  unfold dict_has in Ho. simpl attributes_name. rewrite Hn.
  destruct (dict_get (r_attributes o) "name") as [x|]; [|discriminate].
  destruct (py_eq x n); [reflexivity | exact IH].
Qed.

(** X19: without [workspace], with [attributes] naming a workspace that no
    fetched workspace has, outside check mode, the module creates it: when
    [call_endpoint] gets an answer to [workspaces.create] (at the first
    attempt or at a later one), the run exits with [changed=True] and that
    answer as [json], and its mutating calls are the attempts of that one
    [create] request, whose payload wraps the attributes: at least one, at
    most [retries]. *)
Theorem workspace_created_when_name_is_new :
  forall (tfe : TFEHelper) (p : tfe_workspace.params) (org : option string)
         (all_workspaces : list resource) (h h' : log)
         (attrs : list (string * value)) (n v : value),
    tfe_workspace.required_if p = true ->
    workspaces_fetched tfe p org all_workspaces h ->
    tfe_workspace.state p = present ->
    tfe_workspace.workspace p = None ->
    tfe_workspace.attributes p = Some attrs ->
    tfe_workspace.check_mode p = false ->
    dict_get attrs "name" = Some n ->
    all_have "name" all_workspaces ->
    existsb (attribute_eqb "name" n) all_workspaces = false ->
    let create :=
      Req workspaces_create
        [("payload", VDict [("data", VDict [("type", VStr "workspaces");
                                            ("attributes", VDict attrs)])])] in
    call_endpoint tfe (endpoint_json tfe create) h = (Ret v, h') ->
    tfe_workspace.main tfe p [] =
    (Ret (tfe_workspace.set_changed (tfe_workspace.set_json (workspace_result0 p org) v)), h')
    /\ exists k, (1 <= k <= Z.to_nat (retries tfe))%nat
                 /\ mutating_calls h' = repeat (EvCall create) k.
Proof.
  intros tfe p org all_workspaces h h' attrs n v
    _ Hfetch Hstate Hw Hattrs Hcheck Hn Hall Hnew create Hcall.
  split.
  - rewrite (workspaces_fetched_main Hfetch).
    assert (Hid : tfe_workspace.get_workspace_id p org all_workspaces h = (Ret None, h)).
    { unfold tfe_workspace.get_workspace_id. rewrite Hw, Hattrs.
      rewrite any_res_attributes_name with (n := n) by assumption. rewrite Hnew.
      unfold bind, lift, ret, name_not_in, dict_has. rewrite Hn. reflexivity. }
    unfold tfe_workspace.reconcile. unfold bind at 1. rewrite Hid.
    unfold tfe_workspace.destroy_step, tfe_workspace.update_step, tfe_workspace.create_step,
      tfe_workspace.act.
    rewrite Hstate, Hattrs, Hcheck.
    unfold bind, lift, ret, name_not_in, dict_has. rewrite Hn.
    cbn [negb attributes_value]. unfold try_except. fold create. rewrite Hcall. reflexivity.
  - destruct (call_endpoint_adds tfe (endpoint_json_sends tfe create) h)
      as [a [Ea [k [Hk Hf]]]].
    rewrite Hcall in Ea. simpl in Ea. subst h'.
    exists k. unfold mutating_calls. rewrite filter_app.
    fold (mutating_calls h). rewrite (workspaces_fetched_silent Hfetch).
    rewrite (Hf is_mutating). simpl. split; [|reflexivity]. split; [|exact Hk].
    destruct (@call_endpoint_loop_returned _ tfe (endpoint_json tfe create) create
                (endpoint_json_sends tfe create) (Z.to_nat (retries tfe)) None h v
                (h ++ a)%list Hcall) as [a' [Ea' Hin]].
    apply app_inv_head in Ea'. subst a'.
    assert (Hin' : In (EvCall create) (filter (event_endpoint_is is_mutating) a))
      by (apply filter_In; split; [exact Hin | reflexivity]).
    rewrite (Hf is_mutating) in Hin'. simpl in Hin'.
    destruct k; [destruct Hin' | lia].
Qed.

Lemma workspace_created_when_name_is_new_witness :
  tfe_workspace.main answering_tfe create_beta [] =
  (Ret (tfe_workspace.set_changed
          (tfe_workspace.set_json (workspace_result0 create_beta (Some "foo")) (VDict []))),
   [EvCall (Req orgs_list []);
    EvCall (Req set_org [("org_name", VStr "foo")]);
    EvCall (Req workspaces_list_all [("include", VNone)]);
    EvCall (Req workspaces_create
              [("payload", VDict [("data", VDict [("type", VStr "workspaces");
                                                  ("attributes",
                                                   VDict [("name", VStr "beta")])])])])]).
Proof.
  destruct (@workspace_created_when_name_is_new answering_tfe create_beta (Some "foo")
              [workspace_alpha]
              [EvCall (Req orgs_list []);
               EvCall (Req set_org [("org_name", VStr "foo")]);
               EvCall (Req workspaces_list_all [("include", VNone)])]
              [EvCall (Req orgs_list []);
               EvCall (Req set_org [("org_name", VStr "foo")]);
               EvCall (Req workspaces_list_all [("include", VNone)]);
               EvCall (Req workspaces_create
                         [("payload",
                           VDict [("data", VDict [("type", VStr "workspaces");
                                                  ("attributes",
                                                   VDict [("name", VStr "beta")])])])])]
              [("name", VStr "beta")] (VStr "beta") (VDict []))
    as [H _].
  - reflexivity.
  - exists (VDict []). eexists. eexists. repeat split; reflexivity.
  - reflexivity.
  - reflexivity.
  - reflexivity.
  - reflexivity.
  - reflexivity.
  - repeat constructor.
  - reflexivity.
  - reflexivity.
  - exact H.
Defined.

(** ** Failures of remote calls *)

(** X20: with [retries <= 0] no request is ever sent: [call_endpoint] raises
    the [TypeError] of [raise None]; the list of organizations is then taken
    as unreadable, and the workspace module, run with accepted parameters,
    fails at [set_org] with that error as its message. *)
Theorem workspace_without_retries_sends_nothing :
  forall (tfe : TFEHelper) (p : tfe_workspace.params),
    tfe_workspace.required_if p = true ->
    retries tfe <= 0 ->
    tfe_workspace.main tfe p [] =
    (FailJson ("Unable to set " ++ quoted (tfe_workspace.organization p)
               ++ " organization to use for org specific endpoints: "
               ++ "exceptions must derive from BaseException"), []).
Proof.
  intros tfe p _ H.
  unfold tfe_workspace.main, get_org_name_when_exists, bind, try_except.
  rewrite call_endpoint_no_attempt by exact H. unfold ret.
  rewrite call_endpoint_no_attempt by exact H. reflexivity.
Qed.

Lemma workspace_without_retries_sends_nothing_witness :
  tfe_workspace.main no_attempt_tfe keep_alpha [] =
  (FailJson ("Unable to set " ++ quoted "foo"
             ++ " organization to use for org specific endpoints: "
             ++ "exceptions must derive from BaseException"), []).
Proof.
  apply (@workspace_without_retries_sends_nothing no_attempt_tfe keep_alpha).
  - reflexivity.
  - simpl. lia.
Defined.

(** X21: for [state=absent] on a workspace the lookup finds (by name or by
    ID), outside check mode: whenever [call_endpoint] gives up on
    [workspaces.destroy] and raises (the exception of the last attempt, or
    the error of [time.sleep] for a negative [sleep]), the module catches it
    and ends in [fail_json] with a message that names the workspace and the
    organization and carries the text of that exception; nothing is sent
    afterwards. *)
Theorem workspace_destroy_failure_is_reported :
  forall (tfe : TFEHelper) (p : tfe_workspace.params) (org : option string)
         (all_workspaces : list resource) (h h' : log) (workspace_id : string) (e : exn),
    tfe_workspace.required_if p = true ->
    workspaces_fetched tfe p org all_workspaces h ->
    tfe_workspace.state p = absent ->
    tfe_workspace.check_mode p = false ->
    tfe_workspace.get_workspace_id p org all_workspaces h = (Ret (Some workspace_id), h) ->
    call_endpoint tfe
      (endpoint_json tfe (Req workspaces_destroy [("workspace_id", VStr workspace_id)])) h
    = (Raise e, h') ->
    tfe_workspace.main tfe p [] =
    (FailJson ("Unable to destroy " ++ quoted (py_str (tfe_workspace.workspace p))
               ++ " workspace in " ++ quoted (py_str org) ++ " organization. Error: "
               ++ exn_msg e ++ "."), h').
Proof.
  intros tfe p org all_workspaces h h' workspace_id e _ Hfetch Hstate Hcheck Hid Hcall.
  rewrite (workspaces_fetched_main Hfetch).
  unfold tfe_workspace.reconcile. unfold bind at 1. rewrite Hid.
  unfold tfe_workspace.destroy_step, tfe_workspace.act.
  rewrite Hstate, Hcheck. cbn [negb].
  unfold bind, try_except. rewrite Hcall. reflexivity.
Qed.

Lemma workspace_destroy_failure_is_reported_witness :
  tfe_workspace.main impatient_tfe remove_alpha_by_id [] =
  (FailJson ("Unable to destroy " ++ quoted "ws-u6asykQpV8EKthKw" ++ " workspace in "
             ++ quoted "foo" ++ " organization. Error: sleep length must be non-negative."),
   [EvCall (Req orgs_list []);
    EvCall (Req set_org [("org_name", VStr "foo")]);
    EvCall (Req workspaces_list_all [("include", VNone)]);
    EvCall (Req workspaces_destroy [("workspace_id", VStr "ws-u6asykQpV8EKthKw")])]).
Proof.
  apply (@workspace_destroy_failure_is_reported impatient_tfe remove_alpha_by_id
           (Some "foo") [workspace_alpha]
           [EvCall (Req orgs_list []);
            EvCall (Req set_org [("org_name", VStr "foo")]);
            EvCall (Req workspaces_list_all [("include", VNone)])]
           [EvCall (Req orgs_list []);
            EvCall (Req set_org [("org_name", VStr "foo")]);
            EvCall (Req workspaces_list_all [("include", VNone)]);
            EvCall (Req workspaces_destroy [("workspace_id", VStr "ws-u6asykQpV8EKthKw")])]
           "ws-u6asykQpV8EKthKw" (ValueError "sleep length must be non-negative")).
  - reflexivity.
  - exists (VDict []). eexists. eexists. repeat split; reflexivity.
  - reflexivity.
  - reflexivity.
  - reflexivity.
  - reflexivity.
Defined.

(** ** The VCS connection module: unknown client, failing [show] *)

(** X22: [state=absent] for a client token that is the ID of no OAuth client
    and the name of none is not an error: the module exits with
    [changed=False] and makes no call after the fetch. *)
Theorem unknown_client_absent_is_left_alone :
  forall (tfe : TFEHelper) (p : tfe_vcs_connection.params) (org : option string)
         (all_oauth_clients : list resource) (h : log) (client : string),
    oauth_clients_fetched tfe p org all_oauth_clients h ->
    tfe_vcs_connection.state p = absent ->
    tfe_vcs_connection.client p = Some client ->
    all_have "name" all_oauth_clients ->
    find (id_is client) all_oauth_clients = None ->
    filter (attribute_eqb "name" (VStr client)) all_oauth_clients = [] ->
    tfe_vcs_connection.main tfe p [] = (Ret (vcs_result0 p org), h)
    /\ tfe_vcs_connection.changed (vcs_result0 p org) = false
    /\ mutating_calls h = [].
Proof.
  intros tfe p org all_oauth_clients h client Hfetch Hstate Hc Hall Hid Hname.
  split; [|split; [reflexivity | apply (oauth_clients_fetched_silent Hfetch)]].
  rewrite (oauth_clients_fetched_main Hfetch).
  unfold tfe_vcs_connection.reconcile. unfold bind at 1.
  rewrite (get_client_id_by_id p org h Hc Hall), Hid, Hname, Hstate.
  unfold tfe_vcs_connection.destroy_step, tfe_vcs_connection.update_step,
    tfe_vcs_connection.create_step.
  rewrite Hstate. reflexivity.
Qed.

Lemma unknown_client_absent_is_left_alone_witness :
  tfe_vcs_connection.main answering_tfe remove_unknown_client [] =
  (Ret (vcs_result0 remove_unknown_client (Some "foo")),
   [EvCall (Req orgs_list []);
    EvCall (Req set_org [("org_name", VStr "foo")]);
    EvCall (Req oauth_clients_list [])]).
Proof.
  apply (@unknown_client_absent_is_left_alone answering_tfe remove_unknown_client (Some "foo")
           [Resource "oc-1" [("name", VStr "github")] [];
            Resource "oc-2" [("name", VStr "github")] []] _ "bitbucket").
  - exists (VDict []). eexists. eexists. repeat split; reflexivity.
  - reflexivity.
  - reflexivity.
  - repeat constructor.
  - reflexivity.
  - reflexivity.
Defined.

(** X23: for [state=present] on an OAuth client the lookup finds (by ID or
    by name) and whose attributes are up to date, the module still calls
    [show], outside any [try]: whenever [call_endpoint] gives up on it and
    raises, the run ends in that uncaught exception, not in a [fail_json]
    message, even though nothing had to be changed. *)
Theorem client_show_failure_is_not_caught :
  forall (tfe : TFEHelper) (p : tfe_vcs_connection.params) (org : option string)
         (all_oauth_clients : list resource) (h h' : log) (client_id : string)
         (oc : resource) (e : exn),
    tfe_vcs_connection.required_if p = true ->
    oauth_clients_fetched tfe p org all_oauth_clients h ->
    tfe_vcs_connection.state p = present ->
    tfe_vcs_connection.get_client_id p org all_oauth_clients h = (Ret (Some client_id), h) ->
    find (id_is client_id) all_oauth_clients = Some oc ->
    is_subset (attributes_value (tfe_vcs_connection.attributes p))
              (VDict (r_attributes oc)) = inr true ->
    call_endpoint tfe
      (endpoint_json tfe (Req oauth_clients_show [("client_id", VStr client_id)])) h
    = (Raise e, h') ->
    tfe_vcs_connection.main tfe p [] = (Raise e, h').
Proof.
  intros tfe p org all_oauth_clients h h' client_id oc e _ Hfetch Hstate Hid Hfind Hsub Hcall.
  rewrite (oauth_clients_fetched_main Hfetch).
  unfold tfe_vcs_connection.reconcile. unfold bind at 1. rewrite Hid.
  unfold tfe_vcs_connection.destroy_step, tfe_vcs_connection.update_step.
  rewrite Hstate, first_filter_find, Hfind.
  unfold bind, lift, ret. rewrite Hsub. cbn [negb]. cbv beta iota.
  rewrite Hcall. reflexivity.
Qed.

Lemma client_show_failure_is_not_caught_witness :
  tfe_vcs_connection.main
    (failing_on (fun e => match e with oauth_clients_show => true | _ => false end))
    keep_client [] =
  (Raise (Exn "TFCHTTPInternalServerError" "a later attempt failed"),
   ([EvCall (Req orgs_list []);
     EvCall (Req set_org [("org_name", VStr "foo")]);
     EvCall (Req oauth_clients_list [])]
    ++ retry_trace (Req oauth_clients_show [("client_id", VStr "oc-1")]) 5 3)%list).
Proof.
  apply (@client_show_failure_is_not_caught
           (failing_on (fun e => match e with oauth_clients_show => true | _ => false end))
           keep_client (Some "foo")
           [Resource "oc-1" [("name", VStr "github")] [];
            Resource "oc-2" [("name", VStr "github")] []]
           [EvCall (Req orgs_list []);
            EvCall (Req set_org [("org_name", VStr "foo")]);
            EvCall (Req oauth_clients_list [])]
           ([EvCall (Req orgs_list []);
             EvCall (Req set_org [("org_name", VStr "foo")]);
             EvCall (Req oauth_clients_list [])]
            ++ retry_trace (Req oauth_clients_show [("client_id", VStr "oc-1")]) 5 3)%list
           "oc-1" (Resource "oc-1" [("name", VStr "github")] [])
           (Exn "TFCHTTPInternalServerError" "a later attempt failed")).
  - reflexivity.
  - exists (VDict []). eexists. eexists. repeat split; reflexivity.
  - reflexivity.
  - reflexivity.
  - reflexivity.
  - reflexivity.
  - reflexivity.
Defined.

(** ** [changed] and the mutating calls of a real run *)

Lemma mutating_calls_in (a : log) (r : request) :
  In (EvCall r) a -> is_mutating (req_endpoint r) = true -> mutating_calls a <> [].
Proof.
  intros Hin Hr E.
  assert (H : In (EvCall r) (mutating_calls a)) by (apply filter_In; split; assumption).
  rewrite E in H. destruct H.
Qed.

Section Tracks.
Context {R : Type}.
Variable changed : R -> bool.

Lemma tracks_ret (c0 : bool) (r : R) :
  (changed r = true <-> c0 = true) -> tracks changed c0 (ret r).
Proof.
  intros H h. exists []. split; [simpl; rewrite app_nil_r; reflexivity|].
  intros r' h' E. unfold ret in E. injection E as <- _. rewrite H.
  split; [intros Hc; left; exact Hc | intros [Hc | Hm]; [exact Hc | exfalso; apply Hm; reflexivity]].
Qed.

Lemma tracks_fail_json (c0 : bool) (msg : string) : tracks changed c0 (fail_json msg).
Proof.
  intros h. exists []. split; [simpl; rewrite app_nil_r; reflexivity|].
  intros r' h' E. discriminate E.
Qed.

Lemma tracks_raise (c0 : bool) (e : exn) : tracks changed c0 (raise e).
Proof.
  intros h. exists []. split; [simpl; rewrite app_nil_r; reflexivity|].
  intros r' h' E. discriminate E.
Qed.

Lemma tracks_bind_silent {A} (c0 : bool) (m : M A) (k : A -> M R) :
  silent is_mutating m -> (forall x, tracks changed c0 (k x)) ->
  tracks changed c0 (bind m k).
Proof.
  intros Sm Hk h. unfold bind. destruct (Sm h) as [a1 [E1 F1]].
  destruct (m h) as [o h1]. simpl in E1. subst h1.
  destruct o as [x | e | msg].
  - destruct (Hk x (h ++ a1)%list) as [a2 [E2 H2]].
    exists (a1 ++ a2)%list. split; [rewrite E2, app_assoc; reflexivity|].
    intros r h' E. rewrite (H2 r h' E).
    unfold mutating_calls. rewrite filter_app, F1. reflexivity.
  - exists a1. split; [reflexivity|]. intros r h' E. discriminate E.
  - exists a1. split; [reflexivity|]. intros r h' E. discriminate E.
Qed.

Lemma tracks_try_silent {A} (c0 : bool) (m : M A) (handler : exn -> M R) (k : A -> M R) :
  silent is_mutating m ->
  (forall e, tracks changed c0 (handler e)) ->
  (forall x, tracks changed c0 (k x)) ->
  tracks changed c0 (try_except m handler k).
Proof.
  intros Sm Hh Hk h. unfold try_except. destruct (Sm h) as [a1 [E1 F1]].
  destruct (m h) as [o h1]. simpl in E1. subst h1.
  destruct o as [x | e | msg].
  - destruct (Hk x (h ++ a1)%list) as [a2 [E2 H2]].
    exists (a1 ++ a2)%list. split; [rewrite E2, app_assoc; reflexivity|].
    intros r h' E. rewrite (H2 r h' E).
    unfold mutating_calls. rewrite filter_app, F1. reflexivity.
  - destruct (Hh e (h ++ a1)%list) as [a2 [E2 H2]].
    exists (a1 ++ a2)%list. split; [rewrite E2, app_assoc; reflexivity|].
    intros r h' E. rewrite (H2 r h' E).
    unfold mutating_calls. rewrite filter_app, F1. reflexivity.
  - exists a1. split; [reflexivity|]. intros r h' E. discriminate E.
Qed.

Lemma tracks_bind (c0 : bool) (m : M R) (k : R -> M R) :
  tracks changed c0 m ->
  (forall r, tracks changed (changed r) (k r)) ->
  tracks changed c0 (bind m k).
Proof.
  intros Hm Hk h. unfold bind. destruct (Hm h) as [a1 [E1 H1]].
  destruct (m h) as [o h1]. simpl in E1. subst h1.
  destruct o as [r1 | e | msg].
  - destruct (Hk r1 (h ++ a1)%list) as [a2 [E2 H2]].
    exists (a1 ++ a2)%list. split; [rewrite E2, app_assoc; reflexivity|].
    intros r h' E. rewrite (H2 r h' E), (H1 r1 _ eq_refl).
    unfold mutating_calls. rewrite filter_app.
    destruct (filter (event_endpoint_is is_mutating) a1) as [|ev rest].
    + simpl. tauto.
    + split; intros _; [right; discriminate | left; right; discriminate].
  - exists a1. split; [reflexivity|]. intros r h' E. discriminate E.
  - exists a1. split; [reflexivity|]. intros r h' E. discriminate E.
Qed.

End Tracks.

Lemma workspace_tracks_act (c0 : bool) (tfe : TFEHelper) (p : tfe_workspace.params)
    (r : request) (msg : exn -> string) (result0 : tfe_workspace.result) :
  tfe_workspace.check_mode p = false ->
  is_mutating (req_endpoint r) = true ->
  tracks tfe_workspace.changed c0 (tfe_workspace.act tfe p r msg result0).
Proof.
  intros Hcheck Hr h.
  destruct (@workspace_act_one_call is_mutating tfe p r msg result0 h) as [a [E _]].
  exists a. split; [exact E|].
  intros r' h' Er. rewrite Er in E. simpl in E. subst h'.
  unfold tfe_workspace.act in Er. rewrite Hcheck in Er.
  unfold bind, try_except, call_endpoint in Er. cbn [negb] in Er. cbv beta iota in Er.
  destruct (call_endpoint_loop tfe (endpoint_json tfe r) (Z.to_nat (retries tfe)) None h)
    as [o h1] eqn:Ec.
  destruct o as [v | e | m]; try discriminate Er.
  apply (call_endpoint_loop_returned tfe (endpoint_json_sends tfe r)) in Ec as [a' [-> Hin]].
  unfold ret in Er. injection Er as <- Ea. apply app_inv_head in Ea. subst a'.
  split; [intros _; right; apply (mutating_calls_in _ _ Hin Hr) | reflexivity].
Qed.

Lemma vcs_tracks_act (c0 : bool) (tfe : TFEHelper) (p : tfe_vcs_connection.params)
    (r : request) (msg : exn -> string) (result0 : tfe_vcs_connection.result) :
  tfe_vcs_connection.check_mode p = false ->
  is_mutating (req_endpoint r) = true ->
  tracks tfe_vcs_connection.changed c0 (tfe_vcs_connection.act tfe p r msg result0).
Proof.
  intros Hcheck Hr h.
  destruct (@vcs_act_one_call is_mutating tfe p r msg result0 h) as [a [E _]].
  exists a. split; [exact E|].
  intros r' h' Er. rewrite Er in E. simpl in E. subst h'.
  unfold tfe_vcs_connection.act in Er. rewrite Hcheck in Er.
  unfold bind, try_except, call_endpoint in Er. cbn [negb] in Er. cbv beta iota in Er.
  destruct (call_endpoint_loop tfe (endpoint_json tfe r) (Z.to_nat (retries tfe)) None h)
    as [o h1] eqn:Ec.
  destruct o as [v | e | m]; try discriminate Er.
  apply (call_endpoint_loop_returned tfe (endpoint_json_sends tfe r)) in Ec as [a' [-> Hin]].
  unfold ret in Er. injection Er as <- Ea. apply app_inv_head in Ea. subst a'.
  split; [intros _; right; apply (mutating_calls_in _ _ Hin Hr) | reflexivity].
Qed.

Ltac track_run Hcheck :=
  repeat first
    [ apply tracks_ret; simpl; apply iff_refl
    | apply tracks_fail_json
    | apply tracks_raise
    | apply workspace_tracks_act; [exact Hcheck | reflexivity]
    | apply vcs_tracks_act; [exact Hcheck | reflexivity]
    | apply tracks_bind; [| intros ?]
    | apply tracks_bind_silent; [solve [run_silent] | intros ?]
    | apply tracks_try_silent; [solve [run_silent] | intros ? | intros ?]
    | match goal with
      | |- tracks _ _ (match ?x with _ => _ end) => destruct x
      end ].

Lemma workspace_main_tracks (tfe : TFEHelper) (p : tfe_workspace.params) :
  tfe_workspace.check_mode p = false ->
  tracks tfe_workspace.changed false (tfe_workspace.main tfe p).
Proof.
  intros Hcheck.
  unfold tfe_workspace.main, tfe_workspace.reconcile, tfe_workspace.destroy_step,
    tfe_workspace.update_step, tfe_workspace.update_attributes,
    tfe_workspace.process_locked, tfe_workspace.process_ssh_key,
    tfe_workspace.create_step.
  cbv zeta. track_run Hcheck.
Qed.

Lemma vcs_main_tracks (tfe : TFEHelper) (p : tfe_vcs_connection.params) :
  tfe_vcs_connection.check_mode p = false ->
  tracks tfe_vcs_connection.changed false (tfe_vcs_connection.main tfe p).
Proof.
  intros Hcheck.
  unfold tfe_vcs_connection.main, tfe_vcs_connection.reconcile,
    tfe_vcs_connection.destroy_step, tfe_vcs_connection.update_step,
    tfe_vcs_connection.create_step.
  cbv zeta. track_run Hcheck.
Qed.

(** X24: outside check mode, a run of the workspace module or of the VCS
    connection module that reaches [exit_json] reports [changed=True]
    exactly when it sent a request to a mutating endpoint. *)
Theorem changed_iff_mutating_call :
  (forall (tfe : TFEHelper) (p : tfe_workspace.params) (r : tfe_workspace.result) (l : log),
     tfe_workspace.check_mode p = false ->
     tfe_workspace.main tfe p [] = (Ret r, l) ->
     (tfe_workspace.changed r = true <-> mutating_calls l <> []))
  /\ (forall (tfe : TFEHelper) (p : tfe_vcs_connection.params)
             (r : tfe_vcs_connection.result) (l : log),
        tfe_vcs_connection.check_mode p = false ->
        tfe_vcs_connection.main tfe p [] = (Ret r, l) ->
        (tfe_vcs_connection.changed r = true <-> mutating_calls l <> [])).
Proof.
  split; intros tfe p r l Hcheck Hmain.
  - destruct (@workspace_main_tracks tfe p Hcheck []) as [a [E H]].
    rewrite Hmain in E. simpl in E. subst a.
    rewrite (H r l Hmain). split; [intros [Hc | Hm]; [discriminate | exact Hm] | right; assumption].
  - destruct (@vcs_main_tracks tfe p Hcheck []) as [a [E H]].
    rewrite Hmain in E. simpl in E. subst a.
    rewrite (H r l Hmain). split; [intros [Hc | Hm]; [discriminate | exact Hm] | right; assumption].
Qed.

Lemma changed_iff_mutating_call_witness :
  (tfe_workspace.changed
     (tfe_workspace.set_changed
        (tfe_workspace.set_json (workspace_result0 create_beta (Some "foo")) (VDict []))) = true
   <-> mutating_calls
         [EvCall (Req orgs_list []);
          EvCall (Req set_org [("org_name", VStr "foo")]);
          EvCall (Req workspaces_list_all [("include", VNone)]);
          EvCall (Req workspaces_create
                    [("payload", VDict [("data", VDict [("type", VStr "workspaces");
                                                        ("attributes",
                                                         VDict [("name", VStr "beta")])])])])]
       <> [])
  /\ (tfe_vcs_connection.changed (vcs_result0 remove_unknown_client (Some "foo")) = true
      <-> mutating_calls [EvCall (Req orgs_list []);
                          EvCall (Req set_org [("org_name", VStr "foo")]);
                          EvCall (Req oauth_clients_list [])] <> []).
Proof.
  destruct changed_iff_mutating_call as [Hw Hv]. split.
  - apply (Hw answering_tfe create_beta); reflexivity.
  - apply (Hv answering_tfe remove_unknown_client); reflexivity.
Defined.

(** ** What the result of a run holds *)

(** X25: the result a run hands to [exit_json] echoes the invocation: its
    [state], [workspace] (or [client]) and [attributes] are the parameters,
    and its [organization] is what [get_org_name_when_exists] answered. *)
Theorem result_echoes_parameters :
  (forall (tfe : TFEHelper) (p : tfe_workspace.params) (r : tfe_workspace.result) (l : log),
     tfe_workspace.main tfe p [] = (Ret r, l) ->
     tfe_workspace.result_state r = tfe_workspace.state p
     /\ tfe_workspace.result_workspace r = tfe_workspace.workspace p
     /\ tfe_workspace.result_attributes r = tfe_workspace.attributes p
     /\ exists h1,
          get_org_name_when_exists tfe (tfe_workspace.organization p) true []
          = (Ret (tfe_workspace.result_organization r), h1))
  /\ (forall (tfe : TFEHelper) (p : tfe_vcs_connection.params)
             (r : tfe_vcs_connection.result) (l : log),
        tfe_vcs_connection.main tfe p [] = (Ret r, l) ->
        tfe_vcs_connection.result_state r = tfe_vcs_connection.state p
        /\ tfe_vcs_connection.result_client r = tfe_vcs_connection.client p
        /\ tfe_vcs_connection.result_attributes r = tfe_vcs_connection.attributes p
        /\ exists h1,
             get_org_name_when_exists tfe (tfe_vcs_connection.organization p) true []
             = (Ret (tfe_vcs_connection.result_organization r), h1)).
Proof.
  split; intros tfe p r l Hmain.
  - unfold tfe_workspace.main, bind in Hmain.
    destruct (get_org_name_when_exists tfe (tfe_workspace.organization p) true [])
      as [o h1] eqn:Eo.
    destruct o as [org | e | msg]; try discriminate Hmain.
    cbv zeta in Hmain.
    assert (H : tfe_workspace.result_state r = tfe_workspace.state p
                /\ tfe_workspace.result_workspace r = tfe_workspace.workspace p
                /\ tfe_workspace.result_attributes r = tfe_workspace.attributes p
                /\ tfe_workspace.result_organization r = org).
    { revert Hmain. generalize h1 r l.
      change (returns
                (try_except
                   (call_endpoint tfe
                      (endpoint_json tfe (Req set_org [("org_name", value_of org)])))
                   (fun e => fail_json ("Unable to set " ++ quoted (py_str org)
                       ++ " organization to use for org specific endpoints: " ++ exn_msg e))
                   (fun _ =>
                      try_except
                        (call_endpoint tfe
                           (endpoint_list tfe (Req workspaces_list_all [("include", VNone)])))
                        (fun e => fail_json ("Unable to list workspaces in "
                            ++ quoted (py_str org) ++ " organization. Error: "
                            ++ exn_msg e ++ "."))
                        (fun all_workspaces =>
                           tfe_workspace.reconcile tfe p org all_workspaces
                             (workspace_result0 p org))))
                (fun r => tfe_workspace.result_state r = tfe_workspace.state p
                          /\ tfe_workspace.result_workspace r = tfe_workspace.workspace p
                          /\ tfe_workspace.result_attributes r = tfe_workspace.attributes p
                          /\ tfe_workspace.result_organization r = org)).
      apply returns_try_any; [intros e; apply returns_fail_json | intros _].
      apply returns_try_any; [intros e; apply returns_fail_json | intros all_workspaces].
      apply workspace_reconcile_returns.
      - intros x Hx. exact Hx.
      - right. intros x v Hx. exact Hx.
      - repeat split. }
    destruct H as [H1 [H2 [H3 H4]]]. repeat split; try assumption.
    exists h1. rewrite H4. reflexivity.
  - unfold tfe_vcs_connection.main, bind in Hmain.
    destruct (get_org_name_when_exists tfe (tfe_vcs_connection.organization p) true [])
      as [o h1] eqn:Eo.
    destruct o as [org | e | msg]; try discriminate Hmain.
    cbv zeta in Hmain.
    assert (H : tfe_vcs_connection.result_state r = tfe_vcs_connection.state p
                /\ tfe_vcs_connection.result_client r = tfe_vcs_connection.client p
                /\ tfe_vcs_connection.result_attributes r = tfe_vcs_connection.attributes p
                /\ tfe_vcs_connection.result_organization r = org).
    { revert Hmain. generalize h1 r l.
      change (returns
                (try_except
                   (call_endpoint tfe
                      (endpoint_json tfe (Req set_org [("org_name", value_of org)])))
                   (fun e => fail_json ("Unable to set " ++ quoted (py_str org)
                       ++ " organization to use for org specific endpoints: " ++ exn_msg e))
                   (fun _ =>
                      try_except
                        (call_endpoint tfe (endpoint_list tfe (Req oauth_clients_list [])))
                        (fun e => fail_json ("Unable to list OAuth Clients in "
                            ++ quoted (py_str org) ++ " organization. Error: "
                            ++ exn_msg e ++ "."))
                        (fun all_oauth_clients =>
                           tfe_vcs_connection.reconcile tfe p org all_oauth_clients
                             (vcs_result0 p org))))
                (fun r => tfe_vcs_connection.result_state r = tfe_vcs_connection.state p
                          /\ tfe_vcs_connection.result_client r = tfe_vcs_connection.client p
                          /\ tfe_vcs_connection.result_attributes r
                             = tfe_vcs_connection.attributes p
                          /\ tfe_vcs_connection.result_organization r = org)).
      apply returns_try_any; [intros e; apply returns_fail_json | intros _].
      apply returns_try_any; [intros e; apply returns_fail_json | intros all_oauth_clients].
      apply vcs_reconcile_returns.
      - intros x Hx. exact Hx.
      - intros x v Hx. exact Hx.
      - repeat split. }
    destruct H as [H1 [H2 [H3 H4]]]. repeat split; try assumption.
    exists h1. rewrite H4. reflexivity.
Qed.

Lemma result_echoes_parameters_witness :
  tfe_workspace.result_state
    (tfe_workspace.set_changed
       (tfe_workspace.set_json (workspace_result0 create_beta (Some "foo")) (VDict [])))
  = present.
Proof.
  destruct result_echoes_parameters as [H _].
  destruct (H answering_tfe create_beta
              (tfe_workspace.set_changed
                 (tfe_workspace.set_json (workspace_result0 create_beta (Some "foo")) (VDict [])))
              [EvCall (Req orgs_list []);
               EvCall (Req set_org [("org_name", VStr "foo")]);
               EvCall (Req workspaces_list_all [("include", VNone)]);
               EvCall (Req workspaces_create
                         [("payload", VDict [("data", VDict [("type", VStr "workspaces");
                                                             ("attributes",
                                                              VDict [("name", VStr "beta")])])])])]
              eq_refl) as [H1 _].
  exact H1.
Defined.

(** X26: in check mode the workspace module never fills [json]: a run that
    reaches [exit_json] hands over the empty dict it was seeded with. *)
Theorem workspace_check_mode_json_is_empty :
  forall (tfe : TFEHelper) (p : tfe_workspace.params) (r : tfe_workspace.result) (l : log),
    tfe_workspace.check_mode p = true ->
    tfe_workspace.main tfe p [] = (Ret r, l) ->
    tfe_workspace.json r = VDict [].
Proof.
  intros tfe p r l Hcheck Hmain.
  unfold tfe_workspace.main, bind in Hmain.
  destruct (get_org_name_when_exists tfe (tfe_workspace.organization p) true [])
    as [o h1] eqn:Eo.
  destruct o as [org | e | msg]; try discriminate Hmain.
  cbv zeta in Hmain. revert Hmain. generalize h1 r l.
  change (returns
            (try_except
               (call_endpoint tfe
                  (endpoint_json tfe (Req set_org [("org_name", value_of org)])))
               (fun e => fail_json ("Unable to set " ++ quoted (py_str org)
                   ++ " organization to use for org specific endpoints: " ++ exn_msg e))
               (fun _ =>
                  try_except
                    (call_endpoint tfe
                       (endpoint_list tfe (Req workspaces_list_all [("include", VNone)])))
                    (fun e => fail_json ("Unable to list workspaces in "
                        ++ quoted (py_str org) ++ " organization. Error: "
                        ++ exn_msg e ++ "."))
                    (fun all_workspaces =>
                       tfe_workspace.reconcile tfe p org all_workspaces
                         (workspace_result0 p org))))
            (fun r => tfe_workspace.json r = VDict [])).
  apply returns_try_any; [intros e; apply returns_fail_json | intros _].
  apply returns_try_any; [intros e; apply returns_fail_json | intros all_workspaces].
  apply workspace_reconcile_returns.
  - intros x Hx. exact Hx.
  - left. exact Hcheck.
  - reflexivity.
Qed.

Lemma workspace_check_mode_json_is_empty_witness :
  tfe_workspace.json
    {| tfe_workspace.changed := true;
       tfe_workspace.result_state := present;
       tfe_workspace.result_organization := Some "foo";
       tfe_workspace.json := VDict [];
       tfe_workspace.result_workspace := Some "alpha";
       tfe_workspace.result_attributes := Some [("description", VStr "new")] |} = VDict [].
Proof.
  apply (@workspace_check_mode_json_is_empty answering_tfe check_update_lock_and_key _
           [EvCall (Req orgs_list []);
            EvCall (Req set_org [("org_name", VStr "foo")]);
            EvCall (Req workspaces_list_all [("include", VNone)]);
            EvCall (Req ssh_keys_list [])]).
  - reflexivity.
  - reflexivity.
Defined.
